(** * Review aggregation and summary caching of the B2C storefront

    A shallow embedding of the review subsystem:
    - [server/src/routes/reviews.public.ts]      (module [Routes])
    - [server/src/controllers/reviewController.ts] (module [Controller])
    - [src/services/reviewsService.ts]           (module [Client])
    - the rating fields of [models/Product.ts]   (record [Product])

    JavaScript numbers are modelled by exact rationals, ratings by
    integers, strings by sequences of characters, times by integer
    milliseconds. The Mongo collections are a list of review documents and
    a finite map of products; the two module-level NodeCache instances and
    the client-side [Map] are finite maps from keys to values with an
    expiry time. Handlers are functions from the server state to a response
    and the state they leave; a handler receives the current time, and the
    [_id] of a document it creates, as arguments. Store operations do not
    fail; what can throw is the ObjectId constructor. *)

From Stdlib Require Import ZArith QArith Qround Lia Lqa Ascii String.
From stdpp Require Import gmap strings list pretty.
Close Scope Q_scope.
Set Warnings "-register-all".

(* ===================================================================== *)
(** ** JavaScript numbers *)
(* ===================================================================== *)

(** A JS number is a [Q]: every value the subsystem computes is a rational. *)

(** [Math.round(x)]: the nearest integer, halves upwards. *)
Definition Math_round (x : Q) : Z := Qfloor (x + (1 # 2))%Q.

(** [Math.round(x * 10) / 10]; [Qred] keeps the result in lowest terms so
    that equal numbers are equal terms. *)
Definition round1 (x : Q) : Q :=
  Qred (inject_Z (Math_round (x * 10)%Q) / 10)%Q.

(** Truthiness of a number: [0] is falsy. *)
Definition num_truthy (x : Q) : bool := negb (Qeq_bool x 0).

(** The number of a count. *)
Definition of_count (n : nat) : Q := inject_Z (Z.of_nat n).

(** Sum of integer values. *)
Definition sumZ (l : list Z) : Z := foldr Z.add 0%Z l.

(** The arithmetic mean of a non-empty list of integer values: what the
    [$avg] accumulator of a [$group] stage yields. *)
Definition average (l : list Z) : Q :=
  (inject_Z (sumZ l) / of_count (length l))%Q.

(* ===================================================================== *)
(** ** Strings *)
(* ===================================================================== *)

(** White space removed by [String.prototype.trim] (ASCII range). *)
Definition is_space (a : ascii) : bool :=
  let n := nat_of_ascii a in
  (n =? 32) || ((9 <=? n) && (n <=? 13)).

Fixpoint trim_start (s : string) : string :=
  match s with
  | EmptyString => EmptyString
  | String a s' => if is_space a then trim_start s' else s
  end.

(** [s.trim()] *)
Definition trim (s : string) : string :=
  String.rev (trim_start (String.rev (trim_start s))).

(** [s.slice(0, n)] *)
Definition slice0 (n : nat) (s : string) : string := String.substring 0 n s.

(** [String(x || "")] for an optional string field of a request body. *)
Definition str_or_empty (x : option string) : string :=
  match x with
  | Some s => s
  | None => EmptyString
  end.


(* ===================================================================== *)
(** ** JSON values (response bodies, cached values) *)
(* ===================================================================== *)

Inductive json : Type :=
  | JNull
  | JBool (b : bool)
  | JNum (q : Q)
  | JStr (s : string)
  | JArr (l : list json)
  | JObj (fields : list (string * json)).

(** Own-property lookup [o[k]]; [None] is [undefined]. *)
Fixpoint assoc {A : Type} (k : string) (l : list (string * A)) : option A :=
  match l with
  | [] => None
  | (k', v) :: l' => if String.eqb k k' then Some v else assoc k l'
  end.

Definition jget (k : string) (j : json) : option json :=
  match j with
  | JObj fields => assoc k fields
  | _ => None
  end.

(** The numeric value of a field, when it is there and is a number. *)
Definition jnum (k : string) (j : json) : option Q :=
  match jget k j with
  | Some (JNum q) => Some q
  | _ => None
  end.

(** JS truthiness. *)
Definition truthy (j : json) : bool :=
  match j with
  | JNull => false
  | JBool b => b
  | JNum q => num_truthy q
  | JStr s => negb (String.eqb s EmptyString)
  | JArr _ | JObj _ => true
  end.

(** An HTTP response: status code and JSON body. *)
Record Response := mkResponse { status : nat; body : json }.

Definition failure (code : nat) (message : string) : Response :=
  mkResponse code (JObj [("success", JBool false); ("message", JStr message)]).

Definition server_error : Response := failure 500 "Server error".

(* ===================================================================== *)
(** ** Documents *)
(* ===================================================================== *)

(** A Mongo ObjectId, identified with its hexadecimal rendering:
    [String(oid)] and [oid.toString()] are [hex oid]. *)
Record ObjectId := mkOid { hex : string }.

#[global] Instance ObjectId_eq_dec : EqDecision ObjectId.
Proof. solve_decision. Defined.

#[global] Instance ObjectId_countable : Countable ObjectId.
Proof. apply (inj_countable' hex mkOid). intros []; reflexivity. Defined.

(** Moderation status of a review. *)
Inductive Status := pending | approved | rejected.

#[global] Instance Status_eq_dec : EqDecision Status.
Proof. solve_decision. Defined.

Definition status_name (st : Status) : string :=
  match st with
  | pending => "pending"
  | approved => "approved"
  | rejected => "rejected"
  end.

(** The authenticated user a middleware may attach to a request. *)
Record User := mkUser { u_id : ObjectId; u_name : string; u_email : string }.

(** A review document. The Review schema ([models/Review]) is not among the
    sources: the fields are those the two creation handlers write and the
    client's [ReviewDoc] type lists, a helpful counter that was never
    incremented counts as 0, and [Review.create] accepts the documents the
    handlers build. Ratings are integers. *)
Record Review := mkReview {
  rv_id : ObjectId;
  rv_productId : ObjectId;
  rv_productName : option string;
  rv_rating : Z;
  rv_title : option string;
  rv_comment : string;
  rv_verified : bool;
  rv_status : Status;
  rv_helpful : Z;
  rv_userId : option ObjectId;
  rv_userName : option string;
  rv_userEmail : option string
}.

Definition with_status (st : Status) (r : Review) : Review :=
  mkReview (rv_id r) (rv_productId r) (rv_productName r) (rv_rating r)
    (rv_title r) (rv_comment r) (rv_verified r) st (rv_helpful r)
    (rv_userId r) (rv_userName r) (rv_userEmail r).

Definition inc_helpful (r : Review) : Review :=
  mkReview (rv_id r) (rv_productId r) (rv_productName r) (rv_rating r)
    (rv_title r) (rv_comment r) (rv_verified r) (rv_status r)
    (rv_helpful r + 1)%Z
    (rv_userId r) (rv_userName r) (rv_userEmail r).

(** The name and the rating fields of a product document
    ([IProduct]: [rating], [reviews], [averageRating], [ratingsCount]).
    The other fields of the document are not part of the record; among
    them are the timestamps of the schema ([timestamps: true]), of which
    [updatedAt] is rewritten by every update. *)
Record Product := mkProduct {
  name : string;
  rating : Q;
  reviews : Q;
  averageRating : Q;
  ratingsCount : Q
}.

(** A product as [Product.create] leaves its rating fields (schema defaults). *)
Definition new_product (nm : string) : Product := mkProduct nm 0 0 0 0.

(** Writing one path of an update document. The product schema sets no
    [strict] option, so a path it does not declare is not written. *)
Definition set_path (path : string) (v : Q) (p : Product) : Product :=
  if String.eqb path "rating" then
    mkProduct (name p) v (reviews p) (averageRating p) (ratingsCount p)
  else if String.eqb path "reviews" then
    mkProduct (name p) (rating p) v (averageRating p) (ratingsCount p)
  else if String.eqb path "averageRating" then
    mkProduct (name p) (rating p) (reviews p) v (ratingsCount p)
  else if String.eqb path "ratingsCount" then
    mkProduct (name p) (rating p) (reviews p) (averageRating p) v
  else p.

(** [$set] of an update document, path by path. *)
Definition apply_set (upd : list (string * Q)) (p : Product) : Product :=
  foldl (fun acc kv => set_path kv.1 kv.2 acc) p upd.

(* ===================================================================== *)
(** ** NodeCache: keys with a value and an expiry time (0: never) *)
(* ===================================================================== *)

(** The node-cache package, as far as the handlers use it: [get], [set]
    with the standard TTL, [del]. An entry whose expiry time is before the
    current time is expired. *)

(** [stdTTL: 60] seconds, in both server modules. *)
Definition stdTTL : Z := 60.

Definition nc_expired (now : Z) (e : json * Z) : bool :=
  negb (e.2 =? 0)%Z && (e.2 <? now)%Z.

(** [cache.get(key)]: an expired entry is dropped and reported as a miss. *)
Definition nc_get (key : string) (now : Z) (c : gmap string (json * Z))
  : option json * gmap string (json * Z) :=
  match c !! key with
  | Some e => if nc_expired now e then (None, delete key c) else (Some e.1, c)
  | None => (None, c)
  end.

(** [cache.set(key, value)] with the standard TTL. *)
Definition nc_set (key : string) (v : json) (now : Z)
    (c : gmap string (json * Z)) : gmap string (json * Z) :=
  <[key := (v, (now + stdTTL * 1000)%Z)]> c.

(** [cache.del(key)] *)
Definition nc_del (key : string) (c : gmap string (json * Z))
  : gmap string (json * Z) :=
  delete key c.

(** The cache key of a product's summary. *)
Definition summary_key (productId : string) : string :=
  "review-summary:" +:+ productId.

(* ===================================================================== *)
(** ** Server state and the handler monad *)
(* ===================================================================== *)

(** The two collections and the [reviewCache] of each server module. *)
Record Server := mkServer {
  db_reviews : list Review;
  db_products : gmap ObjectId Product;
  route_cache : gmap string (json * Z);
  ctrl_cache : gmap string (json * Z)
}.

Definition set_reviews (rs : list Review) (s : Server) : Server :=
  mkServer rs (db_products s) (route_cache s) (ctrl_cache s).
Definition set_products (ps : gmap ObjectId Product) (s : Server) : Server :=
  mkServer (db_reviews s) ps (route_cache s) (ctrl_cache s).
Definition set_route_cache (c : gmap string (json * Z)) (s : Server) : Server :=
  mkServer (db_reviews s) (db_products s) c (ctrl_cache s).
Definition set_ctrl_cache (c : gmap string (json * Z)) (s : Server) : Server :=
  mkServer (db_reviews s) (db_products s) (route_cache s) c.

(** Deployment switches read from the process environment. *)
Record Env := mkEnv {
  AUTO_PUBLISH_REVIEWS : bool;   (* reviews.public.ts: the variable spells true *)
  AUTO_APPROVE_REVIEWS : bool    (* reviewController.ts: the variable is "true" *)
}.

(** A computation either returns or throws; what it wrote before throwing
    stays written. *)
Inductive outcome (A : Type) : Type :=
  | Ret (a : A)
  | Throw.
Arguments Ret {A} a.
Arguments Throw {A}.

Definition M (A : Type) : Type := Server -> outcome A * Server.

Definition ret {A} (a : A) : M A := fun s => (Ret a, s).
Definition throw {A} : M A := fun s => (Throw, s).
Definition bind {A B} (m : M A) (k : A -> M B) : M B :=
  fun s => match m s with
           | (Ret a, s') => k a s'
           | (Throw, s') => (Throw, s')
           end.
Definition gets {A} (f : Server -> A) : M A := fun s => (Ret (f s), s).
Definition modify (f : Server -> Server) : M unit := fun s => (Ret tt, f s).

Notation "'let*' x ':=' m 'in' k" := (bind m (fun x => k))
  (at level 10, x pattern, m at level 100, k at level 200).
Notation "m ';;' k" := (bind m (fun _ => k))
  (at level 100, k at level 200, right associativity).

(** [try { ... } catch { res.status(500)... }] around a handler body. *)
Definition try_catch (m : M Response) (on_error : Response)
  : Server -> Response * Server :=
  fun s => match m s with
           | (Ret r, s') => (r, s')
           | (Throw, s') => (on_error, s')
           end.

(** A handler that answers before its [try] block. *)
Definition answer (r : Response) : Server -> Response * Server :=
  fun s => (r, s).

(** Running a list of computations in order. *)
Fixpoint mapM {A B} (f : A -> M B) (l : list A) : M (list B) :=
  match l with
  | [] => ret []
  | x :: l' => let* y := f x in let* ys := mapM f l' in ret (y :: ys)
  end.

(* ===================================================================== *)
(** ** Library functions the handlers call *)
(* ===================================================================== *)

(** The validators and the ObjectId constructor come from express-validator
    and mongoose; the handlers are modelled over any behaviour of theirs. *)
Class Library := {
  isMongoId : string -> bool;               (* express-validator [isMongoId()] *)
  isEmail : string -> bool;                 (* express-validator [isEmail()] *)
  isValidObjectId : string -> bool;         (* [mongoose.isValidObjectId] *)
  ObjectId_new : string -> option ObjectId  (* [new mongoose.Types.ObjectId(id)],
                                               [None] when it throws *)
}.

(* ===================================================================== *)
(** ** Collection operations *)
(* ===================================================================== *)

(** One result of [{ $group: { _id: "$productId", count: { $sum: 1 },
    avg: { $avg: "$rating" } } }]. *)
Record ProductGroup := mkGroup { g_id : ObjectId; g_count : nat; g_avg : Q }.

Definition group_by_product (rs : list Review) : list ProductGroup :=
  map (fun pid =>
         let g := filter (fun r => rv_productId r = pid) rs in
         mkGroup pid (length g) (average (map rv_rating g)))
      (remove_dups (map rv_productId rs)).

(** Results of [{ $group: { _id: "$rating", count: { $sum: 1 } } }]. *)
Definition group_by_rating (rs : list Review) : list (Z * nat) :=
  map (fun k => (k, length (filter (fun r => rv_rating r = k) rs)))
      (remove_dups (map rv_rating rs)).

(** [{ $match: { productId: pid, status: "approved" } }] *)
Definition approved_of (pid : ObjectId) (r : Review) : Prop :=
  rv_productId r = pid /\ rv_status r = approved.

(** [{ $match: { productId: { $in: ids }, status: "approved" } }] *)
Definition approved_in (ids : list ObjectId) (r : Review) : Prop :=
  rv_productId r ∈ ids /\ rv_status r = approved.

#[global] Instance approved_of_dec pid r : Decision (approved_of pid r).
Proof. unfold approved_of. apply _. Defined.

#[global] Instance approved_in_dec ids r : Decision (approved_in ids r).
Proof. unfold approved_in. apply _. Defined.

(** [Review.aggregate([{ $match }, { $group by productId }])] *)
Definition Review_aggregate (m : Review -> Prop) `{!forall r, Decision (m r)}
  : M (list ProductGroup) :=
  gets (fun s => group_by_product (filter m (db_reviews s))).

(** [Review.aggregate([{ $match }, { $group by rating }])] *)
Definition Review_aggregate_ratings (m : Review -> Prop)
    `{!forall r, Decision (m r)} : M (list (Z * nat)) :=
  gets (fun s => group_by_rating (filter m (db_reviews s))).

(** [Review.create(doc)] *)
Definition Review_create (doc : Review) : M Review :=
  fun s => (Ret doc, set_reviews (db_reviews s ++ [doc]) s).

(** The first document with the given [_id] is updated. *)
Fixpoint update_first (rid : ObjectId) (f : Review -> Review)
    (rs : list Review) : option Review * list Review :=
  match rs with
  | [] => (None, [])
  | r :: rs' =>
      if decide (rv_id r = rid) then (Some (f r), f r :: rs')
      else let '(o, rs'') := update_first rid f rs' in (o, r :: rs'')
  end.

(** [Review.findByIdAndUpdate(id, update, { new: true })] without upsert:
    the updated document, or [null] when no document has that [_id]. The
    string id is cast to an ObjectId first, which throws when it cannot. *)
Definition Review_findByIdAndUpdate `{Library} (id : string)
    (f : Review -> Review) : M (option Review) :=
  match ObjectId_new id with
  | None => throw
  | Some rid =>
      fun s => let '(o, rs) := update_first rid f (db_reviews s) in
               (Ret o, set_reviews rs s)
  end.

(** [Product.findById(pid)] *)
Definition Product_findById (pid : ObjectId) : M (option Product) :=
  gets (fun s => db_products s !! pid).

(** [Product.findByIdAndUpdate(pid, { $set: upd })]: no upsert. The
    effect on the fields of [Product]; the document's [updatedAt] is
    outside the record. *)
Definition Product_findByIdAndUpdate (pid : ObjectId) (upd : list (string * Q))
  : M unit :=
  modify (fun s => set_products (alter (apply_set upd) pid (db_products s)) s).

(* ===================================================================== *)
(** ** Requests *)
(* ===================================================================== *)

(** The body of a review-creation request ([None]: field not sent). *)
Record Body := mkBody {
  b_productId : option string;   (* read by the controller only *)
  b_rating : option Z;
  b_comment : option string;
  b_title : option string;
  b_userName : option string;
  b_userEmail : option string
}.

(** [a || b] on optional strings: the empty string is falsy. *)
Definition or_string (a b : option string) : option string :=
  match a with
  | Some x => if String.eqb x EmptyString then b else Some x
  | None => b
  end.

(** [x || undefined] on a string. *)
Definition nonempty (x : string) : option string :=
  if String.eqb x EmptyString then None else Some x.

Definition jopt (o : option string) : json :=
  match o with Some x => JStr x | None => JNull end.

(** A review document in a response body. *)
Definition review_json (r : Review) : json :=
  JObj [("_id", JStr (hex (rv_id r)));
        ("productId", JStr (hex (rv_productId r)));
        ("productName", jopt (rv_productName r));
        ("rating", JNum (inject_Z (rv_rating r)));
        ("title", jopt (rv_title r));
        ("comment", JStr (rv_comment r));
        ("verified", JBool (rv_verified r));
        ("status", JStr (status_name (rv_status r)));
        ("helpful", JNum (inject_Z (rv_helpful r)));
        ("userId", jopt (hex <$> rv_userId r));
        ("userName", jopt (rv_userName r));
        ("userEmail", jopt (rv_userEmail r))].

(** [obj[k] = v] on an object. *)
Fixpoint obj_set {A} (k : string) (v : A) (fields : list (string * A))
  : list (string * A) :=
  match fields with
  | [] => [(k, v)]
  | (k', v') :: rest =>
      if String.eqb k k' then (k, v) :: rest else (k', v') :: obj_set k v rest
  end.

(** [res.status(400).json({ success: false, errors: errors.array() })]; of
    each validation error the field path is kept. *)
Definition validation_failed (paths : list string) : Response :=
  mkResponse 400
    (JObj [("success", JBool false); ("errors", JArr (JStr <$> paths))]).

Definition ok (fields : list (string * json)) : Response :=
  mkResponse 200 (JObj (("success", JBool true) :: fields)).

Definition created (fields : list (string * json)) : Response :=
  mkResponse 201 (JObj (("success", JBool true) :: fields)).

(** A function without a [return] statement resolves to [undefined]. *)
Definition undefined : option (Q * Q) := None.

(* ===================================================================== *)
(** ** server/src/routes/reviews.public.ts *)
(* ===================================================================== *)

Module Routes.

(** The document [POST /products/:productId/reviews] hands to
    [Review.create]. *)
Definition review_doc (autoPublish : bool) (newId : ObjectId)
    (user : option User) (pid : ObjectId) (p : Product) (b : Body) : Review :=
  {| rv_id := newId;
     rv_productId := pid;
     rv_productName := Some (name p);
     rv_rating := default 0%Z (b_rating b);    (* Number(req.body.rating) *)
     rv_title := nonempty (trim (str_or_empty (b_title b)));
     rv_comment := trim (str_or_empty (b_comment b));
     rv_verified := false;
     rv_status := if autoPublish then approved else pending;
     rv_helpful := 0;
     rv_userId := u_id <$> user;
     rv_userName := or_string (u_name <$> user) (b_userName b);
     rv_userEmail := or_string (u_email <$> user) (b_userEmail b) |}.

(** [body("rating").isInt({ min: 1, max: 5 })] *)
Definition rating_errors (rating : option Z) : list string :=
  match rating with
  | Some r => if (1 <=? r)%Z && (r <=? 5)%Z then [] else ["rating"]
  | None => ["rating"]
  end.

(** [body("comment").isString().isLength({ min: 5, max: 4000 })]: the
    chain does not stop at its first failure, so that a missing comment
    fails both validators and is reported twice. *)
Definition comment_errors (comment : option string) : list string :=
  match comment with
  | Some c => if (5 <=? String.length c) && (String.length c <=? 4000)
              then [] else ["comment"]
  | None => ["comment"; "comment"]
  end.

(** [body("title").optional().isString().isLength({ max: 120 })] *)
Definition title_errors (title : option string) : list string :=
  match title with
  | Some t => if String.length t <=? 120 then [] else ["title"]
  | None => []
  end.

Section handlers.
Context `{Library}.

Definition toObjectId (id : string) : M ObjectId :=
  match ObjectId_new id with
  | Some o => ret o
  | None => throw
  end.

(** [agg?.count ?? 0] *)
Definition total_of (agg : option ProductGroup) : Q :=
  match agg with
  | Some g => of_count (g_count g)
  | None => 0
  end.

(** [agg?.avg ? Math.round(agg.avg * 10) / 10 : 0] *)
Definition avg_of (agg : option ProductGroup) : Q :=
  match agg with
  | Some g => if num_truthy (g_avg g) then round1 (g_avg g) else 0
  | None => 0
  end.

(** The update document written on the product. *)
Definition stats_update (avg total : Q) : list (string * Q) :=
  [("rating", avg); ("reviewsCount", total);
   ("averageRating", avg); ("ratingsCount", total)].

Definition cache_del (key : string) : M unit :=
  modify (fun s => set_route_cache (nc_del key (route_cache s)) s).

Definition cache_get (key : string) (now : Z) : M (option json) :=
  fun s => let '(v, c) := nc_get key now (route_cache s) in
           (Ret v, set_route_cache c s).

Definition cache_set (key : string) (v : json) (now : Z) : M unit :=
  modify (fun s => set_route_cache (nc_set key v now (route_cache s)) s).

Definition recomputeProductStats (productId : string) : M (option (Q * Q)) :=
  let* pid := toObjectId productId in
  let* aggs := Review_aggregate (approved_of pid) in
  let agg := head aggs in
  let total := total_of agg in
  let avg := avg_of agg in
  Product_findByIdAndUpdate pid (stats_update avg total) ;;
  cache_del (summary_key productId) ;;
  ret undefined.

(** The validation chain of [POST /products/:productId/reviews]: the
    paths of the fields that fail. *)
Definition create_errors (productId : string) (b : Body) : list string :=
  (if isMongoId productId then [] else ["productId"]) ++
  rating_errors (b_rating b) ++
  comment_errors (b_comment b) ++
  title_errors (b_title b) ++
  (match b_userEmail b with
   | Some e => if isEmail e then [] else ["userEmail"]
   | None => []
   end).

(** [POST /products/:productId/reviews]; [newId] is the [_id] the store
    gives the new document. *)
Definition create_review (env : Env) (newId : ObjectId) (user : option User)
    (productId : string) (b : Body) : Server -> Response * Server :=
  let errors := create_errors productId b in
  if negb (bool_decide (errors = [])) then answer (validation_failed errors)
  else try_catch (
    let* pid := toObjectId productId in
    let* product := Product_findById pid in
    match product with
    | None => ret (failure 404 "Product not found")
    | Some p =>
        let autoPublish := AUTO_PUBLISH_REVIEWS env in
        let* doc := Review_create (review_doc autoPublish newId user pid p b) in
        (if autoPublish then recomputeProductStats (hex pid)
         else ret undefined) ;;
        ret (created [("data", review_json doc)])
    end) server_error.

(** [PATCH /reviews/:id/approve] *)
Definition approve (id : string) : Server -> Response * Server :=
  if negb (isMongoId id) then answer (validation_failed ["id"])
  else try_catch (
    let* doc := Review_findByIdAndUpdate id (with_status approved) in
    match doc with
    | None => ret (failure 404 "Review not found")
    | Some d =>
        recomputeProductStats (hex (rv_productId d)) ;;
        ret (ok [])
    end) server_error.

(** [POST /reviews/:id/helpful] *)
Definition helpful (id : string) : Server -> Response * Server :=
  if negb (isMongoId id) then answer (validation_failed ["id"])
  else try_catch (
    Review_findByIdAndUpdate id inc_helpful ;;
    ret (ok [])) server_error.

(** [{ avg, total, averageRating: avg, reviewCount: total }] *)
Definition summary_obj (avg total : Q) : json :=
  JObj [("avg", JNum avg); ("total", JNum total);
        ("averageRating", JNum avg); ("reviewCount", JNum total)].

(** The part of [GET /reviews/summary] after a cache miss. *)
Definition summary_miss (productId : string) (now : Z) : M Response :=
  let* pid := toObjectId productId in
  let* aggs := Review_aggregate (approved_of pid) in
  let agg := head aggs in
  let total := total_of agg in
  let avg := avg_of agg in
  Product_findByIdAndUpdate pid (stats_update avg total) ;;
  let summary := summary_obj avg total in
  cache_set (summary_key productId) summary now ;;
  ret (ok [("cached", JBool false); ("data", summary)]).

(** [GET /reviews/summary?productId=...] *)
Definition summary (productId : string) (now : Z)
  : Server -> Response * Server :=
  if negb (isMongoId productId) then answer (validation_failed ["productId"])
  else try_catch (
    let* cached := cache_get (summary_key productId) now in
    match cached with
    | Some v =>
        if truthy v then ret (ok [("cached", JBool true); ("data", v)])
        else summary_miss productId now
    | None => summary_miss productId now
    end) server_error.

(** The loop of [POST /reviews/bulk-summary] over the groups. *)
Definition bulk_data (aggs : list ProductGroup) : list (string * json) :=
  foldl (fun data a =>
           let avg := if num_truthy (g_avg a) then round1 (g_avg a) else 0%Q in
           let total := of_count (g_count a) in   (* a.count || 0 *)
           obj_set (hex (g_id a)) (summary_obj avg total) data)
        [] aggs.

(** [POST /reviews/bulk-summary]; [productIds] is [None] when the body
    carries no array under that name. *)
Definition bulk_summary (productIds : option (list string))
  : Server -> Response * Server :=
  try_catch (
    let productIds :=
      match productIds with Some l => take 300 l | None => [] end in
    let* ids := mapM toObjectId
                  (filter (fun id => isValidObjectId id) productIds) in
    if bool_decide (ids = []) then ret (ok [("data", JObj [])])
    else
      let* aggs := Review_aggregate (approved_in ids) in
      ret (ok [("data", JObj (bulk_data aggs))])) server_error.
End handlers.
End Routes.

(* ===================================================================== *)
(** ** server/src/controllers/reviewController.ts *)
(* ===================================================================== *)

(** Where a [catch] block answers with the message of the exception, the
    model answers with the handler's fallback message. *)

Module Controller.

(** An identifier passed as a string or as an ObjectId. *)
Inductive IdArg := IdStr (s : string) | IdOid (o : ObjectId).

(** [{ "1": 0, "2": 0, "3": 0, "4": 0, "5": 0 }]; a key is kept as the
    rating it spells. *)
Definition distribution0 : list (Z * nat) :=
  [(1%Z, 0); (2%Z, 0); (3%Z, 0); (4%Z, 0); (5%Z, 0)].

(** [distribution[String(k)] = v] *)
Fixpoint dist_set (k : Z) (v : nat) (d : list (Z * nat)) : list (Z * nat) :=
  match d with
  | [] => [(k, v)]
  | (k', v') :: rest =>
      if decide (k = k') then (k, v) :: rest else (k', v') :: dist_set k v rest
  end.

Definition distribution_of (agg : list (Z * nat)) : list (Z * nat) :=
  foldl (fun d s => dist_set s.1 s.2 d) distribution0 agg.

(** [Object.values(distribution).reduce((a, b) => a + b, 0)] *)
Definition dist_total (d : list (Z * nat)) : nat :=
  foldl (fun a kv => a + kv.2) 0 d.

(** [Object.entries(distribution).reduce((sum, [rating, count]) =>
    sum + Number(rating) * count, 0)] *)
Definition dist_weighted (d : list (Z * nat)) : Z :=
  foldl (fun sum kv => (sum + kv.1 * Z.of_nat kv.2)%Z) 0%Z d.

(** [total ? weighted / total : 0] *)
Definition dist_avg (d : list (Z * nat)) : Q :=
  if decide (dist_total d = 0) then 0%Q
  else (inject_Z (dist_weighted d) / of_count (dist_total d))%Q.

(** [{ distribution, total, avg: Math.round(avg * 10) / 10 }] *)
Definition summary_fields (d : list (Z * nat)) : list (string * json) :=
  [("distribution",
    JObj ((fun kv => (pretty kv.1, JNum (of_count kv.2))) <$> d));
   ("total", JNum (of_count (dist_total d)));
   ("avg", JNum (round1 (dist_avg d)))].

(** [{ ...base, ...extra }] *)
Definition spread (base extra : list (string * json)) : list (string * json) :=
  foldl (fun acc kv => obj_set kv.1 kv.2 acc) base extra.

Definition fields_of (j : json) : list (string * json) :=
  match j with JObj f => f | _ => [] end.

(** The document [createReview] hands to [Review.create]. *)
Definition review_doc (st : Status) (newId : ObjectId) (user : option User)
    (pid : ObjectId) (title comment : string) (b : Body) : Review :=
  {| rv_id := newId;
     rv_productId := pid;
     rv_productName := None;
     rv_rating := default 0%Z (b_rating b);
     rv_title := Some title;
     rv_comment := comment;
     rv_verified := false;
     rv_status := st;
     rv_helpful := 0;
     rv_userId := u_id <$> user;
     rv_userName := or_string (u_name <$> user) (b_userName b);
     rv_userEmail := or_string (u_email <$> user) (b_userEmail b) |}.

Section handlers.
Context `{Library}.

Definition toObjectId (id : IdArg) : M ObjectId :=
  match id with
  | IdStr s => match ObjectId_new s with Some o => ret o | None => throw end
  | IdOid o => ret o
  end.

Definition cache_del (key : string) : M unit :=
  modify (fun s => set_ctrl_cache (nc_del key (ctrl_cache s)) s).

Definition cache_get (key : string) (now : Z) : M (option json) :=
  fun s => let '(v, c) := nc_get key now (ctrl_cache s) in
           (Ret v, set_ctrl_cache c s).

Definition cache_set (key : string) (v : json) (now : Z) : M unit :=
  modify (fun s => set_ctrl_cache (nc_set key v now (ctrl_cache s)) s).

Definition recalcProductRating (productId : IdArg) : M (option (Q * Q)) :=
  let* pid := toObjectId productId in
  let* agg := Review_aggregate (approved_of pid) in
  let avg := match head agg with Some g => g_avg g | None => 0%Q end in
  let count := match head agg with
               | Some g => of_count (g_count g)
               | None => 0%Q
               end in
  Product_findByIdAndUpdate pid
    [("rating", round1 avg); ("reviewsCount", count)] ;;
  cache_del (summary_key (hex pid)) ;;
  ret undefined.

(** [!productId || !mongoose.isValidObjectId(productId)] *)
Definition bad_id (productId : option string) : bool :=
  match productId with
  | Some p => String.eqb p EmptyString || negb (isValidObjectId p)
  | None => true
  end.

(** The part of [getReviewSummary] after a cache miss. *)
Definition summary_miss (productId : string) (now : Z) : M Response :=
  let* pid := toObjectId (IdStr productId) in
  let* agg := Review_aggregate_ratings (approved_of pid) in
  let summary := summary_fields (distribution_of agg) in
  cache_set (summary_key productId) (JObj summary) now ;;
  ret (mkResponse 200
         (JObj (spread [("success", JBool true); ("cached", JBool false)]
                       summary))).

(** [GET /api/reviews/summary?productId=...] *)
Definition getReviewSummary (productId : option string) (now : Z)
  : Server -> Response * Server :=
  try_catch (
    if bad_id productId then ret (failure 400 "Valid productId required")
    else
      let productId := str_or_empty productId in
      let* cached := cache_get (summary_key productId) now in
      match cached with
      | Some v =>
          if truthy v then
            ret (mkResponse 200
                   (JObj (spread [("success", JBool true); ("cached", JBool true)]
                                 (fields_of v))))
          else summary_miss productId now
      | None => summary_miss productId now
      end) (failure 500 "Failed to get summary").

(** The loop of [getBulkReviewSummaries] over the groups. *)
Definition bulk_data (aggs : list ProductGroup) : list (string * json) :=
  foldl (fun summaries a =>
           obj_set (hex (g_id a))
             (JObj [("avg", JNum (if num_truthy (g_avg a)
                                  then round1 (g_avg a) else 0%Q));
                    ("total", JNum (of_count (g_count a)))])
             summaries)
        [] aggs.

(** [POST /api/reviews/summary/bulk] *)
Definition getBulkReviewSummaries (productIds : option (list string))
  : Server -> Response * Server :=
  try_catch (
    match productIds with
    | None | Some [] => ret (failure 400 "productIds required")
    | Some productIds =>
        let* ids := mapM (fun id => toObjectId (IdStr id))
                      (filter (fun id => isValidObjectId id) productIds) in
        if bool_decide (ids = []) then ret (ok [("data", JObj [])])
        else
          let* aggs := Review_aggregate (approved_in ids) in
          ret (ok [("data", JObj (bulk_data aggs))])
    end) server_error.

(** [!rating || rating < 1 || rating > 5] *)
Definition bad_rating (rating : option Z) : bool :=
  match rating with
  | Some r => (r =? 0)%Z || (r <? 1)%Z || (5 <? r)%Z
  | None => true
  end.

(** [POST /api/reviews]; [newId] is the [_id] the store gives the new
    document. *)
Definition createReview (env : Env) (newId : ObjectId) (user : option User)
    (b : Body) : Server -> Response * Server :=
  try_catch (
    if bad_id (b_productId b) then ret (failure 400 "Valid productId required")
    else if bad_rating (b_rating b) then ret (failure 400 "rating must be 1..5")
    else
      let productId := str_or_empty (b_productId b) in
      let title := slice0 120 (trim (str_or_empty (b_title b))) in
      let comment := trim (str_or_empty (b_comment b)) in
      if String.length comment <? 5 then ret (failure 400 "comment is too short")
      else if 4000 <? String.length comment
      then ret (failure 400 "comment too long (max 4000 chars)")
      else
        let st := if AUTO_APPROVE_REVIEWS env then approved else pending in
        let* pid := toObjectId (IdStr productId) in
        let* doc := Review_create
                      (review_doc st newId user pid title comment b) in
        (if decide (st = approved) then recalcProductRating (IdStr productId)
         else ret undefined) ;;
        ret (created
               [("message", JStr (if decide (st = approved)
                                  then "Review published"
                                  else "Review submitted for approval"));
                ("review", review_json doc)]))
    (failure 500 "Failed to create review").

(** [PATCH /api/reviews/:id/status] *)
Definition adminSetReviewStatus (id : string) (st : Status)
  : Server -> Response * Server :=
  try_catch (
    if negb (isValidObjectId id) then ret (failure 400 "Invalid review id")
    else
      let* review := Review_findByIdAndUpdate id (with_status st) in
      match review with
      | None => ret (failure 404 "Review not found")
      | Some r =>
          recalcProductRating (IdOid (rv_productId r)) ;;
          ret (ok [("review", review_json r)])
      end) (failure 500 "Failed to update status").
End handlers.
End Controller.

(* ===================================================================== *)
(** ** src/services/reviewsService.ts *)
(* ===================================================================== *)

Module Client.

(** [type ReviewSummary = { averageRating: number; reviewCount: number }] *)
Record ReviewSummary := mkSummary { averageRating : Q; reviewCount : Q }.

(** [type CacheEntry<T> = { value: T; expires: number }] *)
Record CacheEntry (T : Type) := mkEntry { value : T; expires : Z }.
Arguments mkEntry {T} value expires.
Arguments value {T} c.
Arguments expires {T} c.

Definition DEFAULT_TTL : Z := 30000.

(** [readCache(map, key)] at time [now]: the value, and the map as the call
    leaves it. *)
Definition readCache {T} (map : gmap string (CacheEntry T)) (key : string)
    (now : Z) : option T * gmap string (CacheEntry T) :=
  match map !! key with
  | None => (None, map)
  | Some hit =>
      if (now >? expires hit)%Z then (None, delete key map)
      else (Some (value hit), map)
  end.

(** [writeCache(map, key, value, ttl)] at time [now]. *)
Definition writeCache {T} (map : gmap string (CacheEntry T)) (key : string)
    (v : T) (ttl : Z) (now : Z) : gmap string (CacheEntry T) :=
  <[key := mkEntry v (now + ttl)%Z]> map.

(** [opts?: { forceRefresh?: boolean; ttlMs?: number }] *)
Record Opts := mkOpts { forceRefresh : option bool; ttlMs : option Z }.

(** [!!opts?.forceRefresh] *)
Definition force_of (opts : option Opts) : bool :=
  match opts with
  | Some o => default false (forceRefresh o)
  | None => false
  end.

(** [opts?.ttlMs ?? DEFAULT_TTL] *)
Definition ttl_of (opts : option Opts) : Z :=
  match opts with
  | Some o => default DEFAULT_TTL (ttlMs o)
  | None => DEFAULT_TTL
  end.

(** [a ?? b]: [undefined] and [null] give way. *)
Definition coalesce (a b : option json) : option json :=
  match a with
  | None | Some JNull => b
  | _ => a
  end.

(** [Number(x)] on what a summary field can hold; the server sends numbers. *)
Definition to_number (j : json) : Q :=
  match j with
  | JNum q => q
  | JBool true => 1
  | _ => 0
  end.

(** [map[id] || {}] *)
Definition entry_of (id : string) (map : json) : json :=
  match jget id map with
  | Some m => if truthy m then m else JObj []
  | None => JObj []
  end.

(** The summary read off one entry of the server's map. *)
Definition summary_of (m : json) : ReviewSummary :=
  {| averageRating :=
       to_number (default (JNum 0)
         (coalesce (coalesce (jget "averageRating" m) (jget "avg" m))
                   (Some (JNum 0))));
     reviewCount :=
       to_number (default (JNum 0)
         (coalesce (coalesce (jget "reviewCount" m) (jget "total" m))
                   (Some (JNum 0)))) |}.

Definition zero : ReviewSummary := {| averageRating := 0; reviewCount := 0 |}.

(** The state of the three loops of [bulkSummary]: [result], [missing] and
    [summaryCache]. *)
Record Loop := mkLoop {
  result : gmap string ReviewSummary;
  missing : list string;
  summaryCache : gmap string (CacheEntry ReviewSummary)
}.

(** First loop: cache hits go to [result], the rest to [missing]. *)
Definition partition_step (force : bool) (now : Z) (st : Loop) (id : string)
  : Loop :=
  if force then mkLoop (result st) (missing st ++ [id]) (summaryCache st)
  else
    let '(cached, cache) := readCache (summaryCache st) id now in
    match cached with
    | Some v => mkLoop (<[id := v]> (result st)) (missing st) cache
    | None => mkLoop (result st) (missing st ++ [id]) cache
    end.

(** Second loop: every missing id gets the summary of its entry. *)
Definition resolve_step (map : json) (ttl now : Z) (st : Loop) (id : string)
  : Loop :=
  let summary := summary_of (entry_of id map) in
  mkLoop (<[id := summary]> (result st)) (missing st)
         (writeCache (summaryCache st) id summary ttl now).

(** Third loop: an id still without a result gets zeros. *)
Definition fallback_step (ttl now : Z) (st : Loop) (id : string) : Loop :=
  match result st !! id with
  | Some _ => st
  | None =>
      mkLoop (<[id := zero]> (result st)) (missing st)
             (writeCache (summaryCache st) id zero ttl now)
  end.

Section service.
Context `{Library}.

(** [api.post("/reviews/bulk-summary", { productIds })]: the response
    body; a status outside 2xx rejects. *)
Definition post_bulk_summary (productIds : list string) (srv : Server)
  : outcome json * Server :=
  let '(res, srv') := Routes.bulk_summary (Some productIds) srv in
  if (200 <=? status res) && (status res <? 300) then (Ret (body res), srv')
  else (Throw, srv').

(** [reviewsService.bulkSummary(productIds, opts)]: the reads of the first
    loop happen at [t0], the writes after the request at [t1]. The map
    returned, or a rejection, with the cache and the server afterwards. *)
Definition bulkSummary (productIds : list string) (opts : option Opts)
    (t0 t1 : Z) (cache : gmap string (CacheEntry ReviewSummary))
    (srv : Server)
  : outcome (gmap string ReviewSummary)
    * gmap string (CacheEntry ReviewSummary) * Server :=
  let force := force_of opts in
  let ttl := ttl_of opts in
  let st1 := foldl (partition_step force t0) (mkLoop ∅ [] cache) productIds in
  match missing st1 with
  | [] =>
      let st3 := foldl (fallback_step ttl t0) st1 productIds in
      (Ret (result st3), summaryCache st3, srv)
  | _ :: _ =>
      match post_bulk_summary (missing st1) srv with
      | (Throw, srv') => (Throw, summaryCache st1, srv')
      | (Ret data, srv') =>
          let map := default (JObj [])
                       (match jget "data" data with
                        | Some d => if truthy d then Some d else None
                        | None => None
                        end) in
          let st2 := foldl (resolve_step map ttl t1) st1 (missing st1) in
          let st3 := foldl (fallback_step ttl t1) st2 productIds in
          (Ret (result st3), summaryCache st3, srv')
      end
  end.
End service.
End Client.

(* ===================================================================== *)
(** ** A library instance for concrete runs *)
(* ===================================================================== *)

(** Identifiers of 24 hexadecimal digits, rendered in lower case by the
    ObjectId; an e-mail address has an at sign. *)
Definition is_hex_digit (a : ascii) : bool :=
  let n := nat_of_ascii a in
  ((48 <=? n) && (n <=? 57)) || ((97 <=? n) && (n <=? 102))
  || ((65 <=? n) && (n <=? 70)).

Fixpoint string_forallb (f : ascii -> bool) (s : string) : bool :=
  match s with
  | EmptyString => true
  | String a s' => f a && string_forallb f s'
  end.

Definition is_hex24 (s : string) : bool :=
  (String.length s =? 24) && string_forallb is_hex_digit s.

Definition lower (a : ascii) : ascii :=
  let n := nat_of_ascii a in
  if (65 <=? n) && (n <=? 90) then ascii_of_nat (n + 32) else a.

Fixpoint lowercase (s : string) : string :=
  match s with
  | EmptyString => EmptyString
  | String a s' => String (lower a) (lowercase s')
  end.

Definition has_at (s : string) : bool :=
  negb (string_forallb (fun a => negb (Ascii.eqb a "@")) s).

Definition hex_library : Library :=
  {| isMongoId := is_hex24;
     isEmail := has_at;
     isValidObjectId := is_hex24;
     ObjectId_new := fun s => if is_hex24 s then Some (mkOid (lowercase s)) else None |}.

(* ===================================================================== *)
(** ** What the aggregate of a product is *)
(* ===================================================================== *)

(** The ratings of the reviews of a product whose status is [approved]. *)
Definition approved_ratings (pid : ObjectId) (rs : list Review) : list Z :=
  rv_rating <$> filter (approved_of pid) rs.

(** Their arithmetic mean, 0 when there is none. *)
Definition mean (l : list Z) : Q :=
  match l with
  | [] => 0%Q
  | _ :: _ => average l
  end.

(** [y] is [x] rounded to one decimal: a multiple of a tenth no further
    than half a tenth from [x], the upper one on a tie. *)
Definition nearest_tenth (x y : Q) : Prop :=
  (exists m : Z, y == inject_Z m / 10)%Q
  /\ (x - (1 # 20) < y)%Q /\ (y <= x + (1 # 20))%Q.

(** The (mean, count) pair of a product over a review collection. *)
Definition aggregate (pid : ObjectId) (rs : list Review) : Q * Q :=
  (round1 (mean (approved_ratings pid rs)),
   of_count (length (approved_ratings pid rs))).

(** The state [recomputeProductStats] leaves behind: the update document
    applied to the product, the summary key gone from the router's cache. *)
Definition after_recompute (productId : string) (pid : ObjectId) (s : Server)
  : Server :=
  let '(m, c) := aggregate pid (db_reviews s) in
  mkServer (db_reviews s)
           (alter (apply_set (Routes.stats_update m c)) pid (db_products s))
           (nc_del (summary_key productId) (route_cache s))
           (ctrl_cache s).

(** The state [recalcProductRating] leaves behind. *)
Definition after_recalc (pid : ObjectId) (s : Server) : Server :=
  let '(m, c) := aggregate pid (db_reviews s) in
  mkServer (db_reviews s)
           (alter (apply_set [("rating", m); ("reviewsCount", c)]) pid
                  (db_products s))
           (route_cache s)
           (nc_del (summary_key (hex pid)) (ctrl_cache s)).

(* ===================================================================== *)
(** ** Validation failures of a creation request *)
(* ===================================================================== *)

(** The rating is missing or outside 1..5. *)
Definition rating_out_of_range (r : option Z) : Prop :=
  match r with
  | Some r => (r < 1)%Z \/ (5 < r)%Z
  | None => True
  end.

(** The comment, measured by [measure], is shorter than 5 or longer than
    4000 characters; a missing comment counts as the empty one. *)
Definition comment_length_violation (measure : string -> nat)
    (c : option string) : Prop :=
  measure (str_or_empty c) < 5 \/ 4000 < measure (str_or_empty c).

#[global] Instance rating_out_of_range_dec r : Decision (rating_out_of_range r).
Proof. destruct r; apply _. Defined.

#[global] Instance comment_length_violation_dec measure c :
  Decision (comment_length_violation measure c).
Proof. unfold comment_length_violation. apply _. Defined.

(** The length the controller checks: that of the trimmed comment. *)
Definition trimmed_length (c : string) : nat := String.length (trim c).


(** The answer of [GET /reviews/summary] computed from a review
    collection: not cached, the aggregate under both spellings. *)
Definition Routes_fresh (pid : ObjectId) (rs : list Review) : Response :=
  ok [("cached", JBool false);
      ("data", Routes.summary_obj (fst (aggregate pid rs)) (snd (aggregate pid rs)))].

(** The answer of [getReviewSummary] computed from a review collection. *)
Definition Controller_fresh (pid : ObjectId) (rs : list Review) : Response :=
  mkResponse 200
    (JObj (Controller.spread
             [("success", JBool true); ("cached", JBool false)]
             (Controller.summary_fields
                (Controller.distribution_of
                   (group_by_rating (filter (approved_of pid) rs)))))).

(** The ObjectIds of a list of identifier strings, when the constructor
    accepts them all. *)
Fixpoint parse_all `{Library} (ids : list string) : option (list ObjectId) :=
  match ids with
  | [] => Some []
  | id :: rest =>
      match ObjectId_new id, parse_all rest with
      | Some o, Some os => Some (o :: os)
      | _, _ => None
      end
  end.

(** Every value of the router's cache is a summary object with both
    spellings. *)
Definition route_cache_ok (s : Server) : Prop :=
  forall key e, route_cache s !! key = Some e ->
    exists m c, e.1 = Routes.summary_obj m c.

(* ===================================================================== *)
(** ** Writes that change the approved reviews of a product *)
(* ===================================================================== *)

(** The first review with a given [_id]: the one [findByIdAndUpdate] hits. *)
Definition review_by_id (rid : ObjectId) (rs : list Review) : option Review :=
  head (filter (fun r => rv_id r = rid) rs).

(** In the router: a creation under auto-publish, an approval. *)
Inductive route_write `{Library} (pid : ObjectId) (s s' : Server) : Prop :=
  | rw_create env newId user productId b res :
      AUTO_PUBLISH_REVIEWS env = true ->
      ObjectId_new productId = Some pid ->
      Routes.create_review env newId user productId b s = (res, s') ->
      status res = 201 ->
      route_write pid s s'
  | rw_approve id rid d res :
      ObjectId_new id = Some rid ->
      review_by_id rid (db_reviews s) = Some d ->
      rv_productId d = pid ->
      Routes.approve id s = (res, s') ->
      status res = 200 ->
      route_write pid s s'.

(** In the controller: a creation under auto-approve, a status change. *)
Inductive ctrl_write `{Library} (pid : ObjectId) (s s' : Server) : Prop :=
  | cw_create env newId user b productId res :
      AUTO_APPROVE_REVIEWS env = true ->
      b_productId b = Some productId ->
      ObjectId_new productId = Some pid ->
      Controller.createReview env newId user b s = (res, s') ->
      status res = 201 ->
      ctrl_write pid s s'
  | cw_status id st rid d res :
      ObjectId_new id = Some rid ->
      review_by_id rid (db_reviews s) = Some d ->
      rv_productId d = pid ->
      Controller.adminSetReviewStatus id st s = (res, s') ->
      status res = 200 ->
      ctrl_write pid s s'.

(* ===================================================================== *)
(** ** Requests the server handles, and the states it reaches *)
(* ===================================================================== *)

(** A property of the state that a computation keeps. *)
Definition preserves {R} (P : Server -> Prop) (f : Server -> R * Server) : Prop :=
  forall s, P s -> P (snd (f s)).

(** One request, handled by either module. *)
Inductive server_step `{Library} (s : Server) : Server -> Prop :=
  | step_create env newId user productId b :
      server_step s (snd (Routes.create_review env newId user productId b s))
  | step_approve id :
      server_step s (snd (Routes.approve id s))
  | step_helpful id :
      server_step s (snd (Routes.helpful id s))
  | step_summary productId now :
      server_step s (snd (Routes.summary productId now s))
  | step_bulk_summary productIds :
      server_step s (snd (Routes.bulk_summary productIds s))
  | step_getReviewSummary productId now :
      server_step s (snd (Controller.getReviewSummary productId now s))
  | step_getBulkReviewSummaries productIds :
      server_step s (snd (Controller.getBulkReviewSummaries productIds s))
  | step_createReview env newId user b :
      server_step s (snd (Controller.createReview env newId user b s))
  | step_adminSetReviewStatus id st :
      server_step s (snd (Controller.adminSetReviewStatus id st s)).

(** The states of a server process: it starts with both caches empty, over
    any collections, and then handles requests. *)
Inductive reachable `{Library} : Server -> Prop :=
  | reachable_start rs ps : reachable (mkServer rs ps ∅ ∅)
  | reachable_step s s' : reachable s -> server_step s s' -> reachable s'.

(* ===================================================================== *)
(** ** Sample data *)
(* ===================================================================== *)

Module Sample.
Definition idA : string := "aaaaaaaaaaaaaaaaaaaaaaaa".
Definition idB : string := "bbbbbbbbbbbbbbbbbbbbbbbb".
Definition idC : string := "cccccccccccccccccccccccc".
Definition A : ObjectId := mkOid idA.
Definition B : ObjectId := mkOid idB.
Definition r1 : ObjectId := mkOid "000000000000000000000001".
Definition r2 : ObjectId := mkOid "000000000000000000000002".
Definition r3 : ObjectId := mkOid "000000000000000000000003".
Definition r4 : ObjectId := mkOid "000000000000000000000004".

(** Auto-publish and auto-approve switched on. *)
Definition auto : Env := mkEnv true true.

(** A review of product [pid]. *)
Definition review (rid pid : ObjectId) (stars : Z) (st : Status) : Review :=
  mkReview rid pid None stars None "works as described" false st 0
           None None None.

(** A creation request. *)
Definition request (productId : string) (stars : Z) (comment : string)
  : Body :=
  mkBody (Some productId) (Some stars) (Some comment) None None None.

(** Two products without reviews, caches empty. *)
Definition empty_shop : Server :=
  mkServer [] {[ A := new_product "Cable"; B := new_product "Charger" ]} ∅ ∅.

(** Product A with approved ratings 4, 5, 3 and a pending 2. *)
Definition shop : Server :=
  mkServer [review r1 A 4 approved; review r2 A 5 approved;
            review r3 A 3 approved; review r4 A 2 pending]
           {[ A := new_product "Cable"; B := new_product "Charger" ]} ∅ ∅.


(** The shop after a summary of A was read at time 1000: the router's
    cache holds (4, 3) for A. *)
Definition cached_shop : Server :=
  snd (Routes.summary (H := hex_library) idA 1000 shop).

(** Then the pending review of 2 stars is approved. *)
Definition approved_shop : Server :=
  snd (Routes.approve (H := hex_library) (hex r4) cached_shop).

(** The same through the controller. *)
Definition ctrl_cached_shop : Server :=
  snd (Controller.getReviewSummary (H := hex_library) (Some idA) 1000 shop).

Definition ctrl_approved_shop : Server :=
  snd (Controller.adminSetReviewStatus (H := hex_library) (hex r4) approved
         ctrl_cached_shop).

(** 300 times the identifier of B, then the identifier of A. *)
Definition long_list : list string := replicate 300 idB ++ [idA].

(** The identifier of A as a client may spell it: the same 24 digits in
    upper case. *)
Definition idA_upper : string := "AAAAAAAAAAAAAAAAAAAAAAAA".

(** The shop after a summary of A was read under that spelling at time
    1000, ... *)
Definition upper_cached_shop : Server :=
  snd (Routes.summary (H := hex_library) idA_upper 1000 shop).

(** ... and after the pending review of 2 stars was approved then. *)
Definition upper_approved_shop : Server :=
  snd (Routes.approve (H := hex_library) (hex r4) upper_cached_shop).

(** The same through the controller. *)
Definition ctrl_upper_cached_shop : Server :=
  snd (Controller.getReviewSummary (H := hex_library) (Some idA_upper) 1000
         shop).

Definition ctrl_upper_approved_shop : Server :=
  snd (Controller.adminSetReviewStatus (H := hex_library) (hex r4) approved
         ctrl_upper_cached_shop).
End Sample.

(* ===================================================================== *)
(** ** What two states of the server agree on *)
(* ===================================================================== *)

(** The rating figures of a product document. *)
Definition rating_fields (p : Product) : Q * Q * Q * Q :=
  (rating p, reviews p, averageRating p, ratingsCount p).

(** Two states with the same reviews, the same rating figures in every
    product document and the same two caches. The time an update stamps
    on a document ([updatedAt]) is not compared. *)
Definition same_figures (s1 s2 : Server) : Prop :=
  db_reviews s1 = db_reviews s2
  /\ (forall pid, rating_fields <$> db_products s1 !! pid
                  = rating_fields <$> db_products s2 !! pid)
  /\ route_cache s1 = route_cache s2
  /\ ctrl_cache s1 = ctrl_cache s2.

(* ===================================================================== *)
(** ** The two review listings *)
(* ===================================================================== *)

(** [GET /products/:productId/reviews] of the router and [listReviews] of
    the controller. The collection is kept in creation order: [createdAt]
    grows along [db_reviews], so that sorting by [createdAt] ascending
    gives the list as it stands and descending gives its reverse. A query
    parameter is sent at most once; a value that is sent spells an integer
    and is that integer: the handlers read it with [Number], which is
    exact up to [MAX_SAFE_INTEGER]; the properties below are stated within
    [exact_figures]. *)

Module Listing.

(** The sort documents: [{ createdAt: -1 }], [{ createdAt: 1 }] and
    [{ rating: -1, createdAt: -1 }]. *)
Inductive SortOpt := newest_first | oldest_first | top_rated.

(** Insertion in front of the first review that is not rated higher. *)
Fixpoint insert_by_rating (r : Review) (l : list Review) : list Review :=
  match l with
  | [] => [r]
  | x :: l' =>
      if (rv_rating x <=? rv_rating r)%Z then r :: x :: l'
      else x :: insert_by_rating r l'
  end.

(** [.sort(sortOpt)] *)
Definition sort_reviews (o : SortOpt) (rs : list Review) : list Review :=
  match o with
  | newest_first => reverse rs
  | oldest_first => rs
  | top_rated => foldr insert_by_rating [] (reverse rs)
  end.

(** [Review.find(match).sort(sortOpt).skip(skip).limit(limit).lean()] *)
Definition Review_find (m : Review -> Prop) `{!forall r, Decision (m r)}
    (o : SortOpt) (skip limit : Z) : M (list Review) :=
  gets (fun s =>
          take (Z.to_nat limit)
               (drop (Z.to_nat skip) (sort_reviews o (filter m (db_reviews s))))).

(** [Review.countDocuments(match)] *)
Definition Review_countDocuments (m : Review -> Prop)
    `{!forall r, Decision (m r)} : M nat :=
  gets (fun s => length (filter m (db_reviews s))).

(** [Math.ceil(x)] *)
Definition Math_ceil (x : Q) : Z := Qceiling x.

(** [Number.MAX_SAFE_INTEGER] *)
Definition MAX_SAFE_INTEGER : Z := (2 ^ 53 - 1)%Z.

(** The range in which the numbers of a listing are the integers of this
    module: the page and the skip [(page - 1) * limit] are held exactly,
    and no rounding moves the quotient [total / limit] across an integer. *)
Definition exact_figures (page limit : Z) (total : nat) : Prop :=
  (page * limit <= MAX_SAFE_INTEGER)%Z
  /\ (Z.of_nat total * limit <= MAX_SAFE_INTEGER)%Z.

(** The query string of a listing ([None]: parameter not sent). *)
Record ListQuery := mkListQuery {
  q_page : option Z;
  q_limit : option Z;
  q_sort : option string
}.

(** [Number(x) || d]: a missing value and 0 give way to [d]. *)
Definition number_or (x : option Z) (d : Z) : Z :=
  match x with
  | Some n => if (n =? 0)%Z then d else n
  | None => d
  end.

(** [const { x = d } = req.query]: only a missing value gives way. *)
Definition number_default (x : option Z) (d : Z) : Z :=
  match x with
  | Some n => n
  | None => d
  end.

(** [{ page, limit, total, pages: Math.ceil(total / limit) }] *)
Definition pagination (page limit : Z) (total : nat) : json :=
  JObj [("page", JNum (inject_Z page));
        ("limit", JNum (inject_Z limit));
        ("total", JNum (of_count total));
        ("pages", JNum (inject_Z (Math_ceil (of_count total / inject_Z limit))))].

(** The router reads [page], [limit] and [sort] off the query. *)
Definition route_page (q : ListQuery) : Z := Z.max 1 (number_or (q_page q) 1).

Definition route_limit (q : ListQuery) : Z :=
  Z.min 50 (Z.max 1 (number_or (q_limit q) 10)).

Definition route_sort (q : ListQuery) : SortOpt :=
  let sort := match q_sort q with
              | Some x => if String.eqb x EmptyString then "new" else x
              | None => "new"
              end in
  if String.eqb sort "top" then top_rated
  else if String.eqb sort "old" then oldest_first
  else newest_first.

(** The controller reads [page] and [limit]. *)
Definition ctrl_page (q : ListQuery) : Z := Z.max 1 (number_default (q_page q) 1).

Definition ctrl_limit (q : ListQuery) : Z :=
  Z.max 1 (Z.min 50 (number_default (q_limit q) 10)).

(** The distribution object of a response. *)
Definition distribution_json (d : list (Z * nat)) : json :=
  JObj ((fun kv => (pretty kv.1, JNum (of_count kv.2))) <$> d).

Section handlers.
Context `{Library}.

(** The validation chain of [GET /products/:productId/reviews]. *)
Definition list_errors (productId : string) (q : ListQuery) : list string :=
  (if isMongoId productId then [] else ["productId"]) ++
  (match q_page q with
   | Some p => if (1 <=? p)%Z then [] else ["page"]
   | None => []
   end) ++
  (match q_limit q with
   | Some l => if (1 <=? l)%Z && (l <=? 50)%Z then [] else ["limit"]
   | None => []
   end) ++
  (match q_sort q with
   | Some x => if bool_decide (x ∈ ["top"; "new"; "old"]) then [] else ["sort"]
   | None => []
   end).

(** [GET /products/:productId/reviews]. The ObjectId is built before the
    [try] block: when the constructor throws, the exception leaves the
    handler, which sends no response ([None]). *)
Definition list_reviews (productId : string) (q : ListQuery)
  : Server -> option Response * Server :=
  let errors := list_errors productId q in
  if negb (bool_decide (errors = []))
  then fun s => (Some (validation_failed errors), s)
  else fun s =>
    match Routes.toObjectId productId s with
    | (Throw, s') => (None, s')
    | (Ret pid, s') =>
        let page := route_page q in
        let limit := route_limit q in
        let sortOpt := route_sort q in
        let '(res, s'') :=
          try_catch (
            let* data := Review_find (approved_of pid) sortOpt
                           ((page - 1) * limit) limit in
            let* total := Review_countDocuments (approved_of pid) in
            ret (ok [("data", JArr (review_json <$> data));
                     ("pagination", pagination page limit total)]))
            server_error s' in
        (Some res, s'')
    end.

(** [GET /api/reviews?productId=...&page=&limit=] of the controller. *)
Definition listReviews (productId : option string) (q : ListQuery)
  : Server -> Response * Server :=
  try_catch (
    if Controller.bad_id productId then ret (failure 400 "productId required")
    else
      let* pid := Controller.toObjectId
                    (Controller.IdStr (str_or_empty productId)) in
      let p := ctrl_page q in
      let l := ctrl_limit q in
      let skip := ((p - 1) * l)%Z in
      let* items := Review_find (approved_of pid) newest_first skip l in
      let* total := Review_countDocuments (approved_of pid) in
      let* summary := Review_aggregate_ratings (approved_of pid) in
      let distribution := Controller.distribution_of summary in
      ret (ok [("reviews", JArr (review_json <$> items));
               ("pagination", pagination p l total);
               ("distribution", distribution_json distribution)]))
    (failure 500 "Failed to fetch reviews").
End handlers.
End Listing.

(* ===================================================================== *)
(** ** src/services/reviewsService.ts: single summaries and creation *)
(* ===================================================================== *)

(** The calls of the service run one after the other: no request is in
    flight when [summary] starts, so that [inflightSummary] is empty. The
    service talks to the router; a response outside 2xx rejects the
    request. The message of an error body is a string, as in every
    handler. *)

Module Service.

(** A promise that resolved, or rejected with the message of its error. *)
Inductive settled (A : Type) : Type :=
  | Resolved (a : A)
  | Rejected (message : string).
Arguments Resolved {A} a.
Arguments Rejected {A} message.

(** [interface ReviewInput] *)
Record ReviewInput := mkInput {
  i_productId : string;
  i_rating : Z;
  i_title : option string;
  i_comment : string;
  i_userName : option string;
  i_userEmail : option string
}.

(** [const { productId, ...body } = payload] *)
Definition body_of (payload : ReviewInput) : Body :=
  mkBody None (Some (i_rating payload)) (Some (i_comment payload))
         (i_title payload) (i_userName payload) (i_userEmail payload).

(** [data?.data || data || {}] *)
Definition payload_of (data : json) : json :=
  match jget "data" data with
  | Some d => if truthy d then d
              else if truthy data then data else JObj []
  | None => if truthy data then data else JObj []
  end.

(** [Number(payload?.k ?? 0)] *)
Definition field_or_zero (k : string) (payload : json) : Q :=
  match Client.coalesce (jget k payload) (Some (JNum 0)) with
  | Some j => Client.to_number j
  | None => 0
  end.

(** The summary read off a response body. *)
Definition summary_of_body (data : json) : Client.ReviewSummary :=
  let payload := payload_of data in
  Client.mkSummary (field_or_zero "averageRating" payload)
                   (field_or_zero "reviewCount" payload).

(** [msg || fallback] on [err?.response?.data?.message]. *)
Definition message_or (data : json) (fallback : string) : string :=
  match jget "message" data with
  | Some (JStr m) => if String.eqb m EmptyString then fallback else m
  | _ => fallback
  end.

(** The error [create] throws for a response outside 2xx. *)
Definition create_error (res : Response) : string :=
  if status res =? 400 then message_or (body res) "Invalid review data."
  else if status res =? 403
  then message_or (body res) "Only verified purchasers can review this product."
  else if status res =? 404 then message_or (body res) "Product not found."
  else if status res =? 409
  then message_or (body res) "You already reviewed this product."
  else message_or (body res) "Server error while submitting review.".

(** The key of the cross-tab signal. *)
Definition changed_key (productId : string) : string :=
  "reviews:changed:" +:+ productId.

(** [s.split(sep)], for a separator of one character. *)
Fixpoint split_on (sep : ascii) (s : string) : list string :=
  match s with
  | EmptyString => [EmptyString]
  | String a s' =>
      if Ascii.eqb a sep then EmptyString :: split_on sep s'
      else match split_on sep s' with
           | x :: rest => String a x :: rest
           | [] => [String a EmptyString]
           end
  end.

(** [s.startsWith(p)] *)
Fixpoint starts_with (p s : string) : bool :=
  match p, s with
  | EmptyString, _ => true
  | String a p', String b s' => Ascii.eqb a b && starts_with p' s'
  | String _ _, EmptyString => false
  end.

(** The listener of [storage] events: [key] is [e.key]. *)
Definition on_storage (key : option string)
    (cache : gmap string (Client.CacheEntry Client.ReviewSummary))
  : gmap string (Client.CacheEntry Client.ReviewSummary) :=
  match key with
  | None => cache
  | Some k =>
      if String.eqb k EmptyString then cache
      else if starts_with "reviews:changed:" k then
        match last (split_on ":" k) with
        | Some productId => delete productId cache
        | None => cache
        end
      else cache
  end.

(** The listener of the same-tab event: [productId] is
    [e?.detail?.productId]. *)
Definition on_changed (productId : option string)
    (cache : gmap string (Client.CacheEntry Client.ReviewSummary))
  : gmap string (Client.CacheEntry Client.ReviewSummary) :=
  match productId with
  | Some p => if String.eqb p EmptyString then cache else delete p cache
  | None => cache
  end.

(** What a tab holds: its [summaryCache], and the [localStorage] it shares
    with the other tabs of the origin. *)
Record Tab := mkTab {
  tab_cache : gmap string (Client.CacheEntry Client.ReviewSummary);
  localStorage : gmap string string
}.

(** [notifyReviewsChanged(productId)] at time [now]: the same-tab event
    reaches the tab's own listener, then the storage item is written. *)
Definition notifyReviewsChanged (productId : string) (now : Z) (tab : Tab)
  : Tab :=
  mkTab (on_changed (Some productId) (tab_cache tab))
        (<[changed_key productId := pretty now]> (localStorage tab)).

Section service.
Context `{Library}.

(** [api.get("/reviews/summary", { params: { productId } })], handled by
    the server at its time [ts]. *)
Definition get_summary (productId : string) (ts : Z) (srv : Server)
  : outcome json * Server :=
  let '(res, srv') := Routes.summary productId ts srv in
  if (200 <=? status res) && (status res <? 300) then (Ret (body res), srv')
  else (Throw, srv').

(** [reviewsService.summary(productId, opts)]: the cache is read at [t0]
    and written at [t1]. *)
Definition summary (productId : string) (opts : option Client.Opts)
    (t0 t1 ts : Z)
    (cache : gmap string (Client.CacheEntry Client.ReviewSummary))
    (srv : Server)
  : outcome Client.ReviewSummary
    * gmap string (Client.CacheEntry Client.ReviewSummary) * Server :=
  let force := Client.force_of opts in
  let ttl := Client.ttl_of opts in
  let '(cached, cache0) :=
    if force then (None, cache) else Client.readCache cache productId t0 in
  match cached with
  | Some v => (Ret v, cache0, srv)
  | None =>
      match get_summary productId ts srv with
      | (Throw, srv') => (Throw, cache0, srv')
      | (Ret data, srv') =>
          let out := summary_of_body data in
          (Ret out, Client.writeCache cache0 productId out ttl t1, srv')
      end
  end.

(** [reviewsService.create(payload)] at time [now]; [env], [newId] and
    [user] are what the server brings to the request. The created
    document, or the message of the error thrown. *)
Definition create (env : Env) (newId : ObjectId) (user : option User)
    (payload : ReviewInput) (now : Z) (tab : Tab) (srv : Server)
  : settled (option json) * Tab * Server :=
  let productId := i_productId payload in
  let '(res, srv') :=
    Routes.create_review env newId user productId (body_of payload) srv in
  if (200 <=? status res) && (status res <? 300) then
    let data := body res in
    match jget "success" data with
    | Some ok =>
        if truthy ok then
          let tab1 := mkTab (delete productId (tab_cache tab))
                            (localStorage tab) in
          (Resolved (jget "data" data),
           notifyReviewsChanged productId now tab1, srv')
        else (Rejected "Server error while submitting review.", tab, srv')
    | None => (Rejected "Server error while submitting review.", tab, srv')
    end
  else (Rejected (create_error res), tab, srv').

(** [type Pagination] *)
Record Pagination := mkPagination {
  pg_page : Q;
  pg_limit : Q;
  pg_total : Q;
  pg_pages : Q
}.

(** [Number(a ?? b ?? fallback)] on fields of the pagination block. *)
Definition number_of (a b : option json) (fallback : Q) : Q :=
  match Client.coalesce a b with
  | Some j => match j with
              | JNull => fallback
              | _ => Client.to_number j
              end
  | None => fallback
  end.

(** [normPagination(p, fallback)]; [p] is [None] when the answer has no
    pagination block. *)
Definition normPagination (p : option json) (fallback : Pagination)
  : Pagination :=
  let get k := match p with Some o => jget k o | None => None end in
  mkPagination
    (number_of (get "page") (get "currentPage") (pg_page fallback))
    (number_of (get "limit") None (pg_limit fallback))
    (number_of (get "total") (get "totalProducts") (pg_total fallback))
    (number_of (get "pages") (get "totalPages") (pg_pages fallback)).

(** [reviewsService.list(productId, page, limit, sort)]: the reviews and
    the pagination, or the message of the error thrown: that of the
    axios error for a status outside 2xx (and for an answer that never
    comes), the server's or "Failed to fetch reviews" for a body without
    [success]. The cache-busting parameter [_ts] is not read by the
    server. *)
Definition list (productId : string) (page limit : Z) (sort : string)
    (srv : Server) : settled (list json * Pagination) * Server :=
  let query := Listing.mkListQuery (Some page) (Some limit) (Some sort) in
  match Listing.list_reviews productId query srv with
  | (None, srv') => (Rejected "timeout of 20000ms exceeded", srv')
  | (Some res, srv') =>
      if (200 <=? status res) && (status res <? 300) then
        let data := body res in
        match jget "success" data with
        | Some ok =>
            if truthy ok then
              let fallback :=
                mkPagination (inject_Z page) (inject_Z limit) 0 1 in
              (Resolved (match jget "data" data with
                         | Some (JArr l) => l
                         | _ => []
                         end,
                         normPagination (jget "pagination" data) fallback),
               srv')
            else (Rejected (message_or data "Failed to fetch reviews"), srv')
        | None => (Rejected (message_or data "Failed to fetch reviews"), srv')
        end
      else (Rejected ("Request failed with status code " +:+ pretty (status res)),
            srv')
  end.
End service.
End Service.

(* ===================================================================== *)
(** ** models/Product.ts: virtuals and hooks *)
(* ===================================================================== *)

(** The virtuals read the price fields of a product document; they are
    functions of those fields. *)

Module ProductModel.

(** [this.originalPrice ?? this.compareAtPrice ?? 0] *)
Definition compare_price (originalPrice compareAtPrice : option Q) : Q :=
  match originalPrice with
  | Some x => x
  | None => match compareAtPrice with
            | Some y => y
            | None => 0
            end
  end.

(** The virtual [discountPercent]. Prices are exact rationals: where
    the quotient of the code's doubles falls on the other side of a half,
    [Math.round] gives the neighbouring percentage (171 against 200: 14 in
    the code, 15 here). *)
Definition discountPercent (price : Q) (originalPrice compareAtPrice : option Q)
  : Z :=
  let cmp := compare_price originalPrice compareAtPrice in
  if negb (num_truthy cmp) || negb (num_truthy price) || Qle_bool cmp price
  then 0%Z
  else Math_round ((cmp - price) / cmp * 100)%Q.


(** The virtual [primaryImage]. *)
Definition primaryImage (imageUrl : option string) (images : option (list string))
  : string :=
  let first := match images with
               | Some (x :: _) => x
               | _ => EmptyString
               end in
  match imageUrl with
  | Some u => if 0 <? String.length u then u else first
  | None => first
  end.

(** The [pre('save')] hook: [inStock = (stockQuantity || 0) > 0]. *)
Definition inStock_on_save (stockQuantity : option Q) : bool :=
  match stockQuantity with
  | Some q => negb (Qle_bool q 0)
  | None => false
  end.
End ProductModel.

(** The discount shown by the OEM page ([pages/OEM.tsx]):
    [priceOffPct(price, original)], [None] for a missing argument. Exact
    rationals, as for [discountPercent]. *)
Definition priceOffPct (price original : option Q) : Z :=
  match price, original with
  | Some price, Some original =>
      if negb (num_truthy price) || negb (num_truthy original)
         || Qle_bool original price
      then 0%Z
      else Math_round ((original - price) / original * 100)%Q
  | _, _ => 0%Z
  end.

(* ===================================================================== *)
(** ** constants/categories.ts and the category tables of pages/Products.tsx *)
(* ===================================================================== *)

(** Strings are sequences of ASCII characters. *)

Module Categories.

(** The class [[a-z0-9]]. *)
Definition is_alnum (a : ascii) : bool :=
  let n := nat_of_ascii a in
  ((97 <=? n) && (n <=? 122)) || ((48 <=? n) && (n <=? 57)).

Definition hyphen : ascii := "-"%char.

(** [.replace(/[^a-z0-9]+/g, '-')]: every maximal run of other characters
    becomes one hyphen; [in_run] tells that the run at hand has its hyphen
    already. *)
Fixpoint hyphenate_from (in_run : bool) (s : string) : string :=
  match s with
  | EmptyString => EmptyString
  | String a s' =>
      if is_alnum a then String a (hyphenate_from false s')
      else if in_run then hyphenate_from true s'
      else String hyphen (hyphenate_from true s')
  end.

Definition hyphenate (s : string) : string := hyphenate_from false s.

(** A hyphen that ends the string is removed. *)
Fixpoint drop_last_hyphen (s : string) : string :=
  match s with
  | EmptyString => EmptyString
  | String a EmptyString => if Ascii.eqb a hyphen then EmptyString else s
  | String a s' => String a (drop_last_hyphen s')
  end.

(** [.replace(/(^-|-$)+/g, '')]: a hyphen that starts the string and a
    hyphen that ends it are removed. *)
Definition strip_hyphens (s : string) : string :=
  drop_last_hyphen
    (match s with
     | String a s' => if Ascii.eqb a hyphen then s' else s
     | EmptyString => EmptyString
     end).

(** The shape of a slug: letters, digits and hyphens, ... *)
Definition slug_char (a : ascii) : bool := is_alnum a || Ascii.eqb a hyphen.

(** ... no hyphen at the start, ... *)
Definition starts_with_hyphen (s : string) : bool :=
  match s with
  | String a _ => Ascii.eqb a hyphen
  | EmptyString => false
  end.

(** ... none at the end, ... *)
Fixpoint ends_with_hyphen (s : string) : bool :=
  match s with
  | EmptyString => false
  | String a EmptyString => Ascii.eqb a hyphen
  | String _ s' => ends_with_hyphen s'
  end.

(** ... and no two in a row. *)
Fixpoint no_hyphen_pair (s : string) : bool :=
  match s with
  | EmptyString => true
  | String a s' =>
      negb (Ascii.eqb a hyphen && starts_with_hyphen s') && no_hyphen_pair s'
  end.

(** [slugify]; [None] is a falsy argument. *)
Definition slugify (s : option string) : string :=
  strip_hyphens (hyphenate (trim (lowercase (str_or_empty s)))).

Definition CATEGORY_NAMES : list string :=
  ["TWS"; "Bluetooth Neckbands"; "Data Cables"; "Mobile Chargers";
   "Integrated Circuits & Chips"; "Mobile Repairing Tools"; "Electronics";
   "Accessories"; "Car Chargers"; "Bluetooth Speakers"; "Power Banks";
   "Others"].

(** [Object.fromEntries(CATEGORY_NAMES.map((name) => [slugify(name), name]))] *)
Definition CATEGORY_MAP : list (string * string) :=
  foldl (fun o name => obj_set (slugify (Some name)) name o) [] CATEGORY_NAMES.

(** pages/Products.tsx: slug or alias to display name. *)
Definition CATEGORY_ALIAS_TO_NAME : list (string * string) :=
  [("tws", "TWS");
   ("neckband", "Bluetooth Neckbands");
   ("neckbands", "Bluetooth Neckbands");
   ("bluetooth-neckband", "Bluetooth Neckbands");
   ("bluetooth-neckbands", "Bluetooth Neckbands");
   ("chargers", "Mobile Chargers");
   ("mobile-charger", "Mobile Chargers");
   ("mobile-chargers", "Mobile Chargers");
   ("car-charger", "Car Chargers");
   ("car-chargers", "Car Chargers");
   ("data-cable", "Data Cables");
   ("data-cables", "Data Cables");
   ("speakers", "Bluetooth Speakers");
   ("bluetooth-speaker", "Bluetooth Speakers");
   ("bluetooth-speakers", "Bluetooth Speakers");
   ("banks", "Power Banks");
   ("power-bank", "Power Banks");
   ("power-banks", "Power Banks");
   ("ICs", "Integrated Circuits & Chips");
   ("mobile-repairing-tools", "Mobile Repairing Tools");
   ("electronics", "Electronics");
   ("accessories", "Accessories");
   ("others", "Others")].

(** pages/Products.tsx: display name to the slug written to the URL. *)
Definition NAME_TO_SLUG : list (string * string) :=
  [("TWS", "tws");
   ("Bluetooth Neckbands", "bluetooth-neckbands");
   ("Data Cables", "data-cables");
   ("Mobile Chargers", "mobile-chargers");
   ("Car Chargers", "car-chargers");
   ("Bluetooth Speakers", "bluetooth-speakers");
   ("Power Banks", "power-banks");
   ("Integrated Circuits & Chips", "ICs");
   ("Mobile Repairing Tools", "mobile-repairing-tools");
   ("Electronics", "electronics");
   ("Accessories", "accessories");
   ("Others", "others")].

(** [(searchParams.get('category') || '').trim().toLowerCase()] *)
Definition urlCategorySlug (param : option string) : string :=
  lowercase (trim (str_or_empty param)).

(** [(urlCategorySlug && CATEGORY_ALIAS_TO_NAME[urlCategorySlug]) || ''],
    over the table's own keys. *)
Definition normalizedFromUrl (param : option string) : string :=
  let slug := urlCategorySlug param in
  if String.eqb slug EmptyString then EmptyString
  else match assoc slug CATEGORY_ALIAS_TO_NAME with
       | Some name => name
       | None => EmptyString
       end.

(** [selectedCategory ? NAME_TO_SLUG[selectedCategory] : ''], an unknown
    name gives no slug. *)
Definition nextSlug (selectedCategory : string) : string :=
  if String.eqb selectedCategory EmptyString then EmptyString
  else match assoc selectedCategory NAME_TO_SLUG with
       | Some slug => slug
       | None => EmptyString
       end.
End Categories.

(* ===================================================================== *)
(** ** server/src/controllers/cartController.ts *)
(* ===================================================================== *)

(** The Cart model is not among the sources: of a cart the lines are
    modelled, each with the product's identifier, a quantity and a price,
    and [cart.save()] stores the document the handler built. Of a product
    the fields the handlers read are kept. The products are listed in
    creation order. The handlers that do not check the user run behind
    the authentication middleware and receive the user's identifier. *)

Module Cart.

(** The fields of a product the cart handlers read. *)
Record CatalogProduct := mkCatalogProduct {
  cp_isActive : bool;
  cp_inStock : bool;
  cp_stockQuantity : option Q;
  cp_price : Q
}.

(** A line of a cart. *)
Record CartItem := mkItem {
  ci_productId : ObjectId;
  ci_quantity : Q;
  ci_price : Q
}.

(** A line after [populate("items.productId")]: with the product's
    document, when there is one. *)
Definition Populated : Type := list (CartItem * option CatalogProduct).

(** The collections and the module's [cartCache]. *)
Record Store := mkStore {
  products : list (ObjectId * CatalogProduct);
  carts : gmap string (list CartItem);
  cartCache : gmap string (Populated * Z)
}.

Definition set_carts (c : gmap string (list CartItem)) (st : Store) : Store :=
  mkStore (products st) c (cartCache st).

Definition set_cache (c : gmap string (Populated * Z)) (st : Store) : Store :=
  mkStore (products st) (carts st) c.

(** What a handler sends: the status, the message when there is one, the
    cart when there is one, and the [cached] flag of [getCart]; the
    figures an error body adds to its message are left out. Where a
    [catch] block answers with the message of the exception, the model
    answers with the handler's fallback message. *)
Record Answer := mkAnswer {
  a_status : nat;
  a_message : option string;
  a_cart : option Populated;
  a_cached : option bool
}.

Definition message (code : nat) (m : string) : Answer :=
  mkAnswer code (Some m) None None.

(** [Math.max] and [Math.min] *)
Definition Math_max (a b : Q) : Q := if Qle_bool a b then b else a.
Definition Math_min (a b : Q) : Q := if Qle_bool a b then a else b.

(** [Math.max(1, Number(quantity) || 1)]; a missing quantity, 0 and what
    is no number give 1. *)
Definition wanted (quantity : option Q) : Q :=
  Math_max 1 (match quantity with
              | Some q => if num_truthy q then q else 1
              | None => 1
              end).

(** [Math.max(0, Number(product.stockQuantity ?? 0))] *)
Definition stock_of (p : CatalogProduct) : Q :=
  Math_max 0 (match cp_stockQuantity p with
              | Some q => q
              | None => 0
              end).

(** The key of a user's cart in the cache. *)
Definition cart_key (userId : string) : string := "cart:" +:+ userId.

(** [cartCache]: [stdTTL: 10] seconds. *)
Definition cartTTL : Z := 10.

Definition cache_get (key : string) (now : Z) (c : gmap string (Populated * Z))
  : option Populated * gmap string (Populated * Z) :=
  match c !! key with
  | Some e =>
      if negb (e.2 =? 0)%Z && (e.2 <? now)%Z then (None, delete key c)
      else (Some e.1, c)
  | None => (None, c)
  end.

Definition cache_set (key : string) (v : Populated) (now : Z)
    (c : gmap string (Populated * Z)) : gmap string (Populated * Z) :=
  <[key := (v, (now + cartTTL * 1000)%Z)]> c.

(** [Product.findById(id)] on the list of products. *)
Definition find_product (pid : ObjectId) (ps : list (ObjectId * CatalogProduct))
  : option CatalogProduct :=
  snd <$> head (filter (fun e => e.1 = pid) ps).

(** [cart.populate("items.productId")] *)
Definition populate (ps : list (ObjectId * CatalogProduct))
    (items : list CartItem) : Populated :=
  (fun i => (i, find_product (ci_productId i) ps)) <$> items.

(** [cart.items.findIndex((item) => item.productId.toString() === id)] *)
Fixpoint findIndex (id : string) (items : list CartItem) : option nat :=
  match items with
  | [] => None
  | i :: rest =>
      if String.eqb (hex (ci_productId i)) id then Some 0
      else S <$> findIndex id rest
  end.

(** [cart.items[k].quantity = q; cart.items[k].price = p] *)
Definition set_line (k : nat) (q p : Q) (items : list CartItem)
  : list CartItem :=
  alter (fun i => mkItem (ci_productId i) q p) k items.

(** The functions of mongoose and of the language the handlers call
    besides those of [Library]. *)
Class CartLibrary := {
  ObjectId_isValid : string -> bool;   (* [mongoose.Types.ObjectId.isValid] *)
  parseInt10 : string -> option Z      (* [parseInt(s, 10)], [None] for NaN *)
}.

Section handlers.
Context `{Library} `{CartLibrary}.

(** The computations of this module: a result or an exception, over the
    store. *)
Definition C (A : Type) : Type := Store -> outcome A * Store.

(** [Product.findById(productId)] with a string: the cast throws when the
    constructor does. *)
Definition Product_findById_str (productId : string)
  : C (option (ObjectId * CatalogProduct)) :=
  fun st =>
    match ObjectId_new productId with
    | None => (Throw, st)
    | Some pid =>
        (Ret ((fun p => (pid, p)) <$> find_product pid (products st)), st)
    end.

(** The product [addToCart] works on: by identifier, or else by its
    1-based position among the active products. *)
Definition lookup_product (productId : string)
  : C (option (ObjectId * CatalogProduct)) :=
  if ObjectId_isValid productId then Product_findById_str productId
  else fun st =>
    let allProducts := filter (fun e => cp_isActive e.2 = true) (products st) in
    (Ret (match parseInt10 productId with
          | Some n =>
              let productIndex := (n - 1)%Z in
              if (0 <=? productIndex)%Z
                 && (productIndex <? Z.of_nat (length allProducts))%Z
              then allProducts !! Z.to_nat productIndex
              else None
          | None => None
          end), st).

(** [try { ... } catch { res.status(500)... }] *)
Definition guarded (m : C Answer) (on_error : Answer) : Store -> Answer * Store :=
  fun st => match m st with
            | (Ret a, st') => (a, st')
            | (Throw, st') => (on_error, st')
            end.

(** [getCart] at time [now]. *)
Definition getCart (user : option string) (now : Z) : Store -> Answer * Store :=
  guarded (fun st =>
    match user with
    | None => (Ret (message 401 "Unauthorized: No user id"), st)
    | Some userId =>
        if String.eqb userId EmptyString
        then (Ret (message 401 "Unauthorized: No user id"), st)
        else
          let '(cached, c) := cache_get (cart_key userId) now (cartCache st) in
          match cached with
          | Some v => (Ret (mkAnswer 200 None (Some v) (Some true)), set_cache c st)
          | None =>
              let cartData :=
                match carts st !! userId with
                | Some items => populate (products st) items
                | None => []
                end in
              (Ret (mkAnswer 200 None (Some cartData) (Some false)),
               set_cache (cache_set (cart_key userId) cartData now c) st)
          end
    end) (message 500 "Server error").

(** The new lines of the cart in [addToCart], or the answer that ends the
    request. *)
Definition added (cart : option (list CartItem)) (pid : ObjectId)
    (p : CatalogProduct) (quantity : option Q) : Answer + list CartItem :=
  let stock := stock_of p in
  match cart with
  | None =>
      let desired := wanted quantity in
      let allowed := Math_min desired stock in
      if negb (Qle_bool 1 allowed) then inl (message 400 "Insufficient stock")
      else inr [mkItem pid allowed (cp_price p)]
  | Some items =>
      match findIndex (hex pid) items with
      | Some k =>
          let currentQty :=
            match items !! k with
            | Some i => ci_quantity i
            | None => 0%Q
            end in
          let desired := (currentQty + wanted quantity)%Q in
          let allowed := Math_min desired stock in
          if Qeq_bool allowed currentQty
          then inl (message 400 "Cannot add more items - insufficient stock")
          else inr (set_line k allowed (cp_price p) items)
      | None =>
          let desired := wanted quantity in
          let allowed := Math_min desired stock in
          if negb (Qle_bool 1 allowed) then inl (message 400 "Insufficient stock")
          else inr (items ++ [mkItem pid allowed (cp_price p)])
      end
  end.

(** [addToCart]; [productId] and [quantity] come from the request body. *)
Definition addToCart (user : option string) (productId : option string)
    (quantity : option Q) : Store -> Answer * Store :=
  guarded (fun st =>
    let userId := str_or_empty user in
    let productId := str_or_empty productId in
    if String.eqb productId EmptyString || String.eqb userId EmptyString
    then (Ret (message 400 "Product ID and user authentication required"), st)
    else
      match lookup_product productId st with
      | (Throw, st') => (Throw, st')
      | (Ret product, st') =>
          match product with
          | None => (Ret (message 404 "Product not found or unavailable"), st')
          | Some (pid, p) =>
              if negb (cp_isActive p) || negb (cp_inStock p)
              then (Ret (message 404 "Product not found or unavailable"), st')
              else if negb (Qle_bool 1 (stock_of p))
              then (Ret (message 400 "Insufficient stock"), st')
              else
                match added (carts st' !! userId) pid p quantity with
                | inl a => (Ret a, st')
                | inr items =>
                    (Ret (mkAnswer 200 (Some "Item added to cart successfully")
                            (Some (populate (products st') items)) None),
                     set_cache (delete (cart_key userId) (cartCache st'))
                       (set_carts (<[userId := items]> (carts st')) st'))
                end
          end
      end) (message 500 "Internal server error").

(** [updateCartItem] *)
Definition updateCartItem (userId : string) (productId : string)
    (quantity : option Q) : Store -> Answer * Store :=
  guarded (fun st =>
    let desired := wanted quantity in
    match carts st !! userId with
    | None => (Ret (message 404 "Cart not found"), st)
    | Some items =>
        match findIndex productId items with
        | None => (Ret (message 404 "Item not found in cart"), st)
        | Some itemIndex =>
            match Product_findById_str productId st with
            | (Throw, st') => (Throw, st')
            | (Ret product, st') =>
                match product with
                | None =>
                    (Ret (message 404 "Product not found or unavailable"), st')
                | Some (_, p) =>
                    if negb (cp_isActive p) || negb (cp_inStock p)
                    then (Ret (message 404 "Product not found or unavailable"),
                          st')
                    else if negb (Qle_bool 1 (stock_of p))
                    then (Ret (message 400 "Insufficient stock"), st')
                    else
                      let allowed := Math_min desired (stock_of p) in
                      let items' := set_line itemIndex allowed (cp_price p) items in
                      (Ret (mkAnswer 200 (Some "Cart updated")
                              (Some (populate (products st') items')) None),
                       set_cache (delete (cart_key userId) (cartCache st'))
                         (set_carts (<[userId := items']> (carts st')) st'))
                end
            end
        end
    end) (message 500 "Server error").

(** [removeFromCart] *)
Definition removeFromCart (userId : string) (productId : string)
  : Store -> Answer * Store :=
  guarded (fun st =>
    match carts st !! userId with
    | None => (Ret (message 404 "Cart not found"), st)
    | Some items =>
        let items' :=
          filter (fun i => hex (ci_productId i) <> productId) items in
        (Ret (mkAnswer 200 (Some "Item removed from cart")
                (Some (populate (products st) items')) None),
         set_cache (delete (cart_key userId) (cartCache st))
           (set_carts (<[userId := items']> (carts st)) st))
    end) (message 500 "Server error").

(** [clearCart] *)
Definition clearCart (userId : string) : Store -> Answer * Store :=
  guarded (fun st =>
    (Ret (message 200 "Cart cleared"),
     set_cache (delete (cart_key userId) (cartCache st))
       (set_carts (delete userId (carts st)) st)))
    (message 500 "Server error").

(** One request to the cart handlers, or any change of the products. *)
Inductive step (st : Store) : Store -> Prop :=
  | step_products ps : step st (mkStore ps (carts st) (cartCache st))
  | step_getCart user now : step st (snd (getCart user now st))
  | step_addToCart user productId quantity :
      step st (snd (addToCart user productId quantity st))
  | step_updateCartItem userId productId quantity :
      step st (snd (updateCartItem userId productId quantity st))
  | step_removeFromCart userId productId :
      step st (snd (removeFromCart userId productId st))
  | step_clearCart userId : step st (snd (clearCart userId st)).

(** The states the handlers reach from a catalogue with no carts and an
    empty cache. *)
Inductive reachable : Store -> Prop :=
  | reachable_start ps : reachable (mkStore ps ∅ ∅)
  | reachable_step st st' : reachable st -> step st st' -> reachable st'.
End handlers.

(** The quantities of a cart are at least 1 and no product has two
    lines. *)
Definition cart_ok (items : list CartItem) : Prop :=
  NoDup (ci_productId <$> items)
  /\ Forall (fun i => (1 <= ci_quantity i)%Q) items.

(** The lines of a user's cart as they are stored. *)
Definition stored_lines (userId : string) (st : Store) : list CartItem :=
  match carts st !! userId with
  | Some items => items
  | None => []
  end.

(** Every entry of the cache has the lines of the user's cart as they are
    stored. *)
Definition cache_coherent (st : Store) : Prop :=
  forall userId e,
    cartCache st !! cart_key userId = Some e ->
    e.1.*1 = stored_lines userId st.

(** What every state the handlers reach satisfies. *)
Definition store_ok (st : Store) : Prop :=
  (forall userId items, carts st !! userId = Some items -> cart_ok items)
  /\ cache_coherent st.

(** A library instance for concrete runs: identifiers of 24 hexadecimal
    digits, and [parseInt(s, 10)], which skips leading white space, reads
    a sign and then the longest run of decimal digits, whatever follows
    it; without a digit there the result is NaN. (The value is exact for
    runs of up to 15 digits.) *)
Definition is_digit (a : ascii) : bool :=
  let n := nat_of_ascii a in (48 <=? n) && (n <=? 57).

Fixpoint digits_value (acc : Z) (s : string) : Z :=
  match s with
  | EmptyString => acc
  | String a s' =>
      if is_digit a
      then digits_value (10 * acc + Z.of_nat (nat_of_ascii a - 48))%Z s'
      else acc
  end.

Definition leading_digits (s : string) : option Z :=
  match s with
  | String a _ => if is_digit a then Some (digits_value 0 s) else None
  | EmptyString => None
  end.

Definition parseInt_decimal (s : string) : option Z :=
  match trim_start s with
  | String a t =>
      if Ascii.eqb a "-" then Z.opp <$> leading_digits t
      else if Ascii.eqb a "+" then leading_digits t
      else leading_digits (String a t)
  | EmptyString => None
  end.

Definition plain_library : CartLibrary :=
  {| ObjectId_isValid := is_hex24;
     parseInt10 := parseInt_decimal |}.

(** Two products: three cables in stock at 100, chargers sold out. *)
Definition sample_products : list (ObjectId * CatalogProduct) :=
  [(mkOid "aaaaaaaaaaaaaaaaaaaaaaaa",
    mkCatalogProduct true true (Some 3%Q) 100);
   (mkOid "bbbbbbbbbbbbbbbbbbbbbbbb",
    mkCatalogProduct true false (Some 0%Q) 250)].

Definition sample_store : Store := mkStore sample_products ∅ ∅.

(** The store after the user [u1] asked for two cables. *)
Definition sample_store_2 : Store :=
  snd (addToCart (H := hex_library) (H0 := plain_library)
         (Some "u1") (Some "aaaaaaaaaaaaaaaaaaaaaaaa") (Some 2%Q) sample_store).
End Cart.

(* ===================================================================== *)
(** ** src/hooks/useProductReviews.ts *)
(* ===================================================================== *)

(** The state of the hook and the effect of one [fetchPage] on it, the
    request being answered by the router's listing and not aborted. An
    answer that never comes ends in the timeout of the axios instance. *)

Module Hook.

(** [type SortKey] *)
Inductive SortKey := recent | helpful | rating_desc | rating_asc.

Definition sort_param (k : SortKey) : string :=
  match k with
  | recent => "recent"
  | helpful => "helpful"
  | rating_desc => "rating_desc"
  | rating_asc => "rating_asc"
  end.

Inductive Mode := replace | append.

(** The [useState] cells. *)
Record State := mkState {
  reviews : list json;
  page : Z;
  total : option Q;
  loading : bool;
  refreshing : bool;
  error : option string
}.

(** [total == null ? false : reviews.length < total] *)
Definition hasMore (st : State) : bool :=
  match total st with
  | None => false
  | Some t => negb (Qle_bool t (of_count (length (reviews st))))
  end.

(** [data.items ?? data.data ?? []]; the server sends arrays. *)
Definition list_of (data : json) : list json :=
  match Client.coalesce (jget "items" data) (jget "data" data) with
  | Some (JArr l) => l
  | _ => []
  end.

(** [finally]: the flag of the mode is lowered, the other one is left. *)
Definition loading_after (mode : Mode) (st : State) : bool :=
  match mode with
  | replace => loading st
  | append => false
  end.

Definition refreshing_after (mode : Mode) (st : State) : bool :=
  match mode with
  | replace => false
  | append => refreshing st
  end.

(** The state after an answer with a 2xx status. *)
Definition received (data : json) (pageToGet : Z) (mode : Mode) (st : State)
  : State :=
  let list := list_of data in
  let next := match mode with
              | replace => list
              | append => reviews st ++ list
              end in
  mkState next pageToGet
          (match jget "total" data with
           | Some (JNum t) => Some t
           | _ => total st
           end)
          (loading_after mode st) (refreshing_after mode st) None.

(** The state after a request that failed with message [m]. *)
Definition failed (m : string) (mode : Mode) (st : State) : State :=
  mkState (reviews st) (page st) (total st)
          (loading_after mode st) (refreshing_after mode st) (Some m).

(** The message of an axios error for a status outside 2xx. *)
Definition status_error (code : nat) : string :=
  "Request failed with status code " +:+ pretty code.

(** The message of an axios error for a request that timed out. *)
Definition timeout_error : string := "timeout of 20000ms exceeded".

Section hook.
Context `{Library}.

(** [fetchPage(pageToGet, mode)] of a hook for [productId], with
    [pageSize] and [sort] from its options. *)
Definition fetchPage (productId : option string) (pageSize : Z)
    (sort : SortKey) (pageToGet : Z) (mode : Mode) (st : State) (srv : Server)
  : State * Server :=
  match productId with
  | None => (st, srv)
  | Some productId =>
      if String.eqb productId EmptyString then (st, srv)
      else
        let query := Listing.mkListQuery (Some pageToGet) (Some pageSize)
                       (Some (sort_param sort)) in
        match Listing.list_reviews productId query srv with
        | (None, srv') => (failed timeout_error mode st, srv')
        | (Some res, srv') =>
            if (200 <=? status res) && (status res <? 300)
            then (received (body res) pageToGet mode st, srv')
            else (failed (Service.message_or (body res)
                            (status_error (status res))) mode st, srv')
        end
  end.

(** [loadMore()] *)
Definition loadMore (productId : option string) (pageSize : Z)
    (sort : SortKey) (st : State) (srv : Server) : State * Server :=
  if negb (loading st) && hasMore st
  then fetchPage productId pageSize sort (page st + 1) append st srv
  else (st, srv).
End hook.
End Hook.

(* ===================================================================== *)
(** * Properties *)
(* ===================================================================== *)

(** ** Rounding and grouping *)

Lemma round1_falsy x : num_truthy x = false -> round1 x = 0%Q.
Proof.
  unfold num_truthy. intros Hx. apply negb_false_iff, Qeq_bool_iff in Hx.
  unfold round1, Math_round.
  assert (Hf : Qfloor (x * 10 + (1 # 2)) = 0%Z).
  { rewrite (Qfloor_comp _ (1 # 2)); [reflexivity|]. rewrite Hx. reflexivity. }
  rewrite Hf. reflexivity.
Qed.

Lemma round1_nearest x : nearest_tenth x (round1 x).
Proof.
  unfold nearest_tenth, round1, Math_round.
  set (m := Qfloor (x * 10 + (1 # 2))).
  pose proof (Qfloor_le (x * 10 + (1 # 2))) as Hle.
  pose proof (Qlt_floor (x * 10 + (1 # 2))) as Hlt.
  fold m in Hle, Hlt.
  rewrite inject_Z_plus in Hlt. change (inject_Z 1) with 1%Q in Hlt.
  split; [exists m; apply Qred_correct|].
  rewrite Qred_correct.
  revert Hle Hlt. generalize (inject_Z m). intros q Hle Hlt.
  split.
  - apply Qlt_shift_div_l; [reflexivity|]. lra.
  - apply Qle_shift_div_r; [reflexivity|]. lra.
Qed.

Lemma remove_dups_const {A} `{EqDecision A} (x : A) (l : list A) :
  Forall (fun y => y = x) l -> l <> [] -> remove_dups l = [x].
Proof.
  induction 1 as [|y l -> Hl IH]; [done|]. intros _. simpl.
  destruct (decide_rel elem_of x l) as [Hin|Hnin].
  - apply IH. intros ->. by apply not_elem_of_nil in Hin.
  - destruct l as [|z l]; [done|].
    apply Forall_cons_1 in Hl as [-> _]. exfalso. apply Hnin. left.
Qed.

Lemma filter_all {A} (P : A -> Prop) `{!forall x, Decision (P x)} (l : list A) :
  Forall P l -> filter P l = l.
Proof.
  induction 1 as [|x l Hx Hl IH]; [done|].
  rewrite filter_cons_True by done. by rewrite IH.
Qed.

Lemma group_by_product_single pid rs :
  Forall (fun r => rv_productId r = pid) rs ->
  group_by_product rs =
    match rs with
    | [] => []
    | _ :: _ => [mkGroup pid (length rs) (average (rv_rating <$> rs))]
    end.
Proof.
  intros Hall. unfold group_by_product.
  destruct rs as [|r rs]; [done|].
  rewrite (remove_dups_const pid).
  - simpl map at 1. rewrite (filter_all _ _ Hall). done.
  - apply Forall_fmap. eapply Forall_impl; [exact Hall|]. done.
  - done.
Qed.


Lemma aggregate_head pid rs :
  head (group_by_product (filter (approved_of pid) rs)) =
    match filter (approved_of pid) rs with
    | [] => None
    | _ :: _ =>
        Some (mkGroup pid (length (approved_ratings pid rs))
                      (average (approved_ratings pid rs)))
    end.
Proof.
  rewrite (group_by_product_single pid).
  - unfold approved_ratings. destruct (filter _ rs); [done|].
    simpl. by rewrite length_fmap.
  - apply Forall_forall. intros r Hr.
    apply list_elem_of_filter in Hr as [[Hp _] _]. exact Hp.
Qed.

Lemma avg_of_head pid rs :
  Routes.avg_of (head (group_by_product (filter (approved_of pid) rs)))
  = round1 (mean (approved_ratings pid rs)).
Proof.
  rewrite aggregate_head. unfold approved_ratings.
  destruct (filter (approved_of pid) rs) as [|r l]; [reflexivity|].
  simpl. destruct (num_truthy _) eqn:Ht; [reflexivity|].
  symmetry. by apply round1_falsy.
Qed.

Lemma total_of_head pid rs :
  Routes.total_of (head (group_by_product (filter (approved_of pid) rs)))
  = of_count (length (approved_ratings pid rs)).
Proof.
  rewrite aggregate_head. unfold approved_ratings.
  destruct (filter (approved_of pid) rs); reflexivity.
Qed.

Lemma ctrl_avg_head pid rs :
  round1 (match head (group_by_product (filter (approved_of pid) rs)) with
          | Some g => g_avg g
          | None => 0%Q
          end)
  = round1 (mean (approved_ratings pid rs)).
Proof.
  rewrite aggregate_head. unfold approved_ratings.
  destruct (filter (approved_of pid) rs); reflexivity.
Qed.

Lemma ctrl_count_head pid rs :
  match head (group_by_product (filter (approved_of pid) rs)) with
  | Some g => of_count (g_count g)
  | None => 0%Q
  end = of_count (length (approved_ratings pid rs)).
Proof.
  rewrite aggregate_head. unfold approved_ratings.
  destruct (filter (approved_of pid) rs); reflexivity.
Qed.

(** ** The two aggregators, run *)

Section aggregator.
Context `{Library}.

Lemma recomputeProductStats_run productId pid s :
  ObjectId_new productId = Some pid ->
  Routes.recomputeProductStats productId s
  = (Ret undefined, after_recompute productId pid s).
Proof.
  intros Hid. unfold Routes.recomputeProductStats, Routes.toObjectId.
  rewrite Hid. unfold after_recompute, aggregate.
  cbn [bind ret gets modify Review_aggregate Product_findByIdAndUpdate
       Routes.cache_del].
  rewrite avg_of_head, total_of_head. reflexivity.
Qed.


Lemma recalcProductRating_run pid s :
  Controller.recalcProductRating (Controller.IdOid pid) s
  = (Ret undefined, after_recalc pid s).
Proof.
  unfold Controller.recalcProductRating, after_recalc, aggregate.
  cbn [bind ret gets modify Review_aggregate Product_findByIdAndUpdate
       Controller.cache_del Controller.toObjectId].
  rewrite ctrl_avg_head, ctrl_count_head. reflexivity.
Qed.

Lemma recalcProductRating_run_str productId pid s :
  ObjectId_new productId = Some pid ->
  Controller.recalcProductRating (Controller.IdStr productId) s
  = (Ret undefined, after_recalc pid s).
Proof.
  intros Hid. rewrite <- recalcProductRating_run.
  unfold Controller.recalcProductRating, Controller.toObjectId.
  rewrite Hid. reflexivity.
Qed.
End aggregator.

(** ** C1, C2: what the aggregators write *)


Lemma stats_update_product m c p :
  apply_set (Routes.stats_update m c) p = mkProduct (name p) m (reviews p) m c.
Proof. destruct p. reflexivity. Qed.

Lemma recalc_update_product m c p :
  apply_set [("rating", m); ("reviewsCount", c)] p
  = mkProduct (name p) m (reviews p) (averageRating p) (ratingsCount p).
Proof. destruct p. reflexivity. Qed.

(** Neither aggregator ever writes the [reviews] field of a product. *)
Lemma aggregators_keep_reviews productId pid s p :
  db_products s !! pid = Some p ->
  (exists p', db_products (after_recompute productId pid s) !! pid = Some p'
              /\ reviews p' = reviews p)
  /\ (exists p', db_products (after_recalc pid s) !! pid = Some p'
                 /\ reviews p' = reviews p).
Proof.
  intros Hp. unfold after_recompute, after_recalc, aggregate.
  cbn [db_products]. split.
  - eexists. rewrite lookup_alter_eq, Hp. split; [reflexivity|].
    by rewrite stats_update_product.
  - eexists. rewrite lookup_alter_eq, Hp. split; [reflexivity|].
    by rewrite recalc_update_product.
Qed.

Section aggregate_written.
Context `{Library}.

(** C1 (amended). For a well-formed identifier of an existing product and
    any review collection, both aggregators write on the product's
    [rating] the arithmetic mean of the ratings of its approved reviews
    rounded to one decimal (0 when there are none); the router's also
    writes that mean on [averageRating] and the count of those reviews on
    [ratingsCount]. Neither returns a value: both resolve to undefined. *)
Theorem recompute_writes_rounded_mean productId pid p s :
  ObjectId_new productId = Some pid ->
  db_products s !! pid = Some p ->
  let R := approved_ratings pid (db_reviews s) in
  let m := round1 (mean R) in
  let c := of_count (length R) in
  nearest_tenth (mean R) m
  /\ (R = [] -> m = 0%Q /\ c = 0%Q)
  /\ (exists s' p',
        Routes.recomputeProductStats productId s = (Ret undefined, s')
        /\ db_reviews s' = db_reviews s
        /\ db_products s' !! pid = Some p'
        /\ rating p' = m /\ averageRating p' = m /\ ratingsCount p' = c)
  /\ (exists s' p',
        Controller.recalcProductRating (Controller.IdStr productId) s
        = (Ret undefined, s')
        /\ db_reviews s' = db_reviews s
        /\ db_products s' !! pid = Some p'
        /\ rating p' = m).
Proof.
  intros Hid Hp R m c. split; [apply round1_nearest|].
  split; [intros HR; subst m c; rewrite HR; split; reflexivity|].
  split.
  - exists (after_recompute productId pid s), (mkProduct (name p) m (reviews p) m c).
    split; [by apply recomputeProductStats_run|].
    unfold after_recompute, aggregate. cbn [db_products db_reviews].
    rewrite lookup_alter_eq, Hp. cbn [fmap option_fmap option_map].
    rewrite stats_update_product. repeat split; reflexivity.
  - exists (after_recalc pid s),
      (mkProduct (name p) m (reviews p) (averageRating p) (ratingsCount p)).
    split; [by apply recalcProductRating_run_str|].
    unfold after_recalc, aggregate. cbn [db_products db_reviews].
    rewrite lookup_alter_eq, Hp. cbn [fmap option_fmap option_map].
    rewrite recalc_update_product. repeat split; reflexivity.
Qed.
End aggregate_written.

(** The theorem at the sample shop: product A, approved ratings 4, 5, 3. *)
Lemma recompute_writes_rounded_mean_witness :
  exists s' p',
    Routes.recomputeProductStats (H := hex_library) Sample.idA Sample.shop
    = (Ret undefined, s')
    /\ db_reviews s' = db_reviews Sample.shop
    /\ db_products s' !! Sample.A = Some p'
    /\ rating p' = 4%Q /\ averageRating p' = 4%Q /\ ratingsCount p' = 3%Q.
Proof.
  refine (proj1 (proj2 (proj2
    (recompute_writes_rounded_mean (H := hex_library) Sample.idA Sample.A
       (new_product "Cable") Sample.shop _ _)))).
  - reflexivity.
  - vm_compute. reflexivity.
Defined.

(** C1 as stated fails: with approved ratings 4, 5, 3 the aggregate is
    (4, 3), and neither aggregator returns it; both return undefined. *)
Lemma recompute_returns_nothing :
  aggregate Sample.A (db_reviews Sample.shop) = (4%Q, 3%Q)
  /\ fst (Routes.recomputeProductStats (H := hex_library) Sample.idA Sample.shop)
     = Ret None
  /\ fst (Controller.recalcProductRating (H := hex_library)
            (Controller.IdStr Sample.idA) Sample.shop)
     = Ret None
  /\ Ret None <> Ret (Some (4%Q, 3%Q)).
Proof. repeat split; try (vm_compute; reflexivity). discriminate. Qed.

(** C2 at a failing input. One review of 4 stars is auto-published on a
    new product. The router's handler leaves [reviews] at 0 while
    [ratingsCount] is 1; the controller's handler leaves [averageRating]
    and [ratingsCount] at 0 while [rating] is 4. *)
Theorem legacy_pairs_diverge :
  let body := Sample.request Sample.idA 4 "great product" in
  let router :=
    Routes.create_review (H := hex_library) Sample.auto Sample.r1 None
      Sample.idA body Sample.empty_shop in
  let controller :=
    Controller.createReview (H := hex_library) Sample.auto Sample.r1 None
      body Sample.empty_shop in
  status (fst router) = 201
  /\ db_products (snd router) !! Sample.A
     = Some {| name := "Cable"; rating := 4; reviews := 0;
               averageRating := 4; ratingsCount := 1 |}
  /\ status (fst controller) = 201
  /\ db_products (snd controller) !! Sample.A
     = Some {| name := "Cable"; rating := 4; reviews := 0;
               averageRating := 0; ratingsCount := 0 |}.
Proof. repeat split; vm_compute; reflexivity. Qed.

(** ** C5: expiry of the client cache *)

(** C5 (amended). An entry written at time [T] with time-to-live [ttl] is
    served by every read up to and including [T + ttl]; a read strictly
    after [T + ttl] finds nothing and evicts the entry. *)
Theorem cache_entry_lifetime {V} (map : gmap string (Client.CacheEntry V))
    (key : string) (v : V) (ttl T now : Z) :
  let written := Client.writeCache map key v ttl T in
  Client.readCache written key now
  = if (now <=? T + ttl)%Z then (Some v, written)
    else (None, delete key written).
Proof.
  intros written. unfold Client.readCache, written, Client.writeCache.
  rewrite lookup_insert_eq. cbn [Client.expires Client.value].
  destruct (Z.gtb_spec now (T + ttl)), (Z.leb_spec now (T + ttl));
    first [reflexivity | lia].
Qed.

(** C5 as stated fails at the boundary: an entry written at time 0 with the
    default 30 s is still served at time 30000. *)
Lemma cache_entry_served_at_expiry :
  fst (Client.readCache
         (Client.writeCache ∅ Sample.idA Client.zero Client.DEFAULT_TTL 0)
         Sample.idA (0 + Client.DEFAULT_TTL))
  = Some Client.zero.
Proof. vm_compute. reflexivity. Qed.

(** The server-side caches have the same boundary: an entry set at time
    [T] is found up to and including [T] plus 60 seconds. *)
Lemma node_cache_lifetime c key v T now :
  (0 <= T)%Z ->
  fst (nc_get key now (nc_set key v T c))
  = if (now <=? T + 60000)%Z then Some v else None.
Proof.
  intros HT. unfold nc_get, nc_set, nc_expired, stdTTL.
  rewrite lookup_insert_eq. cbn [fst snd].
  destruct (Z.eqb_spec (T + 60 * 1000) 0) as [|_]; [lia|].
  destruct (Z.ltb_spec (T + 60 * 1000) now), (Z.leb_spec now (T + 60000));
    cbn [negb andb fst]; first [reflexivity | lia].
Qed.

(** ** C10: a helpful vote for a review that does not exist *)

Lemma update_first_None rid f rs :
  review_by_id rid rs = None -> update_first rid f rs = (None, rs).
Proof.
  unfold review_by_id. induction rs as [|r rs IH]; [done|].
  rewrite filter_cons. simpl. destruct (decide (rv_id r = rid)); [done|].
  intros Hrest. by rewrite IH.
Qed.

Lemma set_reviews_same s : set_reviews (db_reviews s) s = s.
Proof. by destruct s. Qed.

Section helpful_vote.
Context `{Library}.

(** C10. A helpful vote for a well-formed identifier that no review
    carries is answered with [{ success: true }] (status 200, not 404),
    and leaves the whole server state, the reviews included, as it
    was. *)
Theorem helpful_unknown_review id rid s :
  isMongoId id = true ->
  ObjectId_new id = Some rid ->
  review_by_id rid (db_reviews s) = None ->
  Routes.helpful id s
  = (mkResponse 200 (JObj [("success", JBool true)]), s).
Proof.
  intros Hid Hrid Hnone. unfold Routes.helpful. rewrite Hid. cbn [negb].
  unfold try_catch, bind, Review_findByIdAndUpdate. rewrite Hrid.
  rewrite (update_first_None _ _ _ Hnone), set_reviews_same. reflexivity.
Qed.
End helpful_vote.

(** The theorem at the sample shop, for an identifier no review has. *)
Lemma helpful_unknown_review_witness :
  Routes.helpful (H := hex_library) Sample.idC Sample.shop
  = (mkResponse 200 (JObj [("success", JBool true)]), Sample.shop).
Proof.
  apply (helpful_unknown_review (H := hex_library) Sample.idC (mkOid Sample.idC));
    vm_compute; reflexivity.
Defined.

(** ** Validation *)



Section validation.
Context `{Library}.


Lemma create_review_invalid env newId user productId b s :
  Routes.create_errors productId b <> [] ->
  Routes.create_review env newId user productId b s
  = (validation_failed (Routes.create_errors productId b), s).
Proof.
  intros Herr. unfold Routes.create_review.
  rewrite bool_decide_eq_false_2 by done. reflexivity.
Qed.

Lemma create_review_valid env newId user productId pid pid' p b s :
  Routes.create_errors productId b = [] ->
  ObjectId_new productId = Some pid ->
  db_products s !! pid = Some p ->
  ObjectId_new (hex pid) = Some pid' ->
  let doc := Routes.review_doc (AUTO_PUBLISH_REVIEWS env) newId user pid p b in
  let s1 := set_reviews (db_reviews s ++ [doc]) s in
  Routes.create_review env newId user productId b s
  = (created [("data", review_json doc)],
     if AUTO_PUBLISH_REVIEWS env then after_recompute (hex pid) pid' s1 else s1).
Proof.
  intros Herr Hid Hp Hcanon doc s1. unfold Routes.create_review.
  rewrite Herr, bool_decide_eq_true_2 by done. cbn [negb].
  unfold try_catch, bind at 1, Routes.toObjectId. rewrite Hid.
  unfold ret at 1, bind at 1, Product_findById, gets. rewrite Hp.
  unfold bind at 1, Review_create. fold doc. fold s1.
  unfold bind at 1.
  destruct (AUTO_PUBLISH_REVIEWS env).
  - rewrite (recomputeProductStats_run _ pid') by done. reflexivity.
  - reflexivity.
Qed.

(** The checks of [createReview], in order. *)
Lemma bad_rating_iff r :
  Controller.bad_rating r = true <-> rating_out_of_range r.
Proof.
  unfold Controller.bad_rating, rating_out_of_range.
  destruct r as [r|]; [|tauto].
  destruct (Z.eqb_spec r 0), (Z.ltb_spec r 1), (Z.ltb_spec 5 r); cbn [orb];
    split; intros ?; first [done | lia].
Qed.

Lemma createReview_invalid env newId user b s :
  Controller.bad_id (b_productId b) = true
  \/ rating_out_of_range (b_rating b)
  \/ comment_length_violation trimmed_length (b_comment b) ->
  exists message,
    Controller.createReview env newId user b s = (failure 400 message, s).
Proof.
  intros Hbad. unfold Controller.createReview, try_catch.
  destruct (Controller.bad_id (b_productId b)); [eexists; reflexivity|].
  destruct (Controller.bad_rating (b_rating b)) eqn:Hr; [eexists; reflexivity|].
  destruct (Nat.ltb_spec (String.length (trim (str_or_empty (b_comment b)))) 5);
    [eexists; reflexivity|].
  destruct (Nat.ltb_spec 4000 (String.length (trim (str_or_empty (b_comment b)))));
    [eexists; reflexivity|].
  exfalso. destruct Hbad as [Hid | [Hrating | Hlen]].
  - discriminate.
  - apply bad_rating_iff in Hrating. congruence.
  - unfold comment_length_violation, trimmed_length in Hlen. lia.
Qed.

Lemma createReview_valid env newId user b productId pid s :
  b_productId b = Some productId ->
  Controller.bad_id (b_productId b) = false ->
  ~ rating_out_of_range (b_rating b) ->
  ~ comment_length_violation trimmed_length (b_comment b) ->
  ObjectId_new productId = Some pid ->
  let st := if AUTO_APPROVE_REVIEWS env then approved else pending in
  let doc := Controller.review_doc st newId user pid
               (slice0 120 (trim (str_or_empty (b_title b))))
               (trim (str_or_empty (b_comment b))) b in
  let s1 := set_reviews (db_reviews s ++ [doc]) s in
  exists res,
    Controller.createReview env newId user b s
    = (res, if AUTO_APPROVE_REVIEWS env then after_recalc pid s1 else s1)
    /\ status res = 201.
Proof.
  intros Hb Hid Hrating Hlen Hnew st doc s1.
  unfold Controller.createReview, try_catch. rewrite Hid.
  destruct (Controller.bad_rating (b_rating b)) eqn:Hr;
    [by apply bad_rating_iff in Hr|].
  unfold comment_length_violation, trimmed_length in Hlen.
  destruct (Nat.ltb_spec (String.length (trim (str_or_empty (b_comment b)))) 5);
    [lia|].
  destruct (Nat.ltb_spec 4000 (String.length (trim (str_or_empty (b_comment b)))));
    [lia|].
  rewrite Hb. cbn [str_or_empty].
  unfold bind at 1, Controller.toObjectId. rewrite Hnew.
  unfold ret at 1, bind at 1, Review_create. fold st. fold doc. fold s1.
  unfold bind at 1. subst st.
  destruct (AUTO_APPROVE_REVIEWS env).
  - rewrite decide_True by done.
    rewrite (recalcProductRating_run_str _ pid) by done.
    eexists. split; reflexivity.
  - rewrite decide_False by done. eexists. split; reflexivity.
Qed.
End validation.



(** ** C7: a request that fails validation changes nothing *)

Section validation_boundary.
Context `{Library}.


End validation_boundary.


(** ** C6: the boundaries of rating and comment length *)

Section boundaries.
Context `{Library}.

End boundaries.



(** ** C3: reads after writes *)

Lemma set_route_cache_same s : set_route_cache (route_cache s) s = s.
Proof. by destruct s. Qed.

Lemma set_ctrl_cache_same s : set_ctrl_cache (ctrl_cache s) s = s.
Proof. by destruct s. Qed.

Lemma nc_get_absent key now c :
  c !! key = None -> nc_get key now c = (None, c).
Proof. intros Hk. unfold nc_get. by rewrite Hk. Qed.

Lemma update_first_Some rid f rs d :
  review_by_id rid rs = Some d ->
  exists rs', update_first rid f rs = (Some (f d), rs').
Proof.
  unfold review_by_id. induction rs as [|r rs IH]; [done|].
  rewrite filter_cons. simpl. destruct (decide (rv_id r = rid)).
  - simpl. intros [= ->]. eauto.
  - intros Hd. destruct (IH Hd) as [rs' ->]. eauto.
Qed.

Section coherence.
Context `{Library}.

Lemma summary_on_miss productId pid s now :
  isMongoId productId = true ->
  ObjectId_new productId = Some pid ->
  route_cache s !! summary_key productId = None ->
  fst (Routes.summary productId now s) = Routes_fresh pid (db_reviews s).
Proof.
  intros Hid Hnew Hmiss. unfold Routes.summary. rewrite Hid. cbn [negb].
  unfold try_catch, bind at 1, Routes.cache_get.
  rewrite (nc_get_absent _ _ _ Hmiss), set_route_cache_same.
  unfold Routes.summary_miss, Routes.toObjectId. rewrite Hnew.
  cbn [bind ret gets modify Review_aggregate Product_findByIdAndUpdate
       Routes.cache_set fst].
  rewrite avg_of_head, total_of_head. reflexivity.
Qed.

Lemma getReviewSummary_on_miss productId pid s now :
  Controller.bad_id (Some productId) = false ->
  ObjectId_new productId = Some pid ->
  ctrl_cache s !! summary_key productId = None ->
  fst (Controller.getReviewSummary (Some productId) now s)
  = Controller_fresh pid (db_reviews s).
Proof.
  intros Hid Hnew Hmiss. unfold Controller.getReviewSummary, try_catch.
  rewrite Hid. cbn [str_or_empty]. unfold bind at 1, Controller.cache_get.
  rewrite (nc_get_absent _ _ _ Hmiss), set_ctrl_cache_same.
  unfold Controller.summary_miss, Controller.toObjectId. rewrite Hnew.
  reflexivity.
Qed.

Lemma create_review_missing_product env newId user productId pid b s :
  Routes.create_errors productId b = [] ->
  ObjectId_new productId = Some pid ->
  db_products s !! pid = None ->
  Routes.create_review env newId user productId b s
  = (failure 404 "Product not found", s).
Proof.
  intros Herr Hid Hp. unfold Routes.create_review.
  rewrite Herr, bool_decide_eq_true_2 by done. cbn [negb].
  unfold try_catch, bind at 1, Routes.toObjectId. rewrite Hid.
  unfold ret at 1, bind at 1, Product_findById, gets. rewrite Hp. reflexivity.
Qed.

Lemma route_write_invalidates pid s s' :
  ObjectId_new (hex pid) = Some pid ->
  route_write pid s s' ->
  exists s1, s' = after_recompute (hex pid) pid s1.
Proof.
  intros Hcanon [env newId user productId b res Hauto Hnew Hrun Hstatus
                | id rid d res Hnew Hd Hpid Hrun Hstatus].
  - destruct (decide (Routes.create_errors productId b = [])) as [Herr|Herr].
    + destruct (db_products s !! pid) as [p|] eqn:Hp.
      * rewrite (create_review_valid env newId user productId pid pid p b s)
          in Hrun by done.
        rewrite Hauto in Hrun. injection Hrun as _ <-. eauto.
      * rewrite (create_review_missing_product env newId user productId pid b s)
          in Hrun by done.
        injection Hrun as <- _. discriminate.
    + rewrite create_review_invalid in Hrun by done.
      injection Hrun as <- _. discriminate.
  - unfold Routes.approve in Hrun.
    destruct (isMongoId id); cbn [negb] in Hrun;
      [|injection Hrun as <- _; discriminate].
    unfold try_catch, bind at 1, Review_findByIdAndUpdate in Hrun.
    rewrite Hnew in Hrun.
    destruct (update_first_Some rid (with_status approved) _ _ Hd) as [rs' Hup].
    rewrite Hup in Hrun. unfold bind at 1 in Hrun.
    change (rv_productId (with_status approved d)) with (rv_productId d) in Hrun.
    rewrite Hpid, (recomputeProductStats_run _ pid) in Hrun by done.
    injection Hrun as _ <-. eauto.
Qed.

Lemma ctrl_write_invalidates pid s s' :
  ctrl_write pid s s' ->
  exists s1, s' = after_recalc pid s1.
Proof.
  intros [env newId user b productId res Hauto Hb Hnew Hrun Hstatus
         | id st rid d res Hnew Hd Hpid Hrun Hstatus].
  - destruct (Controller.bad_id (b_productId b)) eqn:Hid.
    { destruct (createReview_invalid env newId user b s) as [m Hm]; [by left|].
      rewrite Hm in Hrun. injection Hrun as <- _. discriminate. }
    destruct (decide (rating_out_of_range (b_rating b))) as [Hr|Hr].
    { destruct (createReview_invalid env newId user b s) as [m Hm];
        [by right; left|].
      rewrite Hm in Hrun. injection Hrun as <- _. discriminate. }
    destruct (decide (comment_length_violation trimmed_length (b_comment b)))
      as [Hc|Hc].
    { destruct (createReview_invalid env newId user b s) as [m Hm];
        [by right; right|].
      rewrite Hm in Hrun. injection Hrun as <- _. discriminate. }
    destruct (createReview_valid env newId user b productId pid s)
      as (res' & Hrun' & _); [done..|].
    rewrite Hrun', Hauto in Hrun. injection Hrun as _ <-. eauto.
  - unfold Controller.adminSetReviewStatus, try_catch in Hrun.
    destruct (isValidObjectId id); cbn [negb] in Hrun;
      [|injection Hrun as <- _; discriminate].
    unfold bind at 1, Review_findByIdAndUpdate in Hrun.
    rewrite Hnew in Hrun.
    destruct (update_first_Some rid (with_status st) _ _ Hd) as [rs' Hup].
    rewrite Hup in Hrun. unfold bind at 1 in Hrun.
    change (rv_productId (with_status st d)) with (rv_productId d) in Hrun.
    rewrite Hpid, recalcProductRating_run in Hrun.
    injection Hrun as _ <-. eauto.
Qed.
End coherence.

Section cache_coherence.
Context `{Library}.

(** Reads that spell the identifier as the ObjectId renders it. Let [pid]
    be a product whose identifier string [hex pid] names it. After a
    successful write of the router that changes the approved reviews
    of [pid] (a creation under auto-publish, an approval), the router's
    cache has no entry for [pid], and the next summary read of [pid], at
    whatever time, is answered uncached with the aggregate of the reviews as
    the write left them. The same holds in the controller for its writes (a
    creation under auto-approve, a status change) and its summary read. *)
Theorem summary_fresh_after_write pid s s' now :
  ObjectId_new (hex pid) = Some pid ->
  (isMongoId (hex pid) = true ->
   route_write pid s s' ->
   route_cache s' !! summary_key (hex pid) = None
   /\ fst (Routes.summary (hex pid) now s') = Routes_fresh pid (db_reviews s'))
  /\ (Controller.bad_id (Some (hex pid)) = false ->
      ctrl_write pid s s' ->
      ctrl_cache s' !! summary_key (hex pid) = None
      /\ fst (Controller.getReviewSummary (Some (hex pid)) now s')
         = Controller_fresh pid (db_reviews s')).
Proof.
  intros Hcanon. split.
  - intros Hid Hwrite.
    destruct (route_write_invalidates pid s s' Hcanon Hwrite) as [s1 ->].
    assert (Hgone : route_cache (after_recompute (hex pid) pid s1)
                    !! summary_key (hex pid) = None)
      by apply lookup_delete_eq.
    split; [exact Hgone | by apply summary_on_miss].
  - intros Hid Hwrite.
    destruct (ctrl_write_invalidates pid s s' Hwrite) as [s1 ->].
    assert (Hgone : ctrl_cache (after_recalc pid s1)
                    !! summary_key (hex pid) = None)
      by apply lookup_delete_eq.
    split; [exact Hgone | by apply getReviewSummary_on_miss].
Qed.
End cache_coherence.

(** The theorem on the scenario of the example: A has approved ratings 4, 5
    and 3 and its summary is cached; a fourth review of 2 stars is approved;
    the next read is computed from the four reviews. *)
Lemma summary_fresh_after_write_witness :
  fst (Routes.summary (H := hex_library) Sample.idA 2000 Sample.approved_shop)
  = Routes_fresh Sample.A (db_reviews Sample.approved_shop)
  /\ fst (Controller.getReviewSummary (H := hex_library) (Some Sample.idA) 2000
            Sample.ctrl_approved_shop)
     = Controller_fresh Sample.A (db_reviews Sample.ctrl_approved_shop).
Proof.
  split.
  - refine (proj2 (proj1 (summary_fresh_after_write (H := hex_library)
              Sample.A Sample.cached_shop Sample.approved_shop 2000 _) _ _)).
    + reflexivity.
    + reflexivity.
    + apply (rw_approve (H := hex_library) Sample.A _ _ (hex Sample.r4)
               Sample.r4 (Sample.review Sample.r4 Sample.A 2 pending)
               (fst (Routes.approve (H := hex_library) (hex Sample.r4)
                       Sample.cached_shop))).
      * reflexivity.
      * vm_compute. reflexivity.
      * reflexivity.
      * apply surjective_pairing.
      * vm_compute. reflexivity.
  - refine (proj2 (proj2 (summary_fresh_after_write (H := hex_library)
              Sample.A Sample.ctrl_cached_shop Sample.ctrl_approved_shop 2000 _)
              _ _)).
    + reflexivity.
    + reflexivity.
    + apply (cw_status (H := hex_library) Sample.A _ _ (hex Sample.r4) approved
               Sample.r4 (Sample.review Sample.r4 Sample.A 2 pending)
               (fst (Controller.adminSetReviewStatus (H := hex_library)
                       (hex Sample.r4) approved Sample.ctrl_cached_shop))).
      * reflexivity.
      * vm_compute. reflexivity.
      * reflexivity.
      * apply surjective_pairing.
      * vm_compute. reflexivity.
Defined.

(** The scenario in numbers: before the approval the read at time 2000 is a
    cache hit with mean 4 and count 3; after it the read is uncached with
    mean 3.5 and count 4. *)
Example scenario_before_and_after :
  fst (Routes.summary (H := hex_library) Sample.idA 2000 Sample.cached_shop)
  = ok [("cached", JBool true); ("data", Routes.summary_obj 4 3)]
  /\ fst (Routes.summary (H := hex_library) Sample.idA 2000 Sample.approved_shop)
     = ok [("cached", JBool false); ("data", Routes.summary_obj (7 # 2) 4)].
Proof. split; vm_compute; reflexivity. Qed.

(** C3. A write deletes the cache entry under the identifier as the
    ObjectId renders it (24 digits in lower case); a read looks the entry
    up under the identifier as the request spells it, and both
    [isMongoId] and [isValidObjectId] accept upper case. The summary of A
    is read as [AAAAAAAAAAAAAAAAAAAAAAAA] at time 1000 and cached as mean
    4 of 3 reviews; the pending review of 2 stars is approved, so that the
    aggregate is mean 3.5 of 4; the read under the same spelling at time
    2000 is still answered from the cache with mean 4 of 3, a value
    computed before the write, while a read under the lower-case spelling
    is computed anew. The controller does the same with its own cache. *)
Theorem summary_stale_after_write :
  isMongoId (Library := hex_library) Sample.idA_upper = true
  /\ ObjectId_new (Library := hex_library) Sample.idA_upper = Some Sample.A
  /\ fst (Routes.approve (H := hex_library) (hex Sample.r4)
            Sample.upper_cached_shop) = ok []
  /\ aggregate Sample.A (db_reviews Sample.upper_approved_shop) = (7 # 2, 4)%Q
  /\ fst (Routes.summary (H := hex_library) Sample.idA_upper 2000
            Sample.upper_approved_shop)
     = ok [("cached", JBool true); ("data", Routes.summary_obj 4 3)]
  /\ fst (Routes.summary (H := hex_library) Sample.idA 2000
            Sample.upper_approved_shop)
     = ok [("cached", JBool false); ("data", Routes.summary_obj (7 # 2) 4)]
  /\ status (fst (Controller.adminSetReviewStatus (H := hex_library)
                    (hex Sample.r4) approved Sample.ctrl_upper_cached_shop))
     = 200
  /\ (let res := fst (Controller.getReviewSummary (H := hex_library)
                        (Some Sample.idA_upper) 2000
                        Sample.ctrl_upper_approved_shop) in
      jget "cached" (body res) = Some (JBool true)
      /\ jnum "avg" (body res) = Some 4%Q
      /\ jnum "total" (body res) = Some 3%Q)
  /\ (let res := fst (Controller.getReviewSummary (H := hex_library)
                        (Some Sample.idA) 2000
                        Sample.ctrl_upper_approved_shop) in
      jget "cached" (body res) = Some (JBool false)
      /\ jnum "avg" (body res) = Some (7 # 2)%Q
      /\ jnum "total" (body res) = Some 4%Q).
Proof. repeat split; vm_compute; reflexivity. Qed.

(** ** C4, C9: bulk summaries *)

Lemma assoc_obj_set {A} k k' (v : A) data :
  assoc k (obj_set k' v data) = if String.eqb k k' then Some v else assoc k data.
Proof.
  induction data as [|[k0 v0] data IH]; simpl.
  - reflexivity.
  - destruct (String.eqb_spec k' k0) as [->|Hne]; simpl.
    + destruct (String.eqb_spec k k0); reflexivity.
    + rewrite IH. destruct (String.eqb_spec k k0) as [->|]; [|reflexivity].
      destruct (String.eqb_spec k0 k'); [congruence|reflexivity].
Qed.

Lemma group_member a rs :
  a ∈ group_by_product rs -> exists r, r ∈ rs /\ rv_productId r = g_id a.
Proof.
  unfold group_by_product. intros Ha.
  apply list_elem_of_fmap in Ha as (pid & -> & Hpid).
  apply elem_of_remove_dups, list_elem_of_fmap in Hpid as (r & -> & Hr).
  eauto.
Qed.

Lemma bulk_data_keys k aggs :
  is_Some (assoc k (Routes.bulk_data aggs)) ->
  exists a, a ∈ aggs /\ k = hex (g_id a).
Proof.
  unfold Routes.bulk_data.
  assert (Hgen : forall acc,
    is_Some (assoc k (foldl (fun data a =>
       obj_set (hex (g_id a))
         (Routes.summary_obj
            (if num_truthy (g_avg a) then round1 (g_avg a) else 0%Q)
            (of_count (g_count a))) data) acc aggs)) ->
    is_Some (assoc k acc) \/ exists a, a ∈ aggs /\ k = hex (g_id a)).
  { induction aggs as [|a aggs IH]; intros acc Hk; [by left|].
    simpl in Hk. apply IH in Hk as [Hk | (a' & Ha' & ->)].
    - rewrite assoc_obj_set in Hk.
      destruct (String.eqb_spec k (hex (g_id a))) as [->|]; [|by left].
      right. exists a. split; [left | done].
    - right. exists a'. split; [by right | done]. }
  intros Hk. destruct (Hgen [] Hk) as [[v Hv] | Ha]; [discriminate | exact Ha].
Qed.

Section bulk.
Context `{Library}.

Lemma mapM_toObjectId l s :
  mapM Routes.toObjectId l s
  = match parse_all l with
    | Some os => (Ret os, s)
    | None => (Throw, s)
    end.
Proof.
  induction l as [|id l IH]; [reflexivity|].
  cbn [mapM parse_all]. unfold bind at 1. unfold Routes.toObjectId at 1.
  destruct (ObjectId_new id) as [o|]; [|reflexivity].
  unfold ret at 1. unfold bind. rewrite IH.
  destruct (parse_all l); reflexivity.
Qed.

Lemma parse_all_Some l :
  Forall (fun id => is_Some (ObjectId_new id)) l -> is_Some (parse_all l).
Proof.
  induction 1 as [|id l [o Ho] _ [os Hos]]; [by eexists|].
  cbn [parse_all]. rewrite Ho, Hos. by eexists.
Qed.

(** The answer of [POST /reviews/bulk-summary], by cases. *)
Lemma bulk_summary_run ids s :
  Routes.bulk_summary (Some ids) s
  = (match parse_all (filter (fun id => isValidObjectId id) (take 300 ids)) with
     | None => server_error
     | Some oids =>
         if bool_decide (oids = []) then ok [("data", JObj [])]
         else ok [("data",
                   JObj (Routes.bulk_data
                           (group_by_product
                              (filter (approved_in oids) (db_reviews s)))))]
     end, s).
Proof.
  unfold Routes.bulk_summary, try_catch, bind at 1.
  rewrite mapM_toObjectId.
  destruct (parse_all _) as [oids|]; [|reflexivity].
  destruct (bool_decide (oids = [])); reflexivity.
Qed.

End bulk.

(** The three loops of [bulkSummary]. *)



Lemma resolve_spec map ttl t1 l st0 id :
  Client.result (foldl (Client.resolve_step map ttl t1) st0 l) !! id
  = if decide (id ∈ l)
    then Some (Client.summary_of (Client.entry_of id map))
    else Client.result st0 !! id.
Proof.
  revert st0. induction l as [|x l IH]; intros st0; cbn [foldl].
  { rewrite decide_False; [done | apply not_elem_of_nil]. }
  rewrite IH. cbn [Client.resolve_step Client.result].
  destruct (decide (id ∈ l)) as [Hin|Hnin].
  - rewrite decide_True; [done | by right].
  - destruct (decide (id = x)) as [->|Hne].
    + rewrite decide_True by left. by rewrite lookup_insert_eq.
    + rewrite decide_False; [by rewrite lookup_insert_ne|].
      intros Hin. apply elem_of_cons in Hin as [?|?]; done.
Qed.

Lemma fallback_spec ttl t l st0 id :
  Client.result (foldl (Client.fallback_step ttl t) st0 l) !! id
  = match Client.result st0 !! id with
    | Some v => Some v
    | None => if decide (id ∈ l) then Some Client.zero else None
    end.
Proof.
  revert st0. induction l as [|x l IH]; intros st0; cbn [foldl].
  { destruct (Client.result st0 !! id); [done|].
    rewrite decide_False; [done | apply not_elem_of_nil]. }
  rewrite IH. unfold Client.fallback_step.
  destruct (Client.result st0 !! x) eqn:Hx; cbn [Client.result].
  - destruct (Client.result st0 !! id) eqn:Hid; [done|].
    destruct (decide (id ∈ l)) as [Hin|Hnin].
    + rewrite decide_True; [done | by right].
    + rewrite decide_False; [done|].
      intros Hin. apply elem_of_cons in Hin as [->|?]; [congruence | done].
  - destruct (decide (id = x)) as [->|Hne].
    + rewrite lookup_insert_eq, Hx. rewrite decide_True by left. done.
    + rewrite lookup_insert_ne by done.
      destruct (Client.result st0 !! id); [done|].
      destruct (decide (id ∈ l)) as [Hin|Hnin].
      * rewrite decide_True; [done | by right].
      * rewrite decide_False; [done|].
        intros Hin. apply elem_of_cons in Hin as [?|?]; done.
Qed.

Section bulk_totality.
Context `{Library}.

End bulk_totality.


(** In numbers: the server's answer has an entry for A only; the client's
    map has A with (4, 3) and B with zeros. *)
Example bulk_summary_of_the_shop :
  fst (Routes.bulk_summary (H := hex_library)
         (Some [Sample.idA; Sample.idB]) Sample.shop)
  = ok [("data", JObj [(Sample.idA, Routes.summary_obj 4 3)])]
  /\ exists res cache',
       Client.bulkSummary (H := hex_library) [Sample.idA; Sample.idB] None 0 1 ∅
         Sample.shop
       = (Ret res, cache', Sample.shop)
       /\ res !! Sample.idA = Some (Client.mkSummary 4 3)
       /\ res !! Sample.idB = Some Client.zero.
Proof.
  split; [vm_compute; reflexivity|].
  eexists _, _. split; [reflexivity|]. split; vm_compute; reflexivity.
Qed.

Section bulk_cap.
Context `{Library}.

(** The router's endpoint looks at the first 300 identifiers only, and
    answers with status 200 when the constructor accepts those of them that
    pass [isValidObjectId]. *)
Lemma router_bulk_summary_cap ids s :
  Routes.bulk_summary (Some ids) s = Routes.bulk_summary (Some (take 300 ids)) s
  /\ (Forall (fun id => is_Some (ObjectId_new id)) (take 300 ids) ->
      status (fst (Routes.bulk_summary (Some ids) s)) = 200).
Proof.
  split.
  - rewrite !bulk_summary_run, take_take. reflexivity.
  - intros Hwf. rewrite bulk_summary_run. cbn [fst].
    destruct (parse_all_Some
                (filter (fun id => isValidObjectId id) (take 300 ids)))
      as [oids ->].
    { apply Forall_forall. intros id Hid.
      apply list_elem_of_filter in Hid as [_ Hid]. revert id Hid.
      by apply Forall_forall. }
    destruct (bool_decide (oids = [])); reflexivity.
Qed.

(** The router's summary answers with both spellings, whether it computes
    the summary or finds it in a cache that holds summaries, and leaves
    such a cache behind. *)
Lemma router_summary_spellings productId pid now s :
  isMongoId productId = true ->
  ObjectId_new productId = Some pid ->
  route_cache_ok s ->
  exists cached m c s',
    Routes.summary productId now s
    = (ok [("cached", JBool cached); ("data", Routes.summary_obj m c)], s')
    /\ route_cache_ok s'.
Proof.
  intros Hid Hnew Hok. unfold Routes.summary. rewrite Hid. cbn [negb].
  unfold try_catch, bind at 1, Routes.cache_get, nc_get.
  assert (Hmiss : forall s1,
    route_cache_ok s1 ->
    exists cached m c s',
      (let (o, s') := Routes.summary_miss productId now s1 in
       match o with Ret r => (r, s') | Throw => (server_error, s') end)
      = (ok [("cached", JBool cached); ("data", Routes.summary_obj m c)], s')
      /\ route_cache_ok s').
  { intros s1 Hok1. unfold Routes.summary_miss, Routes.toObjectId.
    rewrite Hnew.
    cbn [bind ret gets modify Review_aggregate Product_findByIdAndUpdate
         Routes.cache_set].
    eexists _, _, _, _. split; [reflexivity|].
    intros key e. cbn [route_cache set_route_cache set_products]. unfold nc_set.
    destruct (decide (key = summary_key productId)) as [->|Hne].
    - rewrite lookup_insert_eq. intros [= <-]. by eexists _, _.
    - rewrite lookup_insert_ne by done. apply Hok1. }
  destruct (route_cache s !! summary_key productId) as [e|] eqn:He.
  - destruct (nc_expired now e).
    + apply Hmiss. intros key e'. cbn [route_cache set_route_cache].
      intros He'. apply lookup_delete_Some in He' as [_ He']. by eapply Hok.
    + rewrite set_route_cache_same.
      destruct (Hok _ _ He) as (m & c & ->). cbn [truthy ret].
      by eexists _, _, _, _.
  - rewrite set_route_cache_same. by apply Hmiss.
Qed.
End bulk_cap.

(** C9 at a failing input: 300 times the identifier of B, then that of A,
    whose product has approved ratings 4, 5 and 3. The controller's bulk
    endpoint answers with the summary of A, the 301st identifier; the
    router's endpoint, on the same list, does not. *)
Theorem controller_bulk_has_no_cap :
  length Sample.long_list = 301
  /\ (Sample.long_list !! 300%nat) = Some Sample.idA
  /\ ~ (Sample.idA ∈ take 300 Sample.long_list)
  /\ fst (Controller.getBulkReviewSummaries (H := hex_library)
            (Some Sample.long_list) Sample.shop)
     = ok [("data", JObj [(Sample.idA,
                           JObj [("avg", JNum 4); ("total", JNum 3)])])]
  /\ fst (Routes.bulk_summary (H := hex_library)
            (Some Sample.long_list) Sample.shop)
     = ok [("data", JObj [])].
Proof.
  split; [reflexivity|]. split; [reflexivity|]. split.
  - apply (bool_decide_unpack _). vm_compute. reflexivity.
  - split; vm_compute; reflexivity.
Qed.

(** C8 at a failing input: the summary of A read through the controller has
    the mean under [avg] and the count under [total]; it has no
    [averageRating], no [reviewCount] and no [data]. The router's answer for
    the same product carries both spellings under [data]. *)
Theorem controller_summary_single_spelling :
  let res := fst (Controller.getReviewSummary (H := hex_library)
                    (Some Sample.idA) 1000 Sample.shop) in
  status res = 200
  /\ jnum "avg" (body res) = Some 4%Q
  /\ jnum "total" (body res) = Some 3%Q
  /\ jget "averageRating" (body res) = None
  /\ jget "reviewCount" (body res) = None
  /\ jget "data" (body res) = None
  /\ fst (Routes.summary (H := hex_library) Sample.idA 1000 Sample.shop)
     = ok [("cached", JBool false); ("data", Routes.summary_obj 4 3)].
Proof. repeat split; vm_compute; reflexivity. Qed.

(** ** The router's cache holds summaries only *)

Lemma preserves_ret {A} P (a : A) : preserves P (ret a).
Proof. intros s Hs. exact Hs. Qed.

Lemma preserves_throw {A} P : preserves P (@throw A).
Proof. intros s Hs. exact Hs. Qed.

Lemma preserves_gets {A} P (f : Server -> A) : preserves P (gets f).
Proof. intros s Hs. exact Hs. Qed.

Lemma preserves_answer P r : preserves P (answer r).
Proof. intros s Hs. exact Hs. Qed.

Lemma preserves_modify P f :
  (forall s, P s -> P (f s)) -> preserves P (modify f).
Proof. intros Hf s Hs. by apply Hf. Qed.

Lemma preserves_bind {A B} P (m : M A) (k : A -> M B) :
  preserves P m -> (forall a, preserves P (k a)) -> preserves P (bind m k).
Proof.
  intros Hm Hk s Hs. unfold bind. specialize (Hm s Hs).
  destruct (m s) as [[a|] s1]; cbn [snd] in *; [by apply Hk | done].
Qed.

Lemma preserves_try_catch P m r :
  preserves P m -> preserves P (try_catch m r).
Proof.
  intros Hm s Hs. unfold try_catch. specialize (Hm s Hs).
  by destruct (m s) as [[a|] s1].
Qed.

Lemma preserves_mapM {A B} P (f : A -> M B) l :
  (forall a, preserves P (f a)) -> preserves P (mapM f l).
Proof.
  intros Hf. induction l as [|x l IH]; cbn [mapM]; [apply preserves_ret|].
  apply preserves_bind; [apply Hf | intros y].
  apply preserves_bind; [apply IH | intros ys; apply preserves_ret].
Qed.

Lemma route_cache_ok_delete key s :
  route_cache_ok s ->
  route_cache_ok (set_route_cache (delete key (route_cache s)) s).
Proof.
  intros Hok k e He. cbn [route_cache set_route_cache] in He.
  apply lookup_delete_Some in He as [_ He]. by eapply Hok.
Qed.

Lemma route_cache_ok_insert key m c t s :
  route_cache_ok s ->
  route_cache_ok
    (set_route_cache (<[key := (Routes.summary_obj m c, t)]> (route_cache s)) s).
Proof.
  intros Hok k e. cbn [route_cache set_route_cache].
  destruct (decide (k = key)) as [->|Hne].
  - rewrite lookup_insert_eq. intros [= <-]. by eexists _, _.
  - rewrite lookup_insert_ne by done. apply Hok.
Qed.

Lemma preserves_Review_create doc :
  preserves route_cache_ok (Review_create doc).
Proof. intros s Hs. exact Hs. Qed.

Section invariant.
Context `{Library}.

Lemma preserves_Review_findByIdAndUpdate id f :
  preserves route_cache_ok (Review_findByIdAndUpdate id f).
Proof.
  unfold Review_findByIdAndUpdate.
  destruct (ObjectId_new id); [|apply preserves_throw].
  intros s Hs. by destruct (update_first _ _ _).
Qed.

Lemma preserves_Routes_toObjectId P id : preserves P (Routes.toObjectId id).
Proof.
  unfold Routes.toObjectId.
  destruct (ObjectId_new id); [apply preserves_ret | apply preserves_throw].
Qed.

Lemma preserves_Controller_toObjectId P id :
  preserves P (Controller.toObjectId id).
Proof.
  unfold Controller.toObjectId. destruct id as [p|o]; [|apply preserves_ret].
  destruct (ObjectId_new p); [apply preserves_ret | apply preserves_throw].
Qed.

Lemma preserves_recomputeProductStats productId :
  preserves route_cache_ok (Routes.recomputeProductStats productId).
Proof.
  unfold Routes.recomputeProductStats.
  apply preserves_bind; [apply preserves_Routes_toObjectId|intros pid].
  apply preserves_bind; [apply preserves_gets|intros aggs].
  apply preserves_bind; [by apply preserves_modify|intros _].
  apply preserves_bind; [|intros _; apply preserves_ret].
  apply preserves_modify. intros s. apply route_cache_ok_delete.
Qed.

Lemma preserves_recalcProductRating productId :
  preserves route_cache_ok (Controller.recalcProductRating productId).
Proof.
  unfold Controller.recalcProductRating.
  apply preserves_bind; [apply preserves_Controller_toObjectId|intros pid].
  apply preserves_bind; [apply preserves_gets|intros aggs].
  apply preserves_bind; [by apply preserves_modify|intros _].
  apply preserves_bind; [by apply preserves_modify|intros _; apply preserves_ret].
Qed.

Lemma preserves_route_summary_miss productId now :
  preserves route_cache_ok (Routes.summary_miss productId now).
Proof.
  unfold Routes.summary_miss.
  apply preserves_bind; [apply preserves_Routes_toObjectId|intros pid].
  apply preserves_bind; [apply preserves_gets|intros aggs].
  apply preserves_bind; [by apply preserves_modify|intros _].
  apply preserves_bind; [|intros _; apply preserves_ret].
  apply preserves_modify. intros s. apply route_cache_ok_insert.
Qed.

Lemma preserves_route_cache_get key now :
  preserves route_cache_ok (Routes.cache_get key now).
Proof.
  intros s Hs. unfold Routes.cache_get, nc_get.
  destruct (route_cache s !! key) as [e|]; [|by rewrite set_route_cache_same].
  destruct (nc_expired now e); [|by rewrite set_route_cache_same].
  by apply route_cache_ok_delete.
Qed.

Lemma preserves_ctrl_cache_get key now :
  preserves route_cache_ok (Controller.cache_get key now).
Proof.
  intros s Hs. unfold Controller.cache_get.
  by destruct (nc_get key now (ctrl_cache s)).
Qed.

(** Every request keeps the router's cache a cache of summaries. *)
Lemma server_step_route_cache_ok s s' :
  server_step s s' -> route_cache_ok s -> route_cache_ok s'.
Proof.
  intros Hstep Hok. revert s Hok Hstep.
  assert (Hall : forall (f : Server -> Response * Server) s,
            preserves route_cache_ok f -> route_cache_ok s ->
            route_cache_ok (snd (f s))) by (intros f s Hf; apply Hf).
  intros s Hok [env newId user productId b | id | id | productId now | ids
               | productId now | ids | env newId user b | id st];
    apply Hall; try exact Hok.
  - unfold Routes.create_review.
    destruct (negb _); [apply preserves_answer|]. apply preserves_try_catch.
    apply preserves_bind; [apply preserves_Routes_toObjectId|intros pid].
    apply preserves_bind; [apply preserves_gets|intros [p|]];
      [|apply preserves_ret].
    apply preserves_bind; [apply preserves_Review_create|intros doc].
    apply preserves_bind; [|intros _; apply preserves_ret].
    destruct (AUTO_PUBLISH_REVIEWS env);
      [apply preserves_recomputeProductStats | apply preserves_ret].
  - unfold Routes.approve.
    destruct (negb _); [apply preserves_answer|]. apply preserves_try_catch.
    apply preserves_bind;
      [apply preserves_Review_findByIdAndUpdate|intros [d|]];
      [|apply preserves_ret].
    apply preserves_bind;
      [apply preserves_recomputeProductStats|intros _; apply preserves_ret].
  - unfold Routes.helpful.
    destruct (negb _); [apply preserves_answer|]. apply preserves_try_catch.
    apply preserves_bind;
      [apply preserves_Review_findByIdAndUpdate|intros _; apply preserves_ret].
  - unfold Routes.summary.
    destruct (negb _); [apply preserves_answer|]. apply preserves_try_catch.
    apply preserves_bind; [apply preserves_route_cache_get|intros [v|]];
      [|apply preserves_route_summary_miss].
    destruct (truthy v);
      [apply preserves_ret | apply preserves_route_summary_miss].
  - unfold Routes.bulk_summary. apply preserves_try_catch.
    apply preserves_bind.
    + apply preserves_mapM. intros id. apply preserves_Routes_toObjectId.
    + intros oids. destruct (bool_decide _); [apply preserves_ret|].
      apply preserves_bind; [apply preserves_gets|intros ?; apply preserves_ret].
  - unfold Controller.getReviewSummary. apply preserves_try_catch.
    destruct (Controller.bad_id productId); [apply preserves_ret|].
    assert (Hmiss : forall p,
              preserves route_cache_ok (Controller.summary_miss p now)).
    { intros p. unfold Controller.summary_miss.
      apply preserves_bind; [apply preserves_Controller_toObjectId|intros pid].
      apply preserves_bind; [apply preserves_gets|intros agg].
      apply preserves_bind;
        [by apply preserves_modify|intros _; apply preserves_ret]. }
    apply preserves_bind; [apply preserves_ctrl_cache_get|intros [v|]];
      [|apply Hmiss].
    destruct (truthy v); [apply preserves_ret | apply Hmiss].
  - unfold Controller.getBulkReviewSummaries. apply preserves_try_catch.
    destruct ids as [[|id ids]|]; try apply preserves_ret.
    apply preserves_bind.
    + apply preserves_mapM. intros id'. apply preserves_Controller_toObjectId.
    + intros oids. destruct (bool_decide _); [apply preserves_ret|].
      apply preserves_bind; [apply preserves_gets|intros ?; apply preserves_ret].
  - unfold Controller.createReview. apply preserves_try_catch.
    destruct (Controller.bad_id _); [apply preserves_ret|].
    destruct (Controller.bad_rating _); [apply preserves_ret|].
    destruct (_ <? 5); [apply preserves_ret|].
    destruct (4000 <? _); [apply preserves_ret|].
    apply preserves_bind; [apply preserves_Controller_toObjectId|intros pid].
    apply preserves_bind; [apply preserves_Review_create|intros doc].
    apply preserves_bind; [|intros _; apply preserves_ret].
    destruct (decide _);
      [apply preserves_recalcProductRating | apply preserves_ret].
  - unfold Controller.adminSetReviewStatus. apply preserves_try_catch.
    destruct (negb _); [apply preserves_ret|].
    apply preserves_bind;
      [apply preserves_Review_findByIdAndUpdate|intros [r|]];
      [|apply preserves_ret].
    apply preserves_bind;
      [apply preserves_recalcProductRating|intros _; apply preserves_ret].
Qed.

Lemma reachable_route_cache_ok s : reachable s -> route_cache_ok s.
Proof.
  induction 1 as [rs ps | s s' _ IH Hstep].
  - intros key e He. cbn [route_cache] in He. by rewrite lookup_empty in He.
  - by eapply server_step_route_cache_ok.
Qed.
End invariant.

Section both_spellings.
Context `{Library}.

(** In every state the server reaches, the router's summary of a
    well-formed identifier is answered with status 200 and a [data] object
    that carries the mean under [avg] and [averageRating] and the count
    under [total] and [reviewCount]. *)
Lemma router_summary_both_spellings productId pid now s :
  reachable s ->
  isMongoId productId = true ->
  ObjectId_new productId = Some pid ->
  exists cached m c,
    fst (Routes.summary productId now s)
    = ok [("cached", JBool cached); ("data", Routes.summary_obj m c)].
Proof.
  intros Hreach Hid Hnew.
  destruct (router_summary_spellings productId pid now s Hid Hnew
              (reachable_route_cache_ok s Hreach))
    as (cached & m & c & s' & -> & _).
  by exists cached, m, c.
Qed.
End both_spellings.

(* ===================================================================== *)
(** ** Listings: pages and the rating distribution *)
(* ===================================================================== *)

(** The number of pages announced is the least number of pages of [l]
    items that hold [n] items. *)
Lemma Math_ceil_pages (n : nat) (l : Z) :
  (0 < l)%Z ->
  let pages := Listing.Math_ceil (of_count n / inject_Z l) in
  ((pages - 1) * l < Z.of_nat n <= pages * l)%Z.
Proof.
  intros Hl pages.
  pose proof (Qle_ceiling (of_count n / inject_Z l)) as Hle.
  pose proof (Qceiling_lt (of_count n / inject_Z l)) as Hlt.
  fold (Listing.Math_ceil (of_count n / inject_Z l)) in Hle, Hlt.
  fold pages in Hle, Hlt.
  assert (Hl' : (0 < inject_Z l)%Q).
  { unfold Qlt. cbn. lia. }
  assert (E : (of_count n / inject_Z l * inject_Z l == of_count n)%Q).
  { rewrite Qmult_comm. apply Qmult_div_r. intros E. rewrite E in Hl'.
    by apply Qlt_irrefl in Hl'. }
  pose proof (proj2 (Qmult_lt_r _ _ _ Hl') Hlt) as Hlt'.
  pose proof (proj2 (Qmult_le_r _ _ _ Hl') Hle) as Hle'.
  rewrite E in Hlt', Hle'. unfold of_count in Hlt', Hle'.
  rewrite <- inject_Z_mult in Hlt', Hle'.
  unfold Qlt in Hlt'. unfold Qle in Hle'. cbn in Hlt', Hle'. lia.
Qed.

Lemma Math_ceil_nonneg (n : nat) (l : Z) :
  (0 < l)%Z -> (0 <= Listing.Math_ceil (of_count n / inject_Z l))%Z.
Proof.
  intros Hl. pose proof (Math_ceil_pages n l Hl) as Hp. cbv zeta in Hp. nia.
Qed.

(** The first [k] chunks of [n] items are the first [k * n] items. *)
Lemma chunks_take {A} (xs : list A) (n k : nat) :
  concat ((fun i => take n (drop (i * n) xs)) <$> seq 0 k) = take (k * n) xs.
Proof.
  induction k as [|k IH]; [done|].
  rewrite seq_S, fmap_app, concat_app, IH. cbn [fmap list_fmap concat].
  rewrite app_nil_r, take_take_drop. f_equal. lia.
Qed.

Lemma insert_by_rating_Permutation r l :
  Listing.insert_by_rating r l ≡ₚ r :: l.
Proof.
  induction l as [|x l IH]; [done|]. cbn.
  destruct (rv_rating x <=? rv_rating r)%Z; [done|].
  rewrite IH. apply Permutation_swap.
Qed.

Lemma sort_reviews_Permutation o rs : Listing.sort_reviews o rs ≡ₚ rs.
Proof.
  destruct o; cbn; [apply reverse_Permutation|done|].
  rewrite <- (reverse_Permutation rs) at 2.
  induction (reverse rs) as [|r l IH]; [done|]. cbn.
  by rewrite insert_by_rating_Permutation, IH.
Qed.

Section listings.
Context `{Library}.

(** A query that passes the validators is read as it stands, with page 1
    and 10 per page as defaults. *)
Lemma list_errors_nil productId q :
  Listing.list_errors productId q = [] ->
  isMongoId productId = true
  /\ Listing.route_page q = Listing.number_default (Listing.q_page q) 1
  /\ Listing.route_limit q = Listing.number_default (Listing.q_limit q) 10
  /\ (1 <= Listing.route_page q)%Z
  /\ (1 <= Listing.route_limit q <= 50)%Z.
Proof.
  unfold Listing.list_errors, Listing.route_page, Listing.route_limit.
  unfold Listing.number_or, Listing.number_default.
  intros E.
  apply app_eq_nil in E as [E1 E]. apply app_eq_nil in E as [E2 E].
  apply app_eq_nil in E as [E3 _].
  split; [by destruct (isMongoId productId)|].
  destruct (Listing.q_page q) as [p|], (Listing.q_limit q) as [l|];
    repeat match goal with
           | E : (if ?b then _ else _) = [] |- _ =>
               destruct b eqn:?; [clear E|discriminate E]
           | E : _ && _ = true |- _ => apply andb_true_iff in E as [? ?]
           end;
    repeat match goal with |- context [(?n =? 0)%Z] => destruct (Z.eqb_spec n 0) end;
    lia.
Qed.

Lemma list_reviews_run productId pid q s :
  Listing.list_errors productId q = [] ->
  ObjectId_new productId = Some pid ->
  let page := Listing.route_page q in
  let limit := Listing.route_limit q in
  let all := filter (approved_of pid) (db_reviews s) in
  Listing.list_reviews productId q s
  = (Some (ok [("data",
                JArr (review_json <$>
                        take (Z.to_nat limit)
                          (drop (Z.to_nat ((page - 1) * limit))
                             (Listing.sort_reviews (Listing.route_sort q) all))));
               ("pagination", Listing.pagination page limit (length all))]),
     s).
Proof.
  intros E Hpid. unfold Listing.list_reviews. rewrite E. cbn.
  unfold Routes.toObjectId. rewrite Hpid. reflexivity.
Qed.

(** X1. For a request that passes the validators and whose figures are
    within [Listing.exact_figures] (page times limit and total times
    limit at most 2^53 - 1), a page of the router's listing holds approved
    reviews of the product only, none more often than the collection has
    it, and at most [limit] of them, where [limit] is at most 50; the
    pagination block echoes the page and the limit asked for (1 and 10 by
    default) and counts all approved reviews of the product; the state is
    not touched. *)
Theorem route_list_page productId pid q s :
  let all := filter (approved_of pid) (db_reviews s) in
  let limit := Listing.number_default (Listing.q_limit q) 10 in
  Listing.list_errors productId q = [] ->
  ObjectId_new productId = Some pid ->
  Listing.exact_figures (Listing.route_page q) (Listing.route_limit q)
                        (length all) ->
  exists items,
    Listing.list_reviews productId q s
    = (Some (ok [("data", JArr (review_json <$> items));
                 ("pagination",
                  Listing.pagination
                    (Listing.number_default (Listing.q_page q) 1)
                    limit (length all))]),
       s)
    /\ items ⊆+ all
    /\ Forall (approved_of pid) items
    /\ (Z.of_nat (length items) <= limit <= 50)%Z.
Proof.
  intros all limit E Hpid _.
  pose proof (list_reviews_run productId pid q s E Hpid) as Hrun.
  destruct (list_errors_nil productId q E) as (_ & Hp & Hl & Hp1 & Hl1).
  cbv zeta in Hrun. rewrite Hp, Hl in Hrun. rewrite Hl in Hl1.
  fold all limit in Hrun. fold limit in Hl1.
  eexists. split; [exact Hrun|].
  assert (Hsub : take (Z.to_nat limit)
                   (drop (Z.to_nat ((Listing.number_default (Listing.q_page q) 1 - 1) * limit))
                      (Listing.sort_reviews (Listing.route_sort q) all)) ⊆+ all).
  { rewrite <- (sort_reviews_Permutation (Listing.route_sort q) all) at 2.
    apply sublist_submseteq.
    etrans; [apply sublist_take|apply sublist_drop]. }
  split; [exact Hsub|]. split.
  - apply Forall_forall. intros r Hr.
    apply (elem_of_submseteq _ _ _ Hr) in Hsub.
    by apply list_elem_of_filter in Hsub as [? _].
  - rewrite length_take. lia.
Qed.

(** X2. Paging through the router's listing with a fixed limit and sort
    order shows every approved review of the product exactly once: page
    [k + 1] answers the [k]-th of a sequence of pages whose number is the
    [pages] field of the pagination block and whose concatenation is a
    permutation of the approved reviews; every later page whose number is
    within [Listing.exact_figures] is empty. The total times the limit is
    at most 2^53 - 1, which bounds the pages of the sequence as well. *)
Theorem route_list_pages_cover productId pid limit sort s :
  let all := filter (approved_of pid) (db_reviews s) in
  isMongoId productId = true ->
  ObjectId_new productId = Some pid ->
  (1 <= limit <= 50)%Z ->
  sort ∈ ["top"; "new"; "old"] ->
  Listing.exact_figures 1 limit (length all) ->
  let query k := Listing.mkListQuery (Some (Z.of_nat k + 1)%Z) (Some limit) (Some sort) in
  let answer k items :=
    (Some (ok [("data", JArr (review_json <$> items));
               ("pagination", Listing.pagination (Z.of_nat k + 1)%Z limit (length all))]),
     s) in
  exists pages : list (list Review),
    jnum "pages" (Listing.pagination 1 limit (length all))
    = Some (inject_Z (Z.of_nat (length pages)))
    /\ (forall k items, pages !! k = Some items ->
          Listing.list_reviews productId (query k) s = answer k items)
    /\ (forall k, length pages <= k ->
          Listing.exact_figures (Z.of_nat k + 1) limit (length all) ->
          Listing.list_reviews productId (query k) s = answer k [])
    /\ concat pages ≡ₚ all.
Proof.
  intros all Hid Hpid Hl Hsort _ query answer.
  set (sorted := Listing.sort_reviews
                   (Listing.route_sort (query 0)) all).
  set (n := Z.to_nat limit).
  set (np := Z.to_nat (Listing.Math_ceil (of_count (length all) / inject_Z limit))).
  assert (Herr : forall k, Listing.list_errors productId (query k) = []).
  { intros k. unfold Listing.list_errors. rewrite Hid. cbn.
    destruct (Z.leb_spec 1 (Z.of_nat k + 1)%Z); [|lia].
    destruct (Z.leb_spec 1 limit); [|lia].
    destruct (Z.leb_spec limit 50); [|lia]. cbn.
    by rewrite bool_decide_eq_true_2. }
  assert (Hrun : forall k,
    Listing.list_reviews productId (query k) s
    = answer k (take n (drop (k * n) sorted))).
  { intros k.
    pose proof (list_reviews_run productId pid (query k) s (Herr k) Hpid) as Hr.
    destruct (list_errors_nil productId (query k) (Herr k))
      as (_ & Hp & Hl' & _ & _).
    cbv zeta in Hr. rewrite Hp, Hl' in Hr. cbn in Hr.
    rewrite Hr. unfold answer. repeat f_equal. unfold n. nia. }
  assert (Hlen : length sorted = length all)
    by apply Permutation_length, sort_reviews_Permutation.
  pose proof (Math_ceil_pages (length all) limit ltac:(lia)) as Hpages.
  pose proof (Math_ceil_nonneg (length all) limit ltac:(lia)) as Hnn.
  cbv zeta in Hpages.
  exists ((fun i => take n (drop (i * n) sorted)) <$> seq 0 np).
  split; [|split; [|split]].
  - cbn. rewrite length_fmap, length_seq. unfold np.
    by rewrite Z2Nat.id.
  - intros k items Hk. rewrite list_lookup_fmap in Hk.
    destruct (seq 0 np !! k) as [i|] eqn:Hi; [|done].
    apply lookup_seq in Hi as [-> _]. cbn in Hk. injection Hk as <-.
    apply Hrun.
  - intros k Hk _. rewrite length_fmap, length_seq in Hk.
    rewrite Hrun. rewrite drop_ge; [by rewrite take_nil|].
    rewrite Hlen. unfold np, n in *. nia.
  - rewrite chunks_take, take_ge.
    + apply sort_reviews_Permutation.
    + rewrite Hlen. unfold np, n. nia.
Qed.
End listings.

Lemma route_list_page_witness :
  exists items,
    Listing.list_reviews (H := hex_library) Sample.idA
      (Listing.mkListQuery (Some 2%Z) (Some 2%Z) (Some "top")) Sample.shop
    = (Some (ok [("data", JArr (review_json <$> items));
                 ("pagination", Listing.pagination 2 2 3)]),
       Sample.shop)
    /\ length items = 1.
Proof.
  destruct (route_list_page (H := hex_library) Sample.idA Sample.A
              (Listing.mkListQuery (Some 2%Z) (Some 2%Z) (Some "top"))
              Sample.shop)
    as (items & Hrun & _ & _ & _);
    [reflexivity|reflexivity|by split; vm_compute|].
  exists items. split; [exact Hrun|].
  vm_compute in Hrun. injection Hrun as Hrun.
  by destruct items as [|? [|? ?]].
Defined.

Lemma route_list_pages_cover_witness :
  exists pages : list (list Review),
    length pages = 2
    /\ concat pages ≡ₚ filter (approved_of Sample.A) (db_reviews Sample.shop).
Proof.
  destruct (route_list_pages_cover (H := hex_library) Sample.idA Sample.A 2
              "top" Sample.shop)
    as (pages & Hn & _ & _ & Hperm);
    [reflexivity|reflexivity|lia|apply list_elem_of_here|by split; vm_compute|].
  exists pages. split; [|exact Hperm].
  assert (Hp : jnum "pages"
                 (Listing.pagination 1 2
                    (length (filter (approved_of Sample.A)
                               (db_reviews Sample.shop))))
               = Some (inject_Z 2)) by (vm_compute; reflexivity).
  rewrite Hp in Hn. injection Hn as Hn. lia.
Defined.

(* ===================================================================== *)
(** ** The rating distribution of the controller *)
(* ===================================================================== *)

(** How many reviews of a list carry the rating [k]. *)
Lemma dist_set_keys k v d :
  (Controller.dist_set k v d).*1
  = if decide (k ∈ d.*1) then d.*1 else d.*1 ++ [k].
Proof.
  induction d as [|[k' v'] d IH]; [done|]. cbn.
  destruct (decide (k = k')) as [->|Hne]; cbn.
  - rewrite decide_True; [done|]. apply list_elem_of_here.
  - rewrite IH. destruct (decide (k ∈ d.*1)) as [Hin|Hnin].
    + rewrite decide_True; [done|]. by apply list_elem_of_further.
    + rewrite decide_False; [done|]. intros Hin.
      apply elem_of_cons in Hin as [?|?]; done.
Qed.

Lemma dist_set_NoDup k v d :
  NoDup d.*1 -> NoDup (Controller.dist_set k v d).*1.
Proof.
  intros Hd. rewrite dist_set_keys. destruct (decide (k ∈ d.*1)); [done|].
  apply NoDup_app. split; [done|]. split; [|apply NoDup_singleton].
  intros x Hx Hx'. apply list_elem_of_singleton in Hx'. by subst.
Qed.

Lemma dist_set_elem k v d k' v' :
  NoDup d.*1 ->
  (k', v') ∈ Controller.dist_set k v d
  <-> (k' = k /\ v' = v) \/ (k' <> k /\ (k', v') ∈ d).
Proof.
  induction d as [|[k0 v0] d IH]; intros Hd; cbn.
  - rewrite list_elem_of_singleton. split.
    + intros [= -> ->]. by left.
    + intros [[-> ->]|[_ Hin]]; [done|]. by apply elem_of_nil in Hin.
  - apply NoDup_cons in Hd as [Hk0 Hd].
    destruct (decide (k = k0)) as [->|Hne].
    + rewrite !elem_of_cons. split.
      * intros [[= -> ->]|Hin]; [by left|]. right. split; [|by right].
        intros ->. apply Hk0. apply list_elem_of_fmap. by exists (k0, v').
      * intros [[-> ->]|[Hne [[= -> ->]|Hin]]]; [by left|done|by right].
    + rewrite !elem_of_cons, (IH Hd). split.
      * intros [[= -> ->]|[[-> ->]|[Hne' Hin]]].
        -- right. split; [done|by left].
        -- by left.
        -- right. split; [done|by right].
      * intros [[-> ->]|[Hne' [[= -> ->]|Hin]]].
        -- right. by left.
        -- by left.
        -- right. right. by split.
Qed.

(** The object the loop over the groups leaves: the groups' entries, and
    the initial entries of the keys no group has. *)
Lemma foldl_dist_set agg d0 :
  NoDup agg.*1 -> NoDup d0.*1 ->
  let d := foldl (fun d s => Controller.dist_set s.1 s.2 d) d0 agg in
  NoDup d.*1
  /\ forall k v, (k, v) ∈ d <-> (k, v) ∈ agg \/ ((k ∉ agg.*1) /\ (k, v) ∈ d0).
Proof.
  revert d0. induction agg as [|[k0 v0] agg IH]; intros d0 Hagg Hd0; cbn.
  - split; [done|]. intros k v. split.
    + intros Hin. right. split; [apply not_elem_of_nil|done].
    + intros [Hin|[_ Hin]]; [by apply elem_of_nil in Hin|done].
  - apply NoDup_cons in Hagg as [Hk0 Hagg].
    destruct (IH (Controller.dist_set k0 v0 d0) Hagg (dist_set_NoDup _ _ _ Hd0))
      as [Hnd Hiff].
    split; [exact Hnd|]. intros k v. cbv zeta in Hiff. rewrite Hiff.
    rewrite (dist_set_elem _ _ _ _ _ Hd0), !elem_of_cons. split.
    + intros [Hin|[Hnin [[-> ->]|[Hne Hin]]]].
      * left. by right.
      * left. by left.
      * right. split; [|done]. intros [?|?]; done.
    + intros [[[= -> ->]|Hin]|[Hnin Hin]].
      * right. split; [done|by left].
      * by left.
      * right. split; [intros ?; apply Hnin; by right|].
        right. split; [|done]. intros ->. apply Hnin. by left.
Qed.

Lemma group_by_rating_elem rs k v :
  (k, v) ∈ group_by_rating rs
  <-> k ∈ rv_rating <$> rs
      /\ v = length (filter (fun r => rv_rating r = k) rs).
Proof.
  unfold group_by_rating. split.
  - intros Hin. apply list_elem_of_fmap in Hin as (k' & [= -> ->] & Hin).
    rewrite elem_of_remove_dups in Hin. split; [exact Hin|reflexivity].
  - intros [Hin ->]. apply list_elem_of_fmap. exists k. split; [done|].
    by rewrite elem_of_remove_dups.
Qed.

Lemma group_by_rating_keys rs :
  (group_by_rating rs).*1 = remove_dups (rv_rating <$> rs).
Proof.
  unfold group_by_rating.
  change (map ?f ?l) with (f <$> l).
  rewrite <- list_fmap_compose. by rewrite list_fmap_id.
Qed.

Lemma count_absent rs k :
  k ∉ rv_rating <$> rs -> length (filter (fun r => rv_rating r = k) rs) = 0.
Proof.
  intros Hk. induction rs as [|r rs IH]; [done|].
  rewrite fmap_cons, not_elem_of_cons in Hk. destruct Hk as [Hne Hk].
  rewrite filter_cons, decide_False; [by apply IH|done].
Qed.

(** The distribution object: its keys are the ratings 1 to 5 and the
    ratings that occur, each once, and an entry counts the reviews with
    its rating. *)
Lemma distribution_of_spec rs :
  let d := Controller.distribution_of (group_by_rating rs) in
  NoDup d.*1
  /\ forall k v,
       (k, v) ∈ d
       <-> v = length (filter (fun r => rv_rating r = k) rs)
           /\ ((1 <= k <= 5)%Z \/ k ∈ rv_rating <$> rs).
Proof.
  unfold Controller.distribution_of.
  destruct (foldl_dist_set (group_by_rating rs) Controller.distribution0)
    as [Hnd Hiff].
  { rewrite group_by_rating_keys. apply NoDup_remove_dups. }
  { by apply (bool_decide_unpack _). }
  split; [exact Hnd|]. intros k v. cbv zeta in Hiff. rewrite Hiff.
  rewrite group_by_rating_elem, group_by_rating_keys, elem_of_remove_dups.
  split.
  - intros [[Hin ->]|[Hnin Hin]]; [by split; [|right]|].
    rewrite (count_absent _ _ Hnin). unfold Controller.distribution0 in Hin.
    rewrite !elem_of_cons in Hin.
    destruct Hin as [[= -> ->]|[[= -> ->]|[[= -> ->]|[[= -> ->]|[[= -> ->]|Hin]]]]];
      [split; [done|left; lia]..|by apply elem_of_nil in Hin].
  - intros [-> Hk].
    destruct (decide (k ∈ rv_rating <$> rs)) as [Hin|Hnin]; [by left|].
    right. split; [done|]. rewrite (count_absent _ _ Hnin).
    destruct Hk as [Hk|Hk]; [|done].
    assert (k = 1 \/ k = 2 \/ k = 3 \/ k = 4 \/ k = 5)%Z
      as [->|[->|[->|[->| ->]]]] by lia;
      unfold Controller.distribution0;
      repeat first [apply list_elem_of_here | apply list_elem_of_further].
Qed.

Lemma dist_total_sum d a :
  foldl (fun a (kv : Z * nat) => a + kv.2) a d = a + sum_list d.*2.
Proof.
  revert a. induction d as [|kv d IH]; intros a; cbn; [lia|].
  rewrite IH. lia.
Qed.

Lemma dist_weighted_sum (d : list (Z * nat)) a :
  foldl (fun sum (kv : Z * nat) => (sum + kv.1 * Z.of_nat kv.2)%Z) a d
  = (a + sumZ ((fun kv : Z * nat => kv.1 * Z.of_nat kv.2)%Z <$> d))%Z.
Proof.
  revert a. induction d as [|kv d IH]; intros a; [cbn; lia|].
  cbn [foldl]. rewrite IH, fmap_cons. unfold sumZ. cbn [foldr]. lia.
Qed.

Lemma sumZ_cons x l : sumZ (x :: l) = (x + sumZ l)%Z.
Proof. reflexivity. Qed.

(** Counting a list of reviews rating by rating, over distinct keys that
    include every rating that occurs, counts every review once. *)
Lemma count_by_rating ks rs :
  NoDup ks ->
  (forall r, r ∈ rs -> rv_rating r ∈ ks) ->
  sum_list ((fun k => length (filter (fun r => rv_rating r = k) rs)) <$> ks)
  = length rs
  /\ sumZ ((fun k => k * Z.of_nat (length (filter (fun r => rv_rating r = k) rs)))%Z
             <$> ks)
     = sumZ (rv_rating <$> rs).
Proof.
  intros Hks. induction rs as [|r rs IH]; intros Hin.
  - clear. induction ks as [|k ks [IH1 IH2]]; [done|].
    rewrite !fmap_cons, sumZ_cons, IH2. split; [|cbn; lia].
    cbn [sum_list sum_list_with]. fold (sum_list
      ((fun k0 => length (filter (fun r => rv_rating r = k0) []))  <$> ks)).
    rewrite IH1. done.
  - destruct IH as [IH1 IH2]; [intros r' Hr'; apply Hin; by right|].
    assert (Hr : rv_rating r ∈ ks) by (apply Hin; left).
    rewrite (fmap_cons rv_rating), sumZ_cons, length_cons, <- IH1, <- IH2.
    clear IH1 IH2 Hin. revert Hr.
    induction Hks as [|k ks Hk Hks IH]; intros Hr;
      [by apply elem_of_nil in Hr|].
    rewrite !fmap_cons, !sumZ_cons.
    change (sum_list (?x :: ?l)) with (x + sum_list l).
    rewrite filter_cons.
    destruct (decide (rv_rating r = k)) as [E|Hne].
    + assert (Hrest : forall ks' : list Z, k ∉ ks' ->
        (fun k0 => length (filter (fun r0 => rv_rating r0 = k0) (r :: rs))) <$> ks'
        = (fun k0 => length (filter (fun r0 => rv_rating r0 = k0) rs)) <$> ks').
      { intros ks' Hk'. apply list_fmap_ext. intros i k0 Hk0.
        rewrite filter_cons, decide_False; [done|].
        intros E'. apply Hk'. rewrite <- E, E'.
        by apply list_elem_of_lookup_2 in Hk0. }
      assert (Hrest' : forall ks' : list Z, k ∉ ks' ->
        (fun k0 => (k0 * Z.of_nat (length (filter (fun r0 => rv_rating r0 = k0) (r :: rs))))%Z) <$> ks'
        = (fun k0 => (k0 * Z.of_nat (length (filter (fun r0 => rv_rating r0 = k0) rs)))%Z) <$> ks').
      { intros ks' Hk'. apply list_fmap_ext. intros i k0 Hk0.
        rewrite filter_cons, decide_False; [done|].
        intros E'. apply Hk'. rewrite <- E, E'.
        by apply list_elem_of_lookup_2 in Hk0. }
      rewrite (Hrest ks Hk), (Hrest' ks Hk), length_cons. split; lia.
    + apply elem_of_cons in Hr as [?|Hr]; [done|].
      destruct (IH Hr) as [-> ->]. split; lia.
Qed.

(** The total and the weighted sum the controller reads off its
    distribution object are the number and the sum of the ratings. *)
Lemma distribution_totals rs :
  let d := Controller.distribution_of (group_by_rating rs) in
  Controller.dist_total d = length rs
  /\ Controller.dist_weighted d = sumZ (rv_rating <$> rs).
Proof.
  intros d. destruct (distribution_of_spec rs) as [Hnd Hspec].
  fold d in Hnd, Hspec.
  assert (Hval : forall i kv, d !! i = Some kv ->
            kv.2 = length (filter (fun r => rv_rating r = kv.1) rs)).
  { intros i [k v] Hkv. by apply list_elem_of_lookup_2, Hspec in Hkv as [-> _]. }
  assert (Hall : forall r, r ∈ rs -> rv_rating r ∈ d.*1).
  { intros r Hr. apply list_elem_of_fmap.
    exists (rv_rating r, length (filter (fun r0 => rv_rating r0 = rv_rating r) rs)).
    split; [done|]. apply Hspec. split; [done|]. right.
    by apply list_elem_of_fmap_2. }
  destruct (count_by_rating d.*1 rs Hnd Hall) as [H1 H2].
  unfold Controller.dist_total, Controller.dist_weighted.
  rewrite dist_total_sum, dist_weighted_sum.
  rewrite <- list_fmap_compose in H1, H2. split.
  - rewrite <- H1. cbn. f_equal. apply list_fmap_ext. intros i kv Hkv.
    by apply (Hval i).
  - rewrite <- H2, Z.add_0_l. f_equal. apply list_fmap_ext. intros i kv Hkv.
    cbn. by rewrite (Hval i kv Hkv).
Qed.

(** The mean the controller computes from the distribution is the mean of
    the ratings. *)
Lemma dist_avg_mean rs :
  Controller.dist_avg (Controller.distribution_of (group_by_rating rs))
  = mean (rv_rating <$> rs).
Proof.
  unfold Controller.dist_avg.
  destruct (distribution_totals rs) as [-> ->].
  destruct rs as [|r rs]; [done|].
  rewrite decide_False by done. unfold mean, average.
  by rewrite length_fmap.
Qed.

Section controller_numbers.
Context `{Library}.

(** X3. On a cache miss the controller's summary, computed from the
    rating distribution, reports the same numbers as the router's
    aggregation: [avg] is the mean of the approved ratings of the product
    rounded to one decimal (0 without reviews) and [total] is their
    number. *)
Theorem controller_summary_is_aggregate productId pid now s :
  Controller.bad_id (Some productId) = false ->
  ObjectId_new productId = Some pid ->
  ctrl_cache s !! summary_key productId = None ->
  let res := fst (Controller.getReviewSummary (Some productId) now s) in
  status res = 200
  /\ jnum "avg" (body res) = Some (fst (aggregate pid (db_reviews s)))
  /\ jnum "total" (body res) = Some (snd (aggregate pid (db_reviews s)))
  /\ jnum "avg" (body res)
     = jnum "avg" (Routes.summary_obj (fst (aggregate pid (db_reviews s)))
                                      (snd (aggregate pid (db_reviews s)))).
Proof.
  intros Hid Hpid Hmiss res. unfold res.
  rewrite (getReviewSummary_on_miss productId pid s now Hid Hpid Hmiss).
  unfold Controller_fresh, aggregate, approved_ratings. cbn.
  rewrite dist_avg_mean.
  destruct (distribution_totals (filter (approved_of pid) (db_reviews s)))
    as [-> _].
  by rewrite length_fmap.
Qed.

(** X4. For a [page] and a [limit] that, where sent, spell integers, and
    figures within [Listing.exact_figures] (page times limit and total
    times limit at most 2^53 - 1), the controller's listing answers a
    page of at most [limit] approved reviews of the product, [limit]
    between 1 and 50, and a distribution object that has every rating
    from 1 to 5 and every rating that occurs exactly once as a key, counts
    under each key the approved reviews with that rating, and adds up to
    the total of the pagination block. *)
Theorem listReviews_distribution productId pid q s :
  let all := filter (approved_of pid) (db_reviews s) in
  let limit := Listing.ctrl_limit q in
  Controller.bad_id (Some productId) = false ->
  ObjectId_new productId = Some pid ->
  Listing.exact_figures (Listing.ctrl_page q) limit (length all) ->
  exists items d,
    Listing.listReviews (Some productId) q s
    = (ok [("reviews", JArr (review_json <$> items));
           ("pagination", Listing.pagination (Listing.ctrl_page q) limit (length all));
           ("distribution", Listing.distribution_json d)],
       s)
    /\ items ⊆+ all
    /\ (Z.of_nat (length items) <= limit)%Z /\ (1 <= limit <= 50)%Z
    /\ NoDup d.*1
    /\ (forall k v,
          (k, v) ∈ d
          <-> v = length (filter (fun r => rv_rating r = k) all)
              /\ ((1 <= k <= 5)%Z \/ k ∈ rv_rating <$> all))
    /\ sum_list d.*2 = length all.
Proof.
  intros all limit Hid Hpid _.
  eexists _, (Controller.distribution_of (group_by_rating all)).
  split; [|split; [|split; [|split; [|split; [|split]]]]].
  - unfold Listing.listReviews, try_catch, bind. rewrite Hid.
    cbn. rewrite Hpid. reflexivity.
  - etrans; [|apply Permutation_submseteq,
                 (sort_reviews_Permutation Listing.newest_first)].
    apply sublist_submseteq.
    etrans; [apply sublist_take|apply sublist_drop].
  - rewrite length_take. unfold limit, Listing.ctrl_limit. lia.
  - unfold limit, Listing.ctrl_limit. lia.
  - apply distribution_of_spec.
  - apply distribution_of_spec.
  - destruct (distribution_totals all) as [Ht _].
    unfold Controller.dist_total in Ht. by rewrite dist_total_sum in Ht.
Qed.
End controller_numbers.

Lemma controller_summary_is_aggregate_witness :
  jnum "avg" (body (fst (Controller.getReviewSummary (H := hex_library)
                           (Some Sample.idA) 1000 Sample.shop)))
  = Some (fst (aggregate Sample.A (db_reviews Sample.shop))).
Proof.
  apply (controller_summary_is_aggregate (H := hex_library) Sample.idA Sample.A
           1000 Sample.shop); reflexivity.
Defined.

Lemma listReviews_distribution_witness :
  exists items d,
    Listing.listReviews (H := hex_library) (Some Sample.idA)
      (Listing.mkListQuery None None None) Sample.shop
    = (ok [("reviews", JArr (review_json <$> items));
           ("pagination", Listing.pagination 1 10 3);
           ("distribution", Listing.distribution_json d)],
       Sample.shop)
    /\ sum_list d.*2 = 3.
Proof.
  destruct (listReviews_distribution (H := hex_library) Sample.idA Sample.A
              (Listing.mkListQuery None None None) Sample.shop)
    as (items & d & Hrun & _ & _ & _ & _ & _ & Hsum);
    [reflexivity|reflexivity|by split; vm_compute|].
  exists items, d. split; [exact Hrun|exact Hsum].
Defined.

(* ===================================================================== *)
(** ** Recomputation, votes, approvals and pending reviews *)
(* ===================================================================== *)

Lemma alter_idemp (f : Product -> Product) pid (ps : gmap ObjectId Product) :
  (forall p, f (f p) = f p) -> alter f pid (alter f pid ps) = alter f pid ps.
Proof.
  intros Hf. apply map_eq. intros k.
  destruct (decide (k = pid)) as [->|Hne].
  - rewrite !lookup_alter_eq. destruct (ps !! pid); cbn; [by rewrite Hf|done].
  - by rewrite !lookup_alter_ne.
Qed.

(** The first document with an identifier, and the documents around it. *)
Lemma update_first_split rid f rs d :
  review_by_id rid rs = Some d ->
  exists pre post,
    rs = pre ++ d :: post
    /\ Forall (fun r => rv_id r <> rid) pre
    /\ rv_id d = rid
    /\ update_first rid f rs = (Some (f d), pre ++ f d :: post).
Proof.
  unfold review_by_id. induction rs as [|r rs IH]; [done|].
  rewrite filter_cons. cbn [update_first].
  destruct (decide (rv_id r = rid)) as [E|Hne].
  - cbn. intros [= ->]. by exists [], rs.
  - intros Hd. destruct (IH Hd) as (pre & post & -> & Hpre & Hid & ->).
    exists (r :: pre), post. repeat split; [by constructor|done].
Qed.

Section recomputation.
Context `{Library}.

(** X5. Recomputing the statistics of a product a second time changes no
    figure: after two runs of [recomputeProductStats] (or of
    [recalcProductRating]) the reviews, the four rating fields of every
    product and both caches are what they are after one run. Each run
    stamps the product document with the time of the update, which is
    not part of the comparison. *)
Theorem recompute_idempotent productId pid s :
  ObjectId_new productId = Some pid ->
  let once := snd (Routes.recomputeProductStats productId s) in
  let once' := snd (Controller.recalcProductRating
                      (Controller.IdStr productId) s) in
  same_figures (snd (Routes.recomputeProductStats productId once)) once
  /\ same_figures
       (snd (Controller.recalcProductRating (Controller.IdStr productId) once'))
       once'.
Proof.
  intros Hpid once once'.
  cut (snd (Routes.recomputeProductStats productId once) = once
       /\ snd (Controller.recalcProductRating (Controller.IdStr productId) once')
          = once').
  { intros [-> ->]. by split. }
  unfold once, once'.
  rewrite !(recomputeProductStats_run productId pid) by done.
  rewrite !(recalcProductRating_run_str productId pid) by done.
  cbn [snd]. unfold after_recompute, after_recalc.
  destruct (aggregate pid (db_reviews s)) as [m c] eqn:Hagg.
  cbn [db_reviews db_products route_cache ctrl_cache]. rewrite Hagg.
  unfold nc_del. split; f_equal.
  - apply alter_idemp. intros p. by rewrite !stats_update_product.
  - apply delete_delete_eq.
  - apply alter_idemp. intros p. by rewrite !recalc_update_product.
  - apply delete_delete_eq.
Qed.

(** The state and the answer of a summary read that misses the cache. *)
Lemma summary_miss_run productId pid now s :
  isMongoId productId = true ->
  ObjectId_new productId = Some pid ->
  route_cache s !! summary_key productId = None ->
  Routes.summary productId now s
  = (Routes_fresh pid (db_reviews s),
     mkServer (db_reviews s)
       (alter (apply_set (Routes.stats_update
                            (fst (aggregate pid (db_reviews s)))
                            (snd (aggregate pid (db_reviews s)))))
              pid (db_products s))
       (<[summary_key productId :=
            (Routes.summary_obj (fst (aggregate pid (db_reviews s)))
                                (snd (aggregate pid (db_reviews s))),
             (now + 60000)%Z)]> (route_cache s))
       (ctrl_cache s)).
Proof.
  intros Hid Hnew Hmiss. unfold Routes.summary. rewrite Hid. cbn [negb].
  unfold try_catch, bind at 1, Routes.cache_get.
  rewrite (nc_get_absent _ _ _ Hmiss), set_route_cache_same.
  unfold Routes.summary_miss, Routes.toObjectId. rewrite Hnew.
  cbn [bind ret gets modify Review_aggregate Product_findByIdAndUpdate
       Routes.cache_set fst].
  rewrite avg_of_head, total_of_head. reflexivity.
Qed.



(** X7. A helpful vote for an identifier some review carries adds one to
    the counter of the first review with that identifier and changes
    nothing else: the other reviews, the products and both caches stay as
    they were. *)
Theorem helpful_counts_once id rid d s :
  isMongoId id = true ->
  ObjectId_new id = Some rid ->
  review_by_id rid (db_reviews s) = Some d ->
  exists pre post,
    db_reviews s = pre ++ d :: post
    /\ Forall (fun r => rv_id r <> rid) pre
    /\ Routes.helpful id s
       = (ok [], set_reviews (pre ++ inc_helpful d :: post) s)
    /\ rv_helpful (inc_helpful d) = (rv_helpful d + 1)%Z.
Proof.
  intros Hid Hrid Hd.
  destruct (update_first_split rid inc_helpful _ d Hd)
    as (pre & post & Hrs & Hpre & _ & Hupd).
  exists pre, post. repeat split; try done.
  unfold Routes.helpful. rewrite Hid. cbn [negb].
  unfold try_catch, bind, Review_findByIdAndUpdate. rewrite Hrid, Hupd.
  reflexivity.
Qed.

(** X8. Approving a review that was not approved yet adds its rating to
    the approved ratings of its product; the product's [ratingsCount]
    becomes the former number of approved reviews plus one, its
    [averageRating] and [ratingsCount] are the aggregate of the new
    collection, and the product's summary is out of the router's cache. *)
Theorem approve_counts_review id rid d p s :
  isMongoId id = true ->
  ObjectId_new id = Some rid ->
  review_by_id rid (db_reviews s) = Some d ->
  rv_status d <> approved ->
  let pid := rv_productId d in
  ObjectId_new (hex pid) = Some pid ->
  db_products s !! pid = Some p ->
  exists s' p',
    Routes.approve id s = (ok [], s')
    /\ approved_ratings pid (db_reviews s')
       ≡ₚ rv_rating d :: approved_ratings pid (db_reviews s)
    /\ db_products s' !! pid = Some p'
    /\ ratingsCount p'
       = of_count (S (length (approved_ratings pid (db_reviews s))))
    /\ (averageRating p', ratingsCount p') = aggregate pid (db_reviews s')
    /\ route_cache s' !! summary_key (hex pid) = None.
Proof.
  intros Hid Hrid Hd Hst pid Hcanon Hp.
  destruct (update_first_split rid (with_status approved) _ d Hd)
    as (pre & post & Hrs & Hpre & _ & Hupd).
  set (d' := with_status approved d) in *.
  set (s1 := set_reviews (pre ++ d' :: post) s).
  assert (Hrun : Routes.approve id s
                 = (ok [], after_recompute (hex pid) pid s1)).
  { unfold Routes.approve. rewrite Hid. cbn [negb].
    unfold try_catch, bind at 1, Review_findByIdAndUpdate.
    rewrite Hrid, Hupd. fold s1. cbn [rv_productId d' with_status].
    unfold bind. fold pid.
    by rewrite (recomputeProductStats_run (hex pid) pid s1 Hcanon). }
  assert (Hratings : approved_ratings pid (pre ++ d' :: post)
                     ≡ₚ rv_rating d :: approved_ratings pid (db_reviews s)).
  { rewrite Hrs. unfold approved_ratings.
    rewrite !filter_app, !filter_cons, !fmap_app.
    rewrite (decide_True (P := approved_of pid d')) by done.
    rewrite (decide_False (P := approved_of pid d)) by (intros [_ ?]; done).
    rewrite fmap_cons. symmetry. apply Permutation_middle. }
  exists (after_recompute (hex pid) pid s1).
  unfold after_recompute. cbn [db_reviews s1 set_reviews].
  destruct (aggregate pid (pre ++ d' :: post)) as [m c] eqn:Hagg.
  exists (apply_set (Routes.stats_update m c) p).
  split; [by rewrite Hrun; unfold after_recompute; cbn [db_reviews s1 set_reviews];
          rewrite Hagg|].
  cbn [db_reviews db_products route_cache s1 set_reviews].
  split; [exact Hratings|].
  split; [by rewrite lookup_alter_eq, Hp|].
  rewrite stats_update_product. cbn [ratingsCount averageRating].
  pose proof Hagg as Hagg'.
  unfold aggregate in Hagg. injection Hagg as Hm Hc.
  split; [|split].
  - rewrite <- Hc. f_equal. by rewrite (Permutation_length Hratings).
  - by rewrite Hagg'.
  - unfold nc_del. apply lookup_delete_eq.
Qed.

(** X9. A review created while auto-publishing is switched off is stored
    as pending and counts for nothing: the router answers 201, appends the
    document and leaves products and caches alone, and the aggregate of
    every product over the new collection is what it was. *)
Theorem pending_creation_not_counted env newId user productId pid p b s :
  AUTO_PUBLISH_REVIEWS env = false ->
  Routes.create_errors productId b = [] ->
  ObjectId_new productId = Some pid ->
  db_products s !! pid = Some p ->
  exists doc,
    Routes.create_review env newId user productId b s
    = (created [("data", review_json doc)],
       set_reviews (db_reviews s ++ [doc]) s)
    /\ rv_status doc = pending
    /\ rv_productId doc = pid
    /\ forall pid',
         aggregate pid' (db_reviews s ++ [doc]) = aggregate pid' (db_reviews s).
Proof.
  intros Hoff Herr Hpid Hp.
  exists (Routes.review_doc false newId user pid p b).
  split; [|split; [done|split; [done|]]].
  - unfold Routes.create_review.
    rewrite Herr, bool_decide_eq_true_2 by done. cbn [negb].
    unfold try_catch, bind at 1, Routes.toObjectId. rewrite Hpid.
    unfold ret at 1, bind at 1, Product_findById, gets. rewrite Hp, Hoff.
    reflexivity.
  - intros pid'. unfold aggregate, approved_ratings.
    rewrite filter_app, filter_cons, decide_False by (intros [_ ?]; done).
    by rewrite filter_nil, app_nil_r.
Qed.
End recomputation.

Lemma recompute_idempotent_witness :
  same_figures
    (snd (Routes.recomputeProductStats (H := hex_library) Sample.idA
            (snd (Routes.recomputeProductStats (H := hex_library) Sample.idA
                    Sample.shop))))
    (snd (Routes.recomputeProductStats (H := hex_library) Sample.idA
            Sample.shop)).
Proof.
  exact (proj1 (recompute_idempotent (H := hex_library) Sample.idA Sample.A
                  Sample.shop eq_refl)).
Defined.


Lemma helpful_counts_once_witness :
  exists pre post,
    db_reviews Sample.shop
    = pre ++ Sample.review Sample.r1 Sample.A 4 approved :: post
    /\ Routes.helpful (H := hex_library) (hex Sample.r1) Sample.shop
       = (ok [],
          set_reviews
            (pre ++ inc_helpful (Sample.review Sample.r1 Sample.A 4 approved)
                 :: post) Sample.shop).
Proof.
  destruct (helpful_counts_once (H := hex_library) (hex Sample.r1) Sample.r1
              (Sample.review Sample.r1 Sample.A 4 approved) Sample.shop)
    as (pre & post & Hrs & _ & Hrun & _); [reflexivity..|].
  exists pre, post. split; [exact Hrs|exact Hrun].
Defined.

Lemma approve_counts_review_witness :
  exists s' p',
    Routes.approve (H := hex_library) (hex Sample.r4) Sample.shop = (ok [], s')
    /\ db_products s' !! Sample.A = Some p'
    /\ ratingsCount p' = 4%Q.
Proof.
  destruct (approve_counts_review (H := hex_library) (hex Sample.r4) Sample.r4
              (Sample.review Sample.r4 Sample.A 2 pending)
              (new_product "Cable") Sample.shop)
    as (s' & p' & Hrun & _ & Hp & Hcount & _);
    [reflexivity|reflexivity|reflexivity|discriminate|reflexivity|reflexivity|].
  exists s', p'. split; [exact Hrun|]. split; [exact Hp|].
  rewrite Hcount. reflexivity.
Defined.

Lemma pending_creation_not_counted_witness :
  exists doc,
    Routes.create_review (H := hex_library) (mkEnv false false) Sample.r1 None
      Sample.idA (Sample.request Sample.idA 4 "great product") Sample.shop
    = (created [("data", review_json doc)],
       set_reviews (db_reviews Sample.shop ++ [doc]) Sample.shop)
    /\ aggregate Sample.A (db_reviews Sample.shop ++ [doc])
       = aggregate Sample.A (db_reviews Sample.shop).
Proof.
  destruct (pending_creation_not_counted (H := hex_library)
              (mkEnv false false) Sample.r1 None Sample.idA Sample.A
              (new_product "Cable")
              (Sample.request Sample.idA 4 "great product") Sample.shop)
    as (doc & Hrun & _ & _ & Hagg); [reflexivity..|].
  exists doc. split; [exact Hrun|apply Hagg].
Defined.

(* ===================================================================== *)
(** ** Bulk summaries: what an entry holds *)
(* ===================================================================== *)

Lemma bulk_data_snoc aggs a :
  Routes.bulk_data (aggs ++ [a])
  = obj_set (hex (g_id a))
      (Routes.summary_obj
         (if num_truthy (g_avg a) then round1 (g_avg a) else 0%Q)
         (of_count (g_count a)))
      (Routes.bulk_data aggs).
Proof. unfold Routes.bulk_data. by rewrite foldl_app. Qed.

Lemma hex_inj o o' : hex o = hex o' -> o = o'.
Proof. destruct o, o'. cbn. by intros ->. Qed.

(** The entry of a group in the object the bulk loop builds. *)
Lemma bulk_data_lookup aggs a :
  NoDup (g_id <$> aggs) ->
  a ∈ aggs ->
  assoc (hex (g_id a)) (Routes.bulk_data aggs)
  = Some (Routes.summary_obj
            (if num_truthy (g_avg a) then round1 (g_avg a) else 0%Q)
            (of_count (g_count a))).
Proof.
  induction aggs as [|a' aggs IH] using rev_ind; intros Hnd Ha.
  - by apply elem_of_nil in Ha.
  - rewrite bulk_data_snoc, assoc_obj_set.
    rewrite fmap_app in Hnd. apply NoDup_app in Hnd as (Hnd & Hfresh & _).
    apply elem_of_app in Ha as [Ha|Ha].
    + destruct (String.eqb_spec (hex (g_id a)) (hex (g_id a'))) as [E|_].
      * exfalso. apply hex_inj in E. apply (Hfresh (g_id a)).
        -- by apply list_elem_of_fmap_2.
        -- rewrite E. apply list_elem_of_here.
      * by apply IH.
    + apply list_elem_of_singleton in Ha as ->. by rewrite String.eqb_refl.
Qed.

Lemma group_by_product_ids rs :
  g_id <$> group_by_product rs = remove_dups (rv_productId <$> rs).
Proof.
  unfold group_by_product. change (map ?f ?l) with (f <$> l).
  rewrite <- list_fmap_compose. by rewrite list_fmap_id.
Qed.

Lemma group_by_product_elem rs pid :
  pid ∈ rv_productId <$> rs ->
  mkGroup pid (length (filter (fun r => rv_productId r = pid) rs))
          (average (rv_rating <$> filter (fun r => rv_productId r = pid) rs))
  ∈ group_by_product rs.
Proof.
  intros Hin. unfold group_by_product. apply list_elem_of_fmap.
  exists pid. split; [done|]. by rewrite elem_of_remove_dups.
Qed.

Lemma filter_approved_in oids pid (rs : list Review) :
  pid ∈ oids ->
  filter (fun r => rv_productId r = pid) (filter (approved_in oids) rs)
  = filter (approved_of pid) rs.
Proof.
  intros Hin. induction rs as [|r rs IH]; [done|].
  rewrite !filter_cons.
  destruct (decide (approved_in oids r)) as [[Hr Hst]|Hn].
  - rewrite filter_cons.
    destruct (decide (rv_productId r = pid)) as [E|Hne].
    + rewrite decide_True by done. by rewrite IH.
    + rewrite decide_False by (intros [? _]; done). exact IH.
  - rewrite decide_False; [exact IH|].
    intros [E Hst]. apply Hn. split; [by rewrite E|done].
Qed.

Section bulk_entries.
Context `{Library}.

Lemma parse_all_elem l oids :
  parse_all l = Some oids ->
  forall pid, pid ∈ oids <-> exists id, id ∈ l /\ ObjectId_new id = Some pid.
Proof.
  revert oids. induction l as [|id l IH]; intros oids; cbn [parse_all].
  - intros [= <-] pid. split; [intros Hin; by apply elem_of_nil in Hin|].
    intros (id & Hin & _). by apply elem_of_nil in Hin.
  - destruct (ObjectId_new id) as [o|] eqn:Ho; [|done].
    destruct (parse_all l) as [os|]; [|done]. intros [= <-] pid.
    rewrite elem_of_cons, (IH os eq_refl). split.
    + intros [->|(id' & Hin & Hid')].
      * exists id. split; [left|done].
      * exists id'. split; [by right|done].
    + intros (id' & Hin & Hid'). apply elem_of_cons in Hin as [->|Hin].
      * left. congruence.
      * right. by exists id'.
Qed.

(** The entry of a product in the object built from the groups of the
    approved reviews of a list of products. *)
Lemma bulk_groups_lookup oids pid rs :
  pid ∈ oids ->
  assoc (hex pid)
    (Routes.bulk_data (group_by_product (filter (approved_in oids) rs)))
  = if decide (approved_ratings pid rs = []) then None
    else Some (Routes.summary_obj (fst (aggregate pid rs))
                                  (snd (aggregate pid rs))).
Proof.
  intros Hmem. set (rs' := filter (approved_in oids) rs).
  destruct (decide (approved_ratings pid rs = [])) as [Hnone|Hsome].
  - destruct (assoc (hex pid) (Routes.bulk_data (group_by_product rs')))
      eqn:Hentry; [exfalso|done].
    destruct (bulk_data_keys (hex pid) (group_by_product rs'))
      as (a & Ha & Hk); [by eexists|].
    apply hex_inj in Hk. apply group_member in Ha as (r & Hr & Hrp).
    apply list_elem_of_filter in Hr as [[_ Hst] Hr].
    unfold approved_ratings in Hnone. apply fmap_nil_inv in Hnone.
    assert (Hr' : r ∈ filter (approved_of pid) rs).
    { apply list_elem_of_filter. split; [|done]. split; [congruence|done]. }
    rewrite Hnone in Hr'. by apply elem_of_nil in Hr'.
  - assert (Hp : pid ∈ rv_productId <$> rs').
    { unfold approved_ratings in Hsome.
      destruct (filter (approved_of pid) rs) as [|r l] eqn:Hf; [done|].
      assert (Hr : r ∈ filter (approved_of pid) rs) by (rewrite Hf; left).
      apply list_elem_of_filter in Hr as [[Hrp Hst] Hr].
      apply list_elem_of_fmap. exists r. split; [done|].
      apply list_elem_of_filter. split; [|done]. split; [by rewrite Hrp|done]. }
    pose proof (group_by_product_elem rs' pid Hp) as Ha.
    unfold rs' in Ha at 1 2. rewrite (filter_approved_in oids pid _ Hmem) in Ha.
    fold rs'.
    pose proof (bulk_data_lookup _ _ (eq_ind_r (fun l => NoDup l)
                  (NoDup_remove_dups _) (group_by_product_ids rs')) Ha) as Hl.
    cbn [g_id g_avg g_count] in Hl. rewrite Hl. f_equal. unfold aggregate.
    cbn [fst snd]. fold (approved_ratings pid rs).
    f_equal.
    + destruct (approved_ratings pid rs) as [|x l] eqn:Hr; [done|].
      cbn [mean]. destruct (num_truthy (average (x :: l))) eqn:Ht; [done|].
      by rewrite round1_falsy.
    + unfold approved_ratings. by rewrite length_fmap.
Qed.

(** X10. In the answer of the router's bulk request, the entry of a
    product among the first 300 identifiers is the summary object a single
    summary request computes: the rounded mean and the number of its
    approved ratings, under both spellings. A product without approved
    reviews has no entry. *)
Theorem bulk_entry_is_aggregate ids id pid s :
  Forall (fun id => is_Some (ObjectId_new id)) (take 300 ids) ->
  id ∈ take 300 ids ->
  isValidObjectId id = true ->
  ObjectId_new id = Some pid ->
  let agg := aggregate pid (db_reviews s) in
  exists data,
    Routes.bulk_summary (Some ids) s = (ok [("data", JObj data)], s)
    /\ assoc (hex pid) data
       = if decide (approved_ratings pid (db_reviews s) = []) then None
         else Some (Routes.summary_obj (fst agg) (snd agg)).
Proof.
  intros Hwf Hin Hvalid Hpid agg. rewrite bulk_summary_run.
  destruct (parse_all_Some (filter (fun id => isValidObjectId id) (take 300 ids)))
    as [oids Hoids].
  { apply Forall_forall. intros id' Hid'.
    apply list_elem_of_filter in Hid' as [_ Hid']. revert id' Hid'.
    by apply Forall_forall. }
  rewrite Hoids.
  assert (Hmem : pid ∈ oids).
  { apply (parse_all_elem _ _ Hoids). exists id. split; [|done].
    apply list_elem_of_filter. split; [by rewrite Hvalid|done]. }
  rewrite bool_decide_eq_false_2
    by (intros ->; by apply elem_of_nil in Hmem).
  eexists. split; [reflexivity|]. by apply bulk_groups_lookup.
Qed.
End bulk_entries.

(** With a forced refresh, or with an empty cache, the first loop of
    [bulkSummary] sends every identifier to the server. *)
Lemma partition_all_missing force t0 ids st0 :
  force = true \/ Client.summaryCache st0 = ∅ ->
  foldl (Client.partition_step force t0) st0 ids
  = Client.mkLoop (Client.result st0) (Client.missing st0 ++ ids)
                  (Client.summaryCache st0).
Proof.
  revert st0. induction ids as [|id ids IH]; intros st0 Hcold.
  - destruct st0. cbn. by rewrite app_nil_r.
  - cbn [foldl]. rewrite IH.
    + unfold Client.partition_step. destruct Hcold as [->|Hempty].
      * cbn. by rewrite <- app_assoc.
      * destruct force; [cbn; by rewrite <- app_assoc|].
        unfold Client.readCache. rewrite Hempty, lookup_empty. cbn.
        by rewrite <- app_assoc.
    + unfold Client.partition_step. destruct Hcold as [->|Hempty]; [by left|].
      right. destruct force; [done|].
      unfold Client.readCache. by rewrite Hempty, lookup_empty.
Qed.

Lemma summary_of_summary_obj m c :
  Client.summary_of (Routes.summary_obj m c) = Client.mkSummary m c.
Proof. reflexivity. Qed.

Section bulk_values.
Context `{Library}.

(** An identifier the validator accepts and the constructor keeps as it
    is spelled. *)
Lemma bulk_summary_canonical ids s :
  Forall (fun id => isValidObjectId id = true
                    /\ ObjectId_new id = Some (mkOid id)) ids ->
  exists data,
    Routes.bulk_summary (Some ids) s = (ok [("data", JObj data)], s)
    /\ forall id,
         assoc id data
         = if decide (id ∈ take 300 ids
                      /\ approved_ratings (mkOid id) (db_reviews s) <> [])
           then Some (Routes.summary_obj
                        (fst (aggregate (mkOid id) (db_reviews s)))
                        (snd (aggregate (mkOid id) (db_reviews s))))
           else None.
Proof.
  intros Hcanon.
  assert (Hwf : Forall (fun id => is_Some (ObjectId_new id)) (take 300 ids)).
  { apply Forall_take. eapply Forall_impl; [exact Hcanon|].
    intros id [_ ->]. by eexists. }
  pose proof (bulk_summary_run ids s) as Hrun.
  destruct (parse_all_Some (filter (fun id => isValidObjectId id) (take 300 ids)))
    as [oids Hoids].
  { apply Forall_forall. intros id' Hid'.
    apply list_elem_of_filter in Hid' as [_ Hid']. revert id' Hid'.
    by apply Forall_forall. }
  rewrite Hoids in Hrun.
  assert (Hkeys : forall pid, pid ∈ oids -> hex pid ∈ take 300 ids).
  { intros pid Hp. apply (parse_all_elem _ _ Hoids) in Hp as (id' & Hin & Hnew).
    apply list_elem_of_filter in Hin as [_ Hin].
    assert (Hc : id' ∈ ids) by (eapply subseteq_take; exact Hin).
    apply (proj1 (Forall_forall _ _) Hcanon) in Hc as [_ Hc].
    rewrite Hc in Hnew. injection Hnew as <-. exact Hin. }
  destruct (bool_decide (oids = [])) eqn:Hnil.
  - apply bool_decide_eq_true_1 in Hnil. subst oids.
    exists []. split; [exact Hrun|]. intros id. cbn [assoc].
    rewrite decide_False; [done|]. intros [Hin _].
    assert (Hc : id ∈ ids) by (eapply subseteq_take; exact Hin).
    apply (proj1 (Forall_forall _ _) Hcanon) in Hc as [Hv Hc].
    assert (Hmem : mkOid id ∈ ([] : list ObjectId)).
    { apply (parse_all_elem _ _ Hoids). exists id. split; [|done].
      apply list_elem_of_filter. split; [by rewrite Hv|done]. }
    by apply elem_of_nil in Hmem.
  - eexists. split; [exact Hrun|]. intros id.
    destruct (decide (id ∈ take 300 ids
                      /\ approved_ratings (mkOid id) (db_reviews s) <> []))
      as [[Hin Hsome]|Hno].
    + assert (Hc : id ∈ ids) by (eapply subseteq_take; exact Hin).
      apply (proj1 (Forall_forall _ _) Hcanon) in Hc as [Hv Hc].
      assert (Hmem : mkOid id ∈ oids).
      { apply (parse_all_elem _ _ Hoids). exists id. split; [|done].
        apply list_elem_of_filter. split; [by rewrite Hv|done]. }
      pose proof (bulk_groups_lookup oids (mkOid id) (db_reviews s) Hmem)
        as Hentry.
      cbn [hex] in Hentry. rewrite Hentry. by rewrite decide_False.
    + destruct (assoc id _) as [v|] eqn:Hentry; [exfalso|done].
      destruct (bulk_data_keys id _ (ex_intro _ v Hentry)) as (a & Ha & ->).
      apply Hno. clear Hno.
      apply group_member in Ha as (r & Hr & Hrp).
      apply list_elem_of_filter in Hr as [[Hro Hst] Hr].
      rewrite Hrp in Hro. split; [by apply Hkeys|].
      destruct (g_id a) as [h] eqn:Hg. cbn [hex].
      unfold approved_ratings. intros Hnone. apply fmap_nil_inv in Hnone.
      assert (Hr' : r ∈ filter (approved_of (mkOid h)) (db_reviews s)).
      { apply list_elem_of_filter. split; [|done]. split; [done|done]. }
      rewrite Hnone in Hr'. by apply elem_of_nil in Hr'.
Qed.

(** X11. With a forced refresh or an empty client cache, and identifiers
    in canonical spelling, [bulkSummary] maps each of the first 300
    identifiers to the aggregate of its product: the mean of the approved
    ratings rounded to one decimal and their number. An identifier beyond
    the first 300 is mapped to zeros, whatever reviews its product has. *)
Theorem client_bulk_values ids opts t0 t1 cache srv :
  Forall (fun id => isValidObjectId id = true
                    /\ ObjectId_new id = Some (mkOid id)) ids ->
  Client.force_of opts = true \/ cache = ∅ ->
  exists res cache',
    Client.bulkSummary ids opts t0 t1 cache srv = (Ret res, cache', srv)
    /\ forall id,
         id ∈ ids ->
         res !! id
         = Some (if decide (id ∈ take 300 ids)
                 then Client.mkSummary
                        (fst (aggregate (mkOid id) (db_reviews srv)))
                        (snd (aggregate (mkOid id) (db_reviews srv)))
                 else Client.zero).
Proof.
  intros Hcanon Hcold. unfold Client.bulkSummary.
  rewrite partition_all_missing by exact Hcold.
  cbn [Client.missing Client.result Client.summaryCache app].
  destruct ids as [|id0 ids'] eqn:Hids.
  - eexists _, _. split; [reflexivity|]. intros id Hin.
    by apply elem_of_nil in Hin.
  - rewrite <- Hids in *. unfold Client.post_bulk_summary.
    destruct (bulk_summary_canonical ids srv Hcanon) as (data & -> & Hdata).
    cbn [status ok Nat.leb Nat.ltb andb body].
    change (jget "data" (JObj [("success", JBool true); ("data", JObj data)]))
      with (Some (JObj data)).
    cbn [truthy default from_option id].
    eexists _, _. split; [reflexivity|]. intros id Hin.
    rewrite fallback_spec, resolve_spec, decide_True by done.
    f_equal. unfold Client.entry_of. cbn [jget]. rewrite Hdata.
    destruct (decide (id ∈ take 300 ids)) as [Hfirst|Hlate].
    + destruct (decide (approved_ratings (mkOid id) (db_reviews srv) = []))
        as [Hnone|Hsome].
      * rewrite decide_False by (intros [_ ?]; done).
        unfold aggregate. rewrite Hnone. reflexivity.
      * rewrite decide_True by done. cbn [truthy].
        apply summary_of_summary_obj.
    + rewrite decide_False by (intros [? _]; done). reflexivity.
Qed.
End bulk_values.

Lemma client_bulk_values_witness :
  exists res cache',
    Client.bulkSummary (H := hex_library) [Sample.idA; Sample.idB] None 0 1 ∅
      Sample.shop
    = (Ret res, cache', Sample.shop)
    /\ res !! Sample.idA = Some (Client.mkSummary 4 3).
Proof.
  destruct (client_bulk_values (H := hex_library) [Sample.idA; Sample.idB]
              None 0 1 ∅ Sample.shop)
    as (res & cache' & Hrun & Hval).
  - repeat constructor.
  - by right.
  - exists res, cache'. split; [exact Hrun|].
    rewrite (Hval Sample.idA) by apply list_elem_of_here. reflexivity.
Defined.

Lemma bulk_entry_is_aggregate_witness :
  exists data,
    Routes.bulk_summary (H := hex_library) (Some [Sample.idA; Sample.idB])
      Sample.shop
    = (ok [("data", JObj data)], Sample.shop)
    /\ assoc Sample.idA data = Some (Routes.summary_obj 4 3).
Proof.
  destruct (bulk_entry_is_aggregate (H := hex_library)
              [Sample.idA; Sample.idB] Sample.idA Sample.A Sample.shop)
    as (data & Hrun & Hentry).
  - repeat constructor; by eexists.
  - apply list_elem_of_here.
  - reflexivity.
  - reflexivity.
  - exists data. split; [exact Hrun|]. exact Hentry.
Defined.

(* ===================================================================== *)
(** ** The client: single summaries, creation, the cross-tab signal *)
(* ===================================================================== *)

Lemma summary_of_body_fresh pid rs :
  Service.summary_of_body (body (Routes_fresh pid rs))
  = Client.mkSummary (fst (aggregate pid rs)) (snd (aggregate pid rs)).
Proof. reflexivity. Qed.

Lemma readCache_written (cache : gmap string (Client.CacheEntry Client.ReviewSummary))
    key v ttl t1 t :
  (t <= t1 + ttl)%Z ->
  Client.readCache (Client.writeCache cache key v ttl t1) key t
  = (Some v, Client.writeCache cache key v ttl t1).
Proof.
  intros Ht. unfold Client.readCache, Client.writeCache.
  rewrite lookup_insert_eq. cbn [Client.expires Client.value].
  destruct (Z.gtb_spec t (t1 + ttl)); [lia|done].
Qed.

Section client_summary.
Context `{Library}.

(** A summary the client fetches from a server that has to compute it. *)
Lemma service_summary_run productId pid opts t0 t1 ts cache srv :
  isMongoId productId = true ->
  ObjectId_new productId = Some pid ->
  route_cache srv !! summary_key productId = None ->
  Client.force_of opts = true
  \/ fst (Client.readCache cache productId t0) = None ->
  let out := Client.mkSummary (fst (aggregate pid (db_reviews srv)))
                              (snd (aggregate pid (db_reviews srv))) in
  Service.summary productId opts t0 t1 ts cache srv
  = (Ret out,
     Client.writeCache
       (if Client.force_of opts then cache
        else snd (Client.readCache cache productId t0))
       productId out (Client.ttl_of opts) t1,
     snd (Routes.summary productId ts srv))
  /\ db_reviews (snd (Routes.summary productId ts srv)) = db_reviews srv.
Proof.
  intros Hid Hpid Hmiss Hfetch out. unfold Service.summary.
  assert (Hread : (if Client.force_of opts then (None, cache)
                   else Client.readCache cache productId t0)
                  = (None, if Client.force_of opts then cache
                           else snd (Client.readCache cache productId t0))).
  { destruct (Client.force_of opts); [done|].
    destruct Hfetch as [?|Hnone]; [done|].
    destruct (Client.readCache cache productId t0) as [c c0].
    cbn in Hnone. by subst c. }
  rewrite Hread. unfold Service.get_summary.
  rewrite (summary_miss_run productId pid ts srv Hid Hpid Hmiss).
  cbn [status Routes_fresh ok Nat.leb Nat.ltb andb snd db_reviews].
  rewrite summary_of_body_fresh. by fold out.
Qed.

(** X12. A single summary the client has to fetch (forced, or not in its
    cache) from a server whose own cache has no entry resolves to the
    aggregate of the product: the rounded mean of its approved ratings
    and their number. The value is kept in the client cache: a call
    without [forceRefresh] made up to [ttl] milliseconds after the write
    resolves to the same value without a request, whatever the server
    holds by then. *)
Theorem client_summary_fresh productId pid opts t0 t1 ts cache srv :
  isMongoId productId = true ->
  ObjectId_new productId = Some pid ->
  route_cache srv !! summary_key productId = None ->
  Client.force_of opts = true
  \/ fst (Client.readCache cache productId t0) = None ->
  let out := Client.mkSummary (fst (aggregate pid (db_reviews srv)))
                              (snd (aggregate pid (db_reviews srv))) in
  exists cache' srv',
    Service.summary productId opts t0 t1 ts cache srv = (Ret out, cache', srv')
    /\ db_reviews srv' = db_reviews srv
    /\ forall t t' ts' ttl' srv2,
         (t <= t1 + Client.ttl_of opts)%Z ->
         Service.summary productId
           (Some (Client.mkOpts None ttl')) t t' ts' cache' srv2
         = (Ret out, cache', srv2).
Proof.
  intros Hid Hpid Hmiss Hfetch out.
  destruct (service_summary_run productId pid opts t0 t1 ts cache srv
              Hid Hpid Hmiss Hfetch) as [Hrun Hrs].
  eexists _, _. split; [exact Hrun|]. split; [exact Hrs|].
  intros t t' ts' ttl' srv2 Ht. unfold Service.summary.
  cbn [Client.force_of Client.forceRefresh default from_option].
  by rewrite readCache_written.
Qed.


(** X14. A creation the router turns down rejects with a message chosen
    by the status of the answer, and leaves the client cache, the
    storage and the server as they were: "Invalid review data." when a
    validator fails (the answer carries no message), the server's
    "Product not found" when the product does not exist. *)
Theorem client_create_rejected env newId user payload now tab srv :
  let productId := Service.i_productId payload in
  (Routes.create_errors productId (Service.body_of payload) <> [] ->
   Service.create env newId user payload now tab srv
   = (Service.Rejected "Invalid review data.", tab, srv))
  /\ (forall pid,
        Routes.create_errors productId (Service.body_of payload) = [] ->
        ObjectId_new productId = Some pid ->
        db_products srv !! pid = None ->
        Service.create env newId user payload now tab srv
        = (Service.Rejected "Product not found", tab, srv)).
Proof.
  intros productId. split.
  - intros Herr. unfold Service.create. fold productId.
    by rewrite (create_review_invalid env newId user productId _ srv Herr).
  - intros pid Herr Hpid Hp. unfold Service.create. fold productId.
    by rewrite (create_review_missing_product env newId user productId pid
                  _ srv Herr Hpid Hp).
Qed.
End client_summary.


Lemma client_summary_fresh_witness :
  exists cache' srv',
    Service.summary (H := hex_library) Sample.idA None 0 1 1000 ∅ Sample.shop
    = (Ret (Client.mkSummary 4 3), cache', srv')
    /\ Service.summary (H := hex_library) Sample.idA
         (Some (Client.mkOpts None None)) 30001 30002 5000 cache'
         Sample.approved_shop
       = (Ret (Client.mkSummary 4 3), cache', Sample.approved_shop).
Proof.
  destruct (client_summary_fresh (H := hex_library) Sample.idA Sample.A None
              0 1 1000 ∅ Sample.shop)
    as (cache' & srv' & Hrun & _ & Hlater);
    [reflexivity|reflexivity|reflexivity|by right|].
  exists cache', srv'. split; [exact Hrun|].
  apply Hlater. unfold Client.ttl_of, Client.DEFAULT_TTL. lia.
Defined.


Lemma client_create_rejected_witness :
  Service.create (H := hex_library) Sample.auto Sample.r1 None
    (Service.mkInput Sample.idA 6 None "great product" None None)
    7 (Service.mkTab ∅ ∅) Sample.shop
  = (Service.Rejected "Invalid review data.", Service.mkTab ∅ ∅, Sample.shop).
Proof.
  apply (proj1 (client_create_rejected (H := hex_library) Sample.auto
                  Sample.r1 None
                  (Service.mkInput Sample.idA 6 None "great product" None None)
                  7 (Service.mkTab ∅ ∅) Sample.shop)).
  discriminate.
Defined.

(** *** The cross-tab signal *)

Lemma split_on_nonempty sep s : Service.split_on sep s <> [].
Proof.
  destruct s as [|a s]; [done|]. cbn [Service.split_on].
  destruct (Ascii.eqb a sep); [done|].
  by destruct (Service.split_on sep s).
Qed.

Lemma split_on_no_sep sep s :
  string_forallb (fun a => negb (Ascii.eqb a sep)) s = true ->
  Service.split_on sep s = [s].
Proof.
  induction s as [|a s IH]; [done|]. cbn [Service.split_on string_forallb].
  intros [Ha Hs]%andb_true_iff. apply negb_true_iff in Ha.
  by rewrite Ha, (IH Hs).
Qed.

Lemma split_on_after sep pre s :
  2 <= length (Service.split_on sep (pre +:+ String sep s))
  /\ last (Service.split_on sep (pre +:+ String sep s))
     = last (Service.split_on sep s).
Proof.
  induction pre as [|a pre [IHlen IHlast]].
  - change ("" +:+ String sep s) with (String sep s).
    cbn [Service.split_on]. rewrite Ascii.eqb_refl.
    pose proof (split_on_nonempty sep s).
    destruct (Service.split_on sep s) as [|x l] eqn:E; [done|].
    split; [cbn; lia|done].
  - change (String a pre +:+ String sep s)
      with (String a (pre +:+ String sep s)).
    cbn [Service.split_on]. destruct (Ascii.eqb a sep).
    + destruct (Service.split_on sep (pre +:+ String sep s)) as [|x l] eqn:E;
        [cbn in IHlen; lia|].
      split; [cbn; lia|]. by rewrite <- IHlast.
    + destruct (Service.split_on sep (pre +:+ String sep s)) as [|x [|y l]] eqn:E;
        [cbn in IHlen; lia..|].
      split; [cbn; lia|]. by rewrite <- IHlast.
Qed.

(** X15. The storage item [notifyReviewsChanged] writes for a product
    makes the listener of every other tab drop exactly that product from
    its cache, provided the identifier contains no colon: the listener
    recovers the identifier as the last colon-separated segment of the
    key. *)
Theorem storage_signal_drops_product productId now tab k cache :
  string_forallb (fun a => negb (Ascii.eqb a ":")) productId = true ->
  Service.localStorage (Service.notifyReviewsChanged productId now tab) !! k
  <> Service.localStorage tab !! k ->
  Service.on_storage (Some k) cache = delete productId cache.
Proof.
  intros Hplain Hk.
  assert (k = Service.changed_key productId) as ->.
  { destruct (decide (k = Service.changed_key productId)) as [|Hne]; [done|].
    exfalso. apply Hk. unfold Service.notifyReviewsChanged.
    cbn [Service.localStorage]. by rewrite lookup_insert_ne. }
  unfold Service.on_storage.
  change (Service.changed_key productId)
    with ("reviews:changed" +:+ String ":" productId).
  destruct (split_on_after ":" "reviews:changed" productId) as [_ ->].
  rewrite (split_on_no_sep _ _ Hplain). reflexivity.
Qed.

Lemma storage_signal_drops_product_witness :
  Service.on_storage (Some (Service.changed_key Sample.idA))
    (Client.writeCache ∅ Sample.idA Client.zero 30000 0)
  = delete Sample.idA (Client.writeCache ∅ Sample.idA Client.zero 30000 0).
Proof.
  apply (storage_signal_drops_product Sample.idA 5 (Service.mkTab ∅ ∅));
    [reflexivity|]. vm_compute. discriminate.
Defined.

Section client_reads_router.
Context `{Library}.

(** X27. In every state the server reaches, a single summary the client
    fetches from the router never rejects, and resolves to exactly the
    [averageRating] and the [reviewCount] of the router's answer, be that
    answer computed or taken from the router's cache. *)
Theorem client_summary_reads_router productId pid opts t0 t1 ts cache srv :
  reachable srv ->
  isMongoId productId = true ->
  ObjectId_new productId = Some pid ->
  Client.force_of opts = true
  \/ fst (Client.readCache cache productId t0) = None ->
  exists cached m c cache' srv',
    fst (Routes.summary productId ts srv)
    = ok [("cached", JBool cached); ("data", Routes.summary_obj m c)]
    /\ Service.summary productId opts t0 t1 ts cache srv
       = (Ret (Client.mkSummary m c), cache', srv').
Proof.
  intros Hreach Hid Hpid Hfetch.
  destruct (router_summary_both_spellings productId pid ts srv Hreach Hid Hpid)
    as (cached & m & c & Hres).
  exists cached, m, c. unfold Service.summary.
  assert (Hread : (if Client.force_of opts then (None, cache)
                   else Client.readCache cache productId t0)
                  = (None, if Client.force_of opts then cache
                           else snd (Client.readCache cache productId t0))).
  { destruct (Client.force_of opts); [done|].
    destruct Hfetch as [?|Hnone]; [done|].
    destruct (Client.readCache cache productId t0) as [v c0].
    cbn in Hnone. by subst v. }
  rewrite Hread. unfold Service.get_summary.
  destruct (Routes.summary productId ts srv) as [res srv'].
  cbn [fst] in Hres. subst res.
  eexists _, _. split; [reflexivity|]. reflexivity.
Qed.
End client_reads_router.

Lemma client_summary_reads_router_witness :
  exists cached m c cache' srv',
    fst (Routes.summary (H := hex_library) Sample.idA 2000 Sample.cached_shop)
    = ok [("cached", JBool cached); ("data", Routes.summary_obj m c)]
    /\ Service.summary (H := hex_library) Sample.idA None 0 1 2000 ∅
         Sample.cached_shop
       = (Ret (Client.mkSummary m c), cache', srv').
Proof.
  apply (client_summary_reads_router (H := hex_library) Sample.idA Sample.A
           None 0 1 2000 ∅ Sample.cached_shop).
  - eapply reachable_step; [apply (reachable_start (H := hex_library))|].
    apply (step_summary (H := hex_library)).
  - reflexivity.
  - reflexivity.
  - by right.
Defined.

Section client_list.
Context `{Library}.

(** X28. The service's [list], called with a page and a limit that are
    integers of at most 2^53 - 1 in absolute value, hands on what the
    router's listing answers: for a request that passes the validators
    and whose figures are within [Listing.exact_figures] it resolves to the
    reviews of the page and to the four numbers of the pagination block
    (the page and the limit asked for, the number of approved reviews of
    the product and the number of pages), and it leaves the server as it
    was; a request the validators turn down rejects with the error of a
    400 answer. *)
Theorem client_list_page productId pid page limit sort srv :
  let query := Listing.mkListQuery (Some page) (Some limit) (Some sort) in
  let all := filter (approved_of pid) (db_reviews srv) in
  ObjectId_new productId = Some pid ->
  (Z.abs page <= Listing.MAX_SAFE_INTEGER)%Z ->
  (Z.abs limit <= Listing.MAX_SAFE_INTEGER)%Z ->
  (Listing.list_errors productId query = [] ->
   Listing.exact_figures page limit (length all) ->
   exists items,
     Service.list productId page limit sort srv
     = (Service.Resolved
          (review_json <$> items,
           Service.mkPagination (inject_Z page) (inject_Z limit)
             (of_count (length all))
             (inject_Z (Listing.Math_ceil
                          (of_count (length all) / inject_Z limit)))),
        srv)
     /\ items ⊆+ all
     /\ (Z.of_nat (length items) <= limit)%Z)
  /\ (Listing.list_errors productId query <> [] ->
      Service.list productId page limit sort srv
      = (Service.Rejected "Request failed with status code 400", srv)).
Proof.
  intros query all Hpid _ _. split.
  - intros Herr _.
    pose proof (list_reviews_run productId pid query srv Herr Hpid) as Hrun.
    destruct (list_errors_nil productId query Herr) as (_ & Hp & Hl & _ & Hl1).
    cbv zeta in Hrun. rewrite Hp, Hl in Hrun. rewrite Hl in Hl1.
    cbn [Listing.number_default Listing.q_page Listing.q_limit query] in Hrun, Hl1.
    eexists. split; [|split].
    + unfold Service.list. fold query. rewrite Hrun. reflexivity.
    + etrans; [|apply Permutation_submseteq,
                  (sort_reviews_Permutation (Listing.route_sort query))].
      apply sublist_submseteq.
      etrans; [apply sublist_take|apply sublist_drop].
    + rewrite length_take. lia.
  - intros Herr. unfold Service.list, Listing.list_reviews. fold query.
    rewrite bool_decide_eq_false_2 by done. reflexivity.
Qed.
End client_list.

Lemma client_list_page_witness :
  exists items,
    Service.list (H := hex_library) Sample.idA 1 2 "new" Sample.shop
    = (Service.Resolved (review_json <$> items, Service.mkPagination 1 2 3 2),
       Sample.shop)
    /\ length items = 2.
Proof.
  assert (Hsafe : forall n : Z, (Z.abs n <= 2)%Z ->
                           (Z.abs n <= Listing.MAX_SAFE_INTEGER)%Z)
    by (unfold Listing.MAX_SAFE_INTEGER; lia).
  destruct (proj1 (client_list_page (H := hex_library) Sample.idA Sample.A
                     1 2 "new" Sample.shop eq_refl
                     (Hsafe 1%Z ltac:(lia)) (Hsafe 2%Z ltac:(lia)))
              eq_refl ltac:(by split; vm_compute))
    as (items & Hrun & _ & _).
  exists items. split; [exact Hrun|].
  vm_compute in Hrun. injection Hrun as Hrun.
  by destruct items as [|? [|? [|? ?]]].
Defined.

(* ===================================================================== *)
(** ** Discounts *)
(* ===================================================================== *)

Lemma Math_round_ge (x : Q) (n : Z) :
  (n <= Math_round x)%Z <-> (inject_Z n - (1 # 2) <= x)%Q.
Proof.
  unfold Math_round. split.
  - intros Hn. pose proof (Qfloor_le (x + (1 # 2))) as Hf.
    assert (inject_Z n <= inject_Z (Qfloor (x + (1 # 2))))%Q
      by (rewrite <- Zle_Qle; exact Hn).
    lra.
  - intros Hx. rewrite <- (Qfloor_Z n). apply Qfloor_resp_le. lra.
Qed.

Lemma Math_round_le (x : Q) (n : Z) :
  (x < inject_Z n + (1 # 2))%Q -> (Math_round x <= n)%Z.
Proof.
  intros Hx. destruct (Z_le_gt_dec (Math_round x) n) as [|Hgt]; [done|].
  assert (Hge : (n + 1 <= Math_round x)%Z) by lia.
  apply Math_round_ge in Hge. rewrite inject_Z_plus in Hge.
  change (inject_Z 1) with 1%Q in Hge. lra.
Qed.

(** The quotient of the discount: between 0 and 1 when the price is
    positive and below the compare price. *)
Lemma discount_quotient (cmp price : Q) :
  (0 < price)%Q -> (price < cmp)%Q ->
  (0 < (cmp - price) / cmp)%Q /\ ((cmp - price) / cmp < 1)%Q.
Proof.
  intros Hp Hc. split.
  - apply Qlt_shift_div_l; lra.
  - apply Qlt_shift_div_r; lra.
Qed.

(** X16. The discount of a product whose price is not negative is a
    whole percentage between 0 and 100, and it is 0 unless the price is
    below the compare price (the original price, or else the compare-at
    price). *)
Theorem discountPercent_range price originalPrice compareAtPrice :
  (0 <= price)%Q ->
  let d := ProductModel.discountPercent price originalPrice compareAtPrice in
  (0 <= d <= 100)%Z
  /\ (d <> 0%Z ->
      (price < ProductModel.compare_price originalPrice compareAtPrice)%Q).
Proof.
  intros Hprice d. unfold d, ProductModel.discountPercent.
  set (cmp := ProductModel.compare_price originalPrice compareAtPrice).
  destruct (num_truthy cmp) eqn:Hc; [|cbn; split; [lia|done]].
  destruct (num_truthy price) eqn:Hp; [|cbn; split; [lia|done]].
  destruct (Qle_bool cmp price) eqn:Hle; [cbn; split; [lia|done]|].
  cbn [negb orb].
  assert (Hlt : (price < cmp)%Q).
  { apply Qnot_le_lt. intros Hq. apply Qle_bool_iff in Hq. congruence. }
  assert (Hpos : (0 < price)%Q).
  { unfold num_truthy in Hp. apply negb_true_iff in Hp.
    destruct (Qeq_dec price 0) as [E|Hne];
      [apply Qeq_bool_iff in E; congruence|].
    destruct (Qlt_le_dec 0 price) as [|Hle0]; [done|].
    exfalso. apply Hne. lra. }
  destruct (discount_quotient cmp price Hpos Hlt) as [Hq0 Hq1].
  split; [split|done].
  - apply Math_round_ge. change (inject_Z 0) with 0%Q. lra.
  - apply Math_round_le. change (inject_Z 100) with 100%Q. lra.
Qed.


Lemma discountPercent_range_witness :
  ProductModel.discountPercent 850 (Some 1000%Q) None = 15%Z
  /\ (0 <= ProductModel.discountPercent 850 (Some 1000%Q) None <= 100)%Z.
Proof.
  split; [reflexivity|].
  apply (discountPercent_range 850 (Some 1000%Q) None). unfold Qle. cbn. lia.
Defined.

(* ===================================================================== *)
(** ** Slugs *)
(* ===================================================================== *)

Lemma hyphen_not_alnum : Categories.is_alnum Categories.hyphen = false.
Proof. reflexivity. Qed.

Lemma hyphenate_from_chars b s :
  string_forallb Categories.slug_char (Categories.hyphenate_from b s) = true.
Proof.
  revert b. induction s as [|a s IH]; intros b; [done|].
  cbn [Categories.hyphenate_from].
  destruct (Categories.is_alnum a) eqn:Ha.
  - cbn [string_forallb]. unfold Categories.slug_char at 1.
    by rewrite Ha, IH.
  - destruct b; [apply IH|]. cbn [string_forallb]. by rewrite IH.
Qed.

Lemma hyphenate_from_pairs b s :
  Categories.no_hyphen_pair (Categories.hyphenate_from b s) = true
  /\ (b = true ->
      Categories.starts_with_hyphen (Categories.hyphenate_from b s) = false).
Proof.
  revert b. induction s as [|a s IH]; intros b; [done|].
  cbn [Categories.hyphenate_from].
  destruct (Categories.is_alnum a) eqn:Ha.
  - destruct (IH false) as [IH1 _]. cbn [Categories.no_hyphen_pair].
    assert (Hne : Ascii.eqb a Categories.hyphen = false).
    { destruct (Ascii.eqb_spec a Categories.hyphen) as [->|]; [|done].
      by rewrite hyphen_not_alnum in Ha. }
    rewrite Hne, IH1. split; [done|]. intros _. exact Hne.
  - destruct b.
    + apply IH.
    + destruct (IH true) as [IH1 IH2]. cbn [Categories.no_hyphen_pair].
      rewrite IH1, (IH2 eq_refl). split; [by rewrite andb_false_r|done].
Qed.

Lemma drop_last_hyphen_spec s :
  string_forallb Categories.slug_char s = true ->
  Categories.no_hyphen_pair s = true ->
  let t := Categories.drop_last_hyphen s in
  string_forallb Categories.slug_char t = true
  /\ Categories.no_hyphen_pair t = true
  /\ Categories.ends_with_hyphen t = false
  /\ (Categories.starts_with_hyphen s = false ->
      Categories.starts_with_hyphen t = false).
Proof.
  induction s as [|a s IH]; [done|]. intros Hch Hp.
  cbn [string_forallb] in Hch. apply andb_true_iff in Hch as [Ha Hch].
  cbn [Categories.no_hyphen_pair] in Hp. apply andb_true_iff in Hp as [Hpa Hp].
  destruct s as [|b s].
  - cbn. destruct (Ascii.eqb a Categories.hyphen) eqn:E; [done|].
    cbn. by rewrite Ha, E.
  - destruct (IH Hch Hp) as (IH1 & IH2 & IH3 & IH4).
    change (Categories.drop_last_hyphen (String a (String b s)))
      with (String a (Categories.drop_last_hyphen (String b s))).
    cbv zeta. set (t := Categories.drop_last_hyphen (String b s)) in *.
    cbn [string_forallb Categories.no_hyphen_pair
         Categories.starts_with_hyphen].
    rewrite Ha, IH1, IH2. cbn [andb].
    assert (Hend : Categories.ends_with_hyphen (String a t) = false).
    { destruct t as [|c t'] eqn:Et; [|exact IH3].
      cbn. destruct (Ascii.eqb a Categories.hyphen) eqn:E; [|done].
      (* a hyphen, and the rest was a single hyphen: a pair *)
      exfalso. cbn [andb negb] in Hpa.
      apply negb_true_iff in Hpa. unfold t in Et.
      destruct s as [|c s'].
      - cbn [Categories.drop_last_hyphen] in Et.
        cbn [Categories.starts_with_hyphen] in Hpa. by rewrite Hpa in Et.
      - change (Categories.drop_last_hyphen (String b (String c s')))
          with (String b (Categories.drop_last_hyphen (String c s'))) in Et.
        done. }
    rewrite Hend. split; [done|]. split; [|done].
    destruct (Ascii.eqb a Categories.hyphen) eqn:E; [|done].
    cbn [andb] in *.
    apply negb_true_iff in Hpa. by rewrite (IH4 Hpa).
Qed.

(** What the two replacements leave of any string. *)
Lemma strip_hyphenate_shape s :
  let t := Categories.strip_hyphens (Categories.hyphenate s) in
  string_forallb Categories.slug_char t = true
  /\ Categories.starts_with_hyphen t = false
  /\ Categories.ends_with_hyphen t = false
  /\ Categories.no_hyphen_pair t = true.
Proof.
  unfold Categories.strip_hyphens, Categories.hyphenate.
  pose proof (hyphenate_from_chars false s) as Hch.
  destruct (hyphenate_from_pairs false s) as [Hp _].
  destruct (Categories.hyphenate_from false s) as [|a h]; [done|].
  cbn [string_forallb] in Hch. apply andb_true_iff in Hch as [Ha Hch].
  pose proof Hp as Hp0.
  cbn [Categories.no_hyphen_pair] in Hp. apply andb_true_iff in Hp as [Hpa Hp].
  destruct (Ascii.eqb a Categories.hyphen) eqn:E.
  - cbn [andb] in Hpa. apply negb_true_iff in Hpa.
    destruct (drop_last_hyphen_spec h Hch Hp) as (H1 & H2 & H3 & H4).
    cbv zeta. by rewrite H1, H2, H3, (H4 Hpa).
  - destruct (drop_last_hyphen_spec (String a h)) as (H1 & H2 & H3 & H4).
    { cbn [string_forallb]. by rewrite Ha, Hch. }
    { exact Hp0. }
    cbv zeta. rewrite H1, H2, H3, H4; [done|]. exact E.
Qed.

(** X18. A slug consists of lower-case letters, digits and hyphens, does
    not start or end with a hyphen, and has no two hyphens in a row. *)
Theorem slugify_shape s :
  let t := Categories.slugify s in
  string_forallb Categories.slug_char t = true
  /\ Categories.starts_with_hyphen t = false
  /\ Categories.ends_with_hyphen t = false
  /\ Categories.no_hyphen_pair t = true.
Proof. apply strip_hyphenate_shape. Qed.

Lemma slug_char_plain a :
  Categories.slug_char a = true -> lower a = a /\ is_space a = false.
Proof.
  destruct a as [[] [] [] [] [] [] [] []]; vm_compute; intros; done.
Qed.

Lemma slug_char_cases a :
  Categories.slug_char a = true ->
  Categories.is_alnum a = true \/ a = Categories.hyphen.
Proof.
  unfold Categories.slug_char. intros [?|E]%orb_true_iff; [by left|right].
  by apply Ascii.eqb_eq.
Qed.

Lemma lowercase_slug t :
  string_forallb Categories.slug_char t = true -> lowercase t = t.
Proof.
  induction t as [|a t IH]; [done|]. cbn [string_forallb lowercase].
  intros [Ha Ht]%andb_true_iff.
  by rewrite (proj1 (slug_char_plain a Ha)), (IH Ht).
Qed.

Lemma rev_app_chars f s t :
  string_forallb f s = true -> string_forallb f t = true ->
  string_forallb f (String.rev_app s t) = true.
Proof.
  revert t. induction s as [|a s IH]; intros t Hs Ht; [done|].
  cbn [string_forallb] in Hs. apply andb_true_iff in Hs as [Ha Hs].
  cbn [String.rev_app]. apply IH; [done|]. cbn [string_forallb].
  by rewrite Ha, Ht.
Qed.

Lemma append_nil_r (s : string) : s +:+ "" = s.
Proof.
  induction s as [|a s IH]; [done|].
  change (String a s +:+ "") with (String a (s +:+ "")). by rewrite IH.
Qed.

Lemma rev_app_rev_app s t u :
  String.rev_app (String.rev_app s t) u = String.rev_app t (s +:+ u).
Proof.
  revert t. induction s as [|a s IH]; intros t; [done|].
  cbn [String.rev_app]. rewrite IH. reflexivity.
Qed.

Lemma trim_start_plain s :
  string_forallb (fun a => negb (is_space a)) s = true -> trim_start s = s.
Proof.
  destruct s as [|a s]; [done|]. cbn [string_forallb trim_start].
  intros [Ha _]%andb_true_iff. apply negb_true_iff in Ha. by rewrite Ha.
Qed.

(** Trimming a string without white space changes nothing. *)
Lemma trim_plain s :
  string_forallb (fun a => negb (is_space a)) s = true -> trim s = s.
Proof.
  intros Hs. unfold trim. rewrite (trim_start_plain s Hs).
  rewrite trim_start_plain by (by apply rev_app_chars).
  unfold String.rev. rewrite rev_app_rev_app. cbn [String.rev_app].
  apply append_nil_r.
Qed.

Lemma slug_no_space t :
  string_forallb Categories.slug_char t = true ->
  string_forallb (fun a => negb (is_space a)) t = true.
Proof.
  induction t as [|a t IH]; [done|]. cbn [string_forallb].
  intros [Ha Ht]%andb_true_iff.
  by rewrite (proj2 (slug_char_plain a Ha)), (IH Ht).
Qed.

Lemma hyphenate_from_slug b t :
  string_forallb Categories.slug_char t = true ->
  Categories.no_hyphen_pair t = true ->
  (b = true -> Categories.starts_with_hyphen t = false) ->
  Categories.hyphenate_from b t = t.
Proof.
  revert b. induction t as [|a t IH]; intros b Hch Hp Hb; [done|].
  cbn [string_forallb] in Hch. apply andb_true_iff in Hch as [Ha Hch].
  cbn [Categories.no_hyphen_pair] in Hp. apply andb_true_iff in Hp as [Hpa Hp].
  cbn [Categories.hyphenate_from].
  destruct (slug_char_cases a Ha) as [Hal| ->].
  - rewrite Hal. by rewrite (IH false Hch Hp).
  - rewrite hyphen_not_alnum. rewrite Ascii.eqb_refl in Hpa.
    cbn [andb] in Hpa. apply negb_true_iff in Hpa.
    destruct b.
    + specialize (Hb eq_refl). cbn in Hb. done.
    + by rewrite (IH true Hch Hp (fun _ => Hpa)).
Qed.

Lemma drop_last_hyphen_slug t :
  Categories.ends_with_hyphen t = false -> Categories.drop_last_hyphen t = t.
Proof.
  induction t as [|a t IH]; [done|]. destruct t as [|b t].
  - cbn. by intros ->.
  - intros He.
    change (Categories.drop_last_hyphen (String a (String b t)))
      with (String a (Categories.drop_last_hyphen (String b t))).
    by rewrite IH.
Qed.

(** X19. [slugify] is idempotent: the slug of a slug is the slug
    itself. *)
Theorem slugify_idempotent s :
  Categories.slugify (Some (Categories.slugify s)) = Categories.slugify s.
Proof.
  destruct (strip_hyphenate_shape (trim (lowercase (str_or_empty s))))
    as (Hch & Hs & He & Hp).
  fold (Categories.slugify s) in Hch, Hs, He, Hp.
  set (t := Categories.slugify s) in *.
  unfold Categories.slugify at 1. cbn [str_or_empty].
  rewrite (lowercase_slug t Hch), (trim_plain t (slug_no_space t Hch)).
  unfold Categories.hyphenate.
  rewrite (hyphenate_from_slug false t Hch Hp) by done.
  unfold Categories.strip_hyphens.
  destruct t as [|a t']; [done|].
  cbn [Categories.starts_with_hyphen] in Hs. rewrite Hs.
  by apply drop_last_hyphen_slug.
Qed.

(* ===================================================================== *)
(** ** Category tables *)
(* ===================================================================== *)

(** X20. No two category names share a slug: [CATEGORY_MAP] has one
    entry for each of the twelve names, and looking up the slug of a name
    gives the name back. *)
Theorem category_map_round_trip name :
  name ∈ Categories.CATEGORY_NAMES ->
  assoc (Categories.slugify (Some name)) Categories.CATEGORY_MAP = Some name
  /\ length Categories.CATEGORY_MAP = length Categories.CATEGORY_NAMES.
Proof.
  intros Hin. split; [|by vm_compute].
  unfold Categories.CATEGORY_NAMES in Hin.
  repeat (apply elem_of_cons in Hin as [->|Hin]; [by vm_compute|]).
  by apply elem_of_nil in Hin.
Qed.

(** X21. The category written to the URL is read back as the category
    selected, for every name of the table but one: the slug of
    "Integrated Circuits & Chips" is spelled [ICs], the URL parameter is
    lower-cased before the lookup, and the alias table has no key [ics],
    so that this category is read back as no category. *)
Theorem category_url_round_trip name slug :
  assoc name Categories.NAME_TO_SLUG = Some slug ->
  Categories.nextSlug name = slug
  /\ Categories.normalizedFromUrl (Some slug)
     = if String.eqb name "Integrated Circuits & Chips" then EmptyString
       else name.
Proof.
  unfold Categories.NAME_TO_SLUG. cbn [assoc].
  repeat match goal with
         | |- context [String.eqb name ?k] =>
             destruct (String.eqb_spec name k) as [->|_];
             [intros [= <-]; by vm_compute|]
         end.
  done.
Qed.

Lemma category_map_round_trip_witness :
  assoc "integrated-circuits-chips" Categories.CATEGORY_MAP
  = Some "Integrated Circuits & Chips".
Proof.
  apply (category_map_round_trip "Integrated Circuits & Chips").
  vm_compute. repeat first [apply list_elem_of_here | apply list_elem_of_further].
Defined.

Lemma category_url_round_trip_witness :
  Categories.normalizedFromUrl (Some "power-banks") = "Power Banks"
  /\ Categories.normalizedFromUrl (Some "ICs") = "".
Proof.
  split.
  - apply (category_url_round_trip "Power Banks" "power-banks"). reflexivity.
  - apply (category_url_round_trip "Integrated Circuits & Chips" "ICs").
    reflexivity.
Defined.

(** X29. The discount the OEM page computes from a price and an original
    price is the model's [discountPercent] of a product with these two
    prices; in general the model's discount is the page's function
    applied to the compare price, so that for a product without original
    price the page shows 0 where the model falls back on the compare-at
    price. *)
Theorem priceOffPct_agrees price originalPrice compareAtPrice :
  ProductModel.discountPercent price originalPrice compareAtPrice
  = priceOffPct (Some price)
      (Some (ProductModel.compare_price originalPrice compareAtPrice))
  /\ (forall original,
        originalPrice = Some original ->
        priceOffPct (Some price) originalPrice
        = ProductModel.discountPercent price originalPrice compareAtPrice)
  /\ priceOffPct (Some price) None = 0%Z.
Proof.
  assert (Hgen : forall cmp,
    (if negb (num_truthy cmp) || negb (num_truthy price) || Qle_bool cmp price
     then 0%Z else Math_round ((cmp - price) / cmp * 100)%Q)
    = priceOffPct (Some price) (Some cmp)).
  { intros cmp. unfold priceOffPct.
    by destruct (num_truthy cmp), (num_truthy price), (Qle_bool cmp price). }
  split; [apply Hgen|]. split; [|done].
  intros original ->. symmetry. apply Hgen.
Qed.

(* ===================================================================== *)
(** ** The cart: stock cap, lines, cache *)
(* ===================================================================== *)

Lemma Math_max_spec a b :
  (a <= Cart.Math_max a b)%Q /\ (b <= Cart.Math_max a b)%Q.
Proof.
  unfold Cart.Math_max. destruct (Qle_bool a b) eqn:E.
  - apply Qle_bool_iff in E. split; [done|apply Qle_refl].
  - split; [apply Qle_refl|]. apply Qlt_le_weak, Qnot_le_lt.
    intros Hle. apply Qle_bool_iff in Hle. congruence.
Qed.

Lemma Math_min_spec a b :
  (Cart.Math_min a b <= a)%Q /\ (Cart.Math_min a b <= b)%Q
  /\ (Cart.Math_min a b = a \/ Cart.Math_min a b = b).
Proof.
  unfold Cart.Math_min. destruct (Qle_bool a b) eqn:E.
  - apply Qle_bool_iff in E. split; [apply Qle_refl|]. split; [done|by left].
  - split; [|split; [apply Qle_refl|by right]].
    apply Qlt_le_weak, Qnot_le_lt.
    intros Hle. apply Qle_bool_iff in Hle. congruence.
Qed.

Lemma Math_min_ge c a b :
  (c <= a)%Q -> (c <= b)%Q -> (c <= Cart.Math_min a b)%Q.
Proof. intros. by destruct (Math_min_spec a b) as (_ & _ & [-> | ->]). Qed.

Lemma wanted_ge quantity : (1 <= Cart.wanted quantity)%Q.
Proof. unfold Cart.wanted. apply Math_max_spec. Qed.

Lemma findIndex_Some id items k :
  Cart.findIndex id items = Some k ->
  exists i, items !! k = Some i /\ hex (Cart.ci_productId i) = id.
Proof.
  revert k. induction items as [|i items IH]; intros k; [done|].
  cbn [Cart.findIndex].
  destruct (String.eqb_spec (hex (Cart.ci_productId i)) id) as [E|_].
  - intros [= <-]. by exists i.
  - destruct (Cart.findIndex id items) as [k'|]; [|done].
    intros [= <-]. apply (IH k' eq_refl).
Qed.

Lemma findIndex_None id items :
  Cart.findIndex id items = None ->
  Forall (fun i => hex (Cart.ci_productId i) <> id) items.
Proof.
  induction items as [|i items IH]; [by constructor|].
  cbn [Cart.findIndex].
  destruct (String.eqb_spec (hex (Cart.ci_productId i)) id) as [E|Hne]; [done|].
  destruct (Cart.findIndex id items); [done|]. intros _. by constructor; [|apply IH].
Qed.

Lemma set_line_ids k q p items :
  Cart.ci_productId <$> Cart.set_line k q p items = Cart.ci_productId <$> items.
Proof.
  unfold Cart.set_line.
  rewrite (list_fmap_alter Cart.ci_productId _ (fun x => x)).
  - by apply list_alter_id.
  - by apply Forall_forall.
Qed.

Lemma cart_key_inj u u' : Cart.cart_key u = Cart.cart_key u' -> u = u'.
Proof. unfold Cart.cart_key. intros E. by injection E. Qed.

(** The lines [addToCart] builds. *)
Lemma added_spec cart pid p quantity items' :
  (1 <= Cart.stock_of p)%Q ->
  (forall items, cart = Some items -> Cart.cart_ok items) ->
  Cart.added cart pid p quantity = inr items' ->
  Cart.cart_ok items'
  /\ exists k i,
       items' !! k = Some i
       /\ Cart.ci_productId i = pid
       /\ Cart.ci_price i = Cart.cp_price p
       /\ (1 <= Cart.ci_quantity i <= Cart.stock_of p)%Q
       /\ (forall items j,
             cart = Some items -> j <> k -> items' !! j = items !! j)
       /\ match cart ≫= (fun items => items !! k) with
          | Some old =>
              Cart.ci_productId old = pid
              /\ Cart.ci_quantity i
                 = Cart.Math_min (Cart.ci_quantity old + Cart.wanted quantity)
                                 (Cart.stock_of p)
          | None =>
              Cart.ci_quantity i
              = Cart.Math_min (Cart.wanted quantity) (Cart.stock_of p)
          end.
Proof.
  intros Hstock Hok. unfold Cart.added.
  pose proof (wanted_ge quantity) as Hw.
  destruct cart as [items|].
  - specialize (Hok items eq_refl). destruct Hok as [Hnd Hq].
    destruct (Cart.findIndex (hex pid) items) as [k|] eqn:Hfind.
    + destruct (findIndex_Some _ _ _ Hfind) as (old & Hold & Hhex).
      apply hex_inj in Hhex. rewrite Hold.
      set (allowed := Cart.Math_min (Cart.ci_quantity old + Cart.wanted quantity)
                        (Cart.stock_of p)).
      destruct (Qeq_bool allowed (Cart.ci_quantity old)); [done|].
      intros [= <-].
      assert (Hold1 : (1 <= Cart.ci_quantity old)%Q).
      { apply (proj1 (Forall_forall _ _) Hq old).
        by apply list_elem_of_lookup_2 in Hold. }
      assert (Hall : (1 <= allowed <= Cart.stock_of p)%Q).
      { split; [apply Math_min_ge; [lra|done]|apply Math_min_spec]. }
      split.
      * split; [by rewrite set_line_ids|].
        apply Forall_alter; [done|]. intros x _ _. cbn. apply Hall.
      * exists k, (Cart.mkItem (Cart.ci_productId old) allowed (Cart.cp_price p)).
        unfold Cart.set_line. rewrite list_lookup_alter_eq, Hold.
        split; [done|]. split; [done|]. split; [done|]. split; [exact Hall|].
        split.
        -- intros items0 j [= <-] Hj. by rewrite list_lookup_alter_ne.
        -- cbn. rewrite Hold. done.
    + pose proof (findIndex_None _ _ Hfind) as Hnone.
      set (allowed := Cart.Math_min (Cart.wanted quantity) (Cart.stock_of p)).
      destruct (Qle_bool 1 allowed) eqn:Hle; [|done]. cbn [negb].
      intros [= <-]. apply Qle_bool_iff in Hle.
      assert (Hall : (1 <= allowed <= Cart.stock_of p)%Q)
        by (split; [done|apply Math_min_spec]).
      split.
      * split.
        -- rewrite fmap_app. apply NoDup_app. split; [done|].
           split; [|apply NoDup_singleton].
           intros x Hx Hx'. apply list_elem_of_singleton in Hx'. subst x.
           apply list_elem_of_fmap in Hx as (i & Hi & Hin).
           apply (proj1 (Forall_forall _ _) Hnone i Hin). by rewrite <- Hi.
        -- apply Forall_app. split; [done|]. by repeat constructor.
      * exists (length items), (Cart.mkItem pid allowed (Cart.cp_price p)).
        rewrite lookup_app_r, Nat.sub_diag by done.
        split; [done|]. split; [done|]. split; [done|]. split; [exact Hall|].
        split.
        -- intros items0 j [= <-] Hj.
           destruct (decide (j < length items)) as [Hlt|Hge].
           ++ by rewrite lookup_app_l.
           ++ rewrite lookup_ge_None_2, lookup_ge_None_2; [done|lia|].
              rewrite length_app. cbn. lia.
        -- cbn. by rewrite lookup_ge_None_2.
  - set (allowed := Cart.Math_min (Cart.wanted quantity) (Cart.stock_of p)).
    destruct (Qle_bool 1 allowed) eqn:Hle; [|done]. cbn [negb].
    intros [= <-]. apply Qle_bool_iff in Hle.
    assert (Hall : (1 <= allowed <= Cart.stock_of p)%Q)
      by (split; [done|apply Math_min_spec]).
    split.
    + split; [apply NoDup_singleton|by repeat constructor].
    + exists 0, (Cart.mkItem pid allowed (Cart.cp_price p)).
      repeat split; try done; apply Hall.
Qed.

Lemma added_inl cart pid p quantity a :
  Cart.added cart pid p quantity = inl a -> Cart.a_status a = 400.
Proof.
  unfold Cart.added.
  repeat match goal with
         | |- context [match ?x with _ => _ end] => destruct x
         end; intros E; by simplify_eq.
Qed.

Section cart.
Context `{Library} `{Cart.CartLibrary}.

Lemma lookup_product_state productId st :
  snd (Cart.lookup_product productId st) = st.
Proof.
  unfold Cart.lookup_product, Cart.Product_findById_str.
  destruct (Cart.ObjectId_isValid productId); [|done].
  by destruct (ObjectId_new productId).
Qed.

(** The outcome of [addToCart]: the store as it was and an answer other
    than 200, or the lines built by [added] stored for the user and the
    user's cache entry dropped. *)
Lemma addToCart_run user productId quantity st :
  let res := Cart.addToCart user productId quantity st in
  (snd res = st /\ Cart.a_status (fst res) <> 200)
  \/ exists pid p items',
       user <> None
       /\ Cart.lookup_product (str_or_empty productId) st
          = (Ret (Some (pid, p)), st)
       /\ (1 <= Cart.stock_of p)%Q
       /\ Cart.added (Cart.carts st !! str_or_empty user) pid p quantity
          = inr items'
       /\ res = (Cart.mkAnswer 200 (Some "Item added to cart successfully")
                   (Some (Cart.populate (Cart.products st) items')) None,
                 Cart.set_cache
                   (delete (Cart.cart_key (str_or_empty user)) (Cart.cartCache st))
                   (Cart.set_carts
                      (<[str_or_empty user := items']> (Cart.carts st)) st)).
Proof.
  intros res. unfold res, Cart.addToCart, Cart.guarded.
  destruct (String.eqb (str_or_empty productId) "" || String.eqb (str_or_empty user) "")
    eqn:Hargs; [by left|].
  pose proof (lookup_product_state (str_or_empty productId) st) as Hst.
  destruct (Cart.lookup_product (str_or_empty productId) st) as [[product|] st0];
    cbn [snd] in Hst; subst st0; [|by left].
  destruct product as [[pid p]|]; [|by left].
  destruct (negb (Cart.cp_isActive p) || negb (Cart.cp_inStock p)); [by left|].
  destruct (Qle_bool 1 (Cart.stock_of p)) eqn:Hstock; [|by left].
  cbn [negb]. apply Qle_bool_iff in Hstock.
  destruct (Cart.added _ pid p quantity) as [a|items'] eqn:Hadded.
  - left. split; [done|]. cbn [fst].
    by rewrite (added_inl _ _ _ _ _ Hadded).
  - right. exists pid, p, items'. repeat split; try done.
    intros ->. cbn in Hargs. by rewrite orb_true_r in Hargs.
Qed.


(** The outcome of [updateCartItem]. *)
Lemma updateCartItem_run userId productId quantity st :
  let res := Cart.updateCartItem userId productId quantity st in
  (snd res = st /\ Cart.a_status (fst res) <> 200)
  \/ exists items k old pid p,
       Cart.carts st !! userId = Some items
       /\ items !! k = Some old
       /\ hex (Cart.ci_productId old) = productId
       /\ ObjectId_new productId = Some pid
       /\ Cart.find_product pid (Cart.products st) = Some p
       /\ (1 <= Cart.stock_of p)%Q
       /\ let items' :=
            Cart.set_line k (Cart.Math_min (Cart.wanted quantity) (Cart.stock_of p))
              (Cart.cp_price p) items in
          res = (Cart.mkAnswer 200 (Some "Cart updated")
                   (Some (Cart.populate (Cart.products st) items')) None,
                 Cart.set_cache
                   (delete (Cart.cart_key userId) (Cart.cartCache st))
                   (Cart.set_carts (<[userId := items']> (Cart.carts st)) st)).
Proof.
  intros res. unfold res, Cart.updateCartItem, Cart.guarded,
    Cart.Product_findById_str.
  destruct (Cart.carts st !! userId) as [items|] eqn:Hcart; [|by left].
  destruct (Cart.findIndex productId items) as [k|] eqn:Hfind; [|by left].
  destruct (findIndex_Some _ _ _ Hfind) as (old & Hold & Hhex).
  destruct (ObjectId_new productId) as [pid|] eqn:Hpid; [|by left].
  destruct (Cart.find_product pid (Cart.products st)) as [p|] eqn:Hp;
    [|by left].
  cbn [fmap option_fmap option_map].
  destruct (negb (Cart.cp_isActive p) || negb (Cart.cp_inStock p)); [by left|].
  destruct (Qle_bool 1 (Cart.stock_of p)) eqn:Hstock; [|by left].
  cbn [negb]. apply Qle_bool_iff in Hstock.
  right. by exists items, k, old, pid, p.
Qed.

(** X23. An [addToCart] or an [updateCartItem] that does not answer 200
    leaves the store as it was: carts, products and cache. *)
Theorem cart_rejection_changes_nothing user userId productId productId' quantity st :
  (Cart.a_status (fst (Cart.addToCart user productId quantity st)) <> 200 ->
   snd (Cart.addToCart user productId quantity st) = st)
  /\ (Cart.a_status (fst (Cart.updateCartItem userId productId' quantity st))
      <> 200 ->
      snd (Cart.updateCartItem userId productId' quantity st) = st).
Proof.
  split.
  - intros Hne.
    destruct (addToCart_run user productId quantity st)
      as [[Hst _]|(pid & p & items' & _ & _ & _ & _ & Hres)]; [done|].
    rewrite Hres in Hne. done.
  - intros Hne.
    destruct (updateCartItem_run userId productId' quantity st)
      as [[Hst _]|(items & k & old & pid & p & _ & _ & _ & _ & _ & _ & Hres)];
      [done|].
    cbv zeta in Hres. rewrite Hres in Hne. done.
Qed.

(** X24. When [updateCartItem] answers 200, the line of the product
    holds the quantity asked for (at least 1), capped by the product's
    stock, and the product's price; the other lines are as they were and
    the user's cache entry is dropped. *)
Theorem updateCartItem_sets_quantity userId productId quantity st a st' :
  Cart.updateCartItem userId productId quantity st = (a, st') ->
  Cart.a_status a = 200 ->
  exists items k old pid p,
    Cart.carts st !! userId = Some items
    /\ items !! k = Some old
    /\ hex (Cart.ci_productId old) = productId
    /\ ObjectId_new productId = Some pid
    /\ Cart.find_product pid (Cart.products st) = Some p
    /\ let q := Cart.Math_min (Cart.wanted quantity) (Cart.stock_of p) in
       (1 <= q <= Cart.stock_of p)%Q
       /\ Cart.carts st' !! userId
          = Some (<[k := Cart.mkItem (Cart.ci_productId old) q (Cart.cp_price p)]>
                    items)
       /\ Cart.cartCache st' !! Cart.cart_key userId = None.
Proof.
  intros Hrun Hstatus.
  destruct (updateCartItem_run userId productId quantity st)
    as [[_ Hne]|(items & k & old & pid & p & Hcart & Hold & Hhex & Hpid & Hp
                 & Hstock & Hres)].
  { rewrite Hrun in Hne. done. }
  cbv zeta in Hres. rewrite Hrun in Hres. injection Hres as -> ->.
  exists items, k, old, pid, p.
  split; [done|]. split; [done|]. split; [done|]. split; [done|].
  split; [done|]. cbv zeta. split; [|split].
  - split; [apply Math_min_ge; [apply wanted_ge|done]|apply Math_min_spec].
  - cbn [Cart.carts Cart.set_cache Cart.set_carts]. rewrite lookup_insert_eq.
    f_equal. unfold Cart.set_line. apply list_eq. intros j.
    destruct (decide (j = k)) as [->|Hne].
    + rewrite list_lookup_alter_eq, Hold, list_lookup_insert_eq; [done|].
      by apply lookup_lt_Some in Hold.
    + by rewrite list_lookup_alter_ne, list_lookup_insert_ne.
  - cbn [Cart.cartCache Cart.set_cache]. apply lookup_delete_eq.
Qed.

(** Storing lines for a user and dropping the user's cache entry keeps
    the store well formed. *)
Lemma store_ok_write userId items' st :
  Cart.store_ok st ->
  Cart.cart_ok items' ->
  Cart.store_ok
    (Cart.set_cache (delete (Cart.cart_key userId) (Cart.cartCache st))
       (Cart.set_carts (<[userId := items']> (Cart.carts st)) st)).
Proof.
  intros [Hcarts Hcache] Hok. split.
  - intros u items. cbn [Cart.carts Cart.set_cache Cart.set_carts].
    destruct (decide (u = userId)) as [->|Hne].
    + rewrite lookup_insert_eq. by intros [= <-].
    + rewrite lookup_insert_ne by done. apply Hcarts.
  - intros u e. unfold Cart.stored_lines.
    cbn [Cart.carts Cart.cartCache Cart.set_cache Cart.set_carts].
    destruct (decide (u = userId)) as [->|Hne].
    + by rewrite lookup_delete_eq.
    + rewrite lookup_delete_ne by (intros E; by apply cart_key_inj in E).
      rewrite lookup_insert_ne by done. apply Hcache.
Qed.

Lemma cart_ok_nil : Cart.cart_ok [].
Proof. split; [apply NoDup_nil_2|constructor]. Qed.

Lemma store_ok_stored userId st :
  Cart.store_ok st -> Cart.cart_ok (Cart.stored_lines userId st).
Proof.
  intros [Hcarts _]. unfold Cart.stored_lines.
  destruct (Cart.carts st !! userId) eqn:E; [by apply (Hcarts userId)|].
  apply cart_ok_nil.
Qed.

Lemma populate_lines ps items : (Cart.populate ps items).*1 = items.
Proof.
  unfold Cart.populate. rewrite <- list_fmap_compose. apply list_fmap_id.
Qed.

Lemma cartData_lines user st :
  (match Cart.carts st !! user with
   | Some items => Cart.populate (Cart.products st) items
   | None => []
   end).*1 = Cart.stored_lines user st.
Proof.
  unfold Cart.stored_lines. destruct (Cart.carts st !! user); [|done].
  apply populate_lines.
Qed.

(** Writing the user's stored cart to the cache keeps it coherent. *)
Lemma store_ok_cache_set user now c st :
  Cart.store_ok st ->
  (forall key e, c !! key = Some e -> Cart.cartCache st !! key = Some e) ->
  Cart.store_ok
    (Cart.set_cache
       (Cart.cache_set (Cart.cart_key user)
          (match Cart.carts st !! user with
           | Some items => Cart.populate (Cart.products st) items
           | None => []
           end) now c) st).
Proof.
  intros [Hcarts Hcache] Hsub. split; [exact Hcarts|].
  intros u e. unfold Cart.cache_set.
  cbn [Cart.cartCache Cart.set_cache].
  change (Cart.stored_lines u (Cart.set_cache _ st))
    with (Cart.stored_lines u st).
  destruct (decide (u = user)) as [->|Hne].
  - rewrite lookup_insert_eq. intros [= <-]. apply cartData_lines.
  - rewrite lookup_insert_ne by (intros E; by apply cart_key_inj in E).
    intros He. apply Hcache. by apply Hsub.
Qed.

(** What [getCart] answers a user, and the store it leaves. *)
Lemma getCart_run user now st :
  user <> EmptyString ->
  Cart.store_ok st ->
  exists cart cached st',
    Cart.getCart (Some user) now st
    = (Cart.mkAnswer 200 None (Some cart) (Some cached), st')
    /\ cart.*1 = Cart.stored_lines user st
    /\ Cart.carts st' = Cart.carts st
    /\ Cart.products st' = Cart.products st
    /\ Cart.store_ok st'.
Proof.
  intros Huser Hok. pose proof Hok as [Hcarts Hcache].
  unfold Cart.getCart, Cart.guarded.
  destruct (String.eqb_spec user "") as [|_]; [done|].
  unfold Cart.cache_get.
  destruct (Cart.cartCache st !! Cart.cart_key user) as [e|] eqn:Hentry.
  - destruct (negb (e.2 =? 0)%Z && (e.2 <? now)%Z).
    + eexists _, _, _. split; [reflexivity|].
      split; [apply cartData_lines|]. split; [done|]. split; [done|].
      apply store_ok_cache_set; [done|].
      intros key e'. rewrite lookup_delete_Some. by intros [_ ?].
    + eexists _, _, _. split; [reflexivity|].
      split; [by apply Hcache|]. split; [done|]. split; [done|].
      by destruct st.
  - eexists _, _, _. split; [reflexivity|].
    split; [apply cartData_lines|]. split; [done|]. split; [done|].
    by apply store_ok_cache_set.
Qed.

Lemma getCart_store_ok user now st :
  Cart.store_ok st -> Cart.store_ok (snd (Cart.getCart user now st)).
Proof.
  intros Hok. destruct user as [user|]; [|done].
  destruct (String.eqb_spec user "") as [->|Hne]; [done|].
  destruct (getCart_run user now st Hne Hok) as (? & ? & ? & -> & _ & _ & _ & ?).
  done.
Qed.

Lemma cart_ok_filter (P : Cart.CartItem -> Prop) `{!forall i, Decision (P i)} items :
  Cart.cart_ok items -> Cart.cart_ok (filter P items).
Proof.
  intros [Hnd Hq]. split.
  - eapply sublist_NoDup; [exact Hnd|]. clear Hnd Hq.
    induction items as [|i items IH]; [done|]. rewrite filter_cons.
    destruct (decide (P i)); rewrite !fmap_cons;
      [by apply sublist_skip|by apply sublist_cons].
  - apply Forall_forall. intros i Hi. apply list_elem_of_filter in Hi as [_ Hi].
    by apply (proj1 (Forall_forall _ _) Hq).
Qed.

(** Every request keeps the store well formed. *)
Lemma step_store_ok st st' :
  Cart.step st st' -> Cart.store_ok st -> Cart.store_ok st'.
Proof.
  intros Hstep Hok. destruct Hstep as [ps|user now|user productId quantity
    |userId productId quantity|userId productId|userId].
  - destruct Hok as [Hcarts Hcache]. split; [exact Hcarts|exact Hcache].
  - by apply getCart_store_ok.
  - destruct (addToCart_run user productId quantity st)
      as [[-> _]|(pid & p & items' & _ & _ & Hstock & Hadded & ->)]; [done|].
    cbn [snd]. apply store_ok_write; [done|].
    eapply added_spec; [exact Hstock| |exact Hadded].
    intros items Hitems. by apply (proj1 Hok (str_or_empty user)).
  - destruct (updateCartItem_run userId productId quantity st)
      as [[-> _]|(items & k & old & pid & p & Hcart & Hold & _ & _ & _
                  & Hstock & Hres)]; [done|].
    cbv zeta in Hres. rewrite Hres. cbn [snd]. apply store_ok_write; [done|].
    destruct (proj1 Hok userId items Hcart) as [Hnd Hq].
    split; [by rewrite set_line_ids|].
    apply Forall_alter; [done|]. intros x _ _. cbn.
    apply Math_min_ge; [apply wanted_ge|done].
  - unfold Cart.removeFromCart, Cart.guarded.
    destruct (Cart.carts st !! userId) as [items|] eqn:Hcart; [|done].
    cbn [snd]. apply store_ok_write; [done|].
    apply cart_ok_filter. by apply (proj1 Hok userId).
  - unfold Cart.clearCart, Cart.guarded. cbn [snd].
    destruct Hok as [Hcarts Hcache]. split.
    + intros u items. cbn [Cart.carts Cart.set_cache Cart.set_carts].
      rewrite lookup_delete_Some. intros [_ ?]. by apply (Hcarts u).
    + intros u e. unfold Cart.stored_lines.
      cbn [Cart.carts Cart.cartCache Cart.set_cache Cart.set_carts].
      destruct (decide (u = userId)) as [->|Hne].
      * by rewrite lookup_delete_eq.
      * rewrite lookup_delete_ne by (intros E; by apply cart_key_inj in E).
        rewrite lookup_delete_ne by done. apply Hcache.
Qed.

Lemma reachable_store_ok st : Cart.reachable st -> Cart.store_ok st.
Proof.
  induction 1 as [ps|st st' _ IH Hstep].
  - split; [intros u items Hu; cbn in Hu; by rewrite lookup_empty in Hu|].
    intros u e He. cbn in He. by rewrite lookup_empty in He.
  - by apply (step_store_ok st).
Qed.

(** X25. In every state the cart handlers reach, whatever happened to the
    products meanwhile, [getCart] answers a signed-in user with status 200
    and the lines of the cart as they are stored, be it from the cache or
    from the collection; in these lines no product occurs twice and
    every quantity is at least 1; the carts are not changed. *)
Theorem getCart_serves_stored_cart user now st :
  Cart.reachable st ->
  user <> EmptyString ->
  exists cart cached st',
    Cart.getCart (Some user) now st
    = (Cart.mkAnswer 200 None (Some cart) (Some cached), st')
    /\ cart.*1 = Cart.stored_lines user st
    /\ Cart.cart_ok (Cart.stored_lines user st)
    /\ Cart.carts st' = Cart.carts st.
Proof.
  intros Hreach Huser. pose proof (reachable_store_ok st Hreach) as Hok.
  destruct (getCart_run user now st Huser Hok)
    as (cart & cached & st' & Hrun & Hlines & Hcarts & _ & _).
  exists cart, cached, st'. split; [exact Hrun|]. split; [exact Hlines|].
  split; [by apply store_ok_stored|exact Hcarts].
Qed.
End cart.


Lemma cart_rejection_changes_nothing_witness :
  snd (Cart.addToCart (H := hex_library) (H0 := Cart.plain_library)
         (Some "u1") (Some Sample.idB) (Some 1%Q) Cart.sample_store)
  = Cart.sample_store.
Proof.
  apply (proj1 (cart_rejection_changes_nothing (H := hex_library)
                  (H0 := Cart.plain_library) (Some "u1") "u1"
                  (Some Sample.idB) Sample.idB (Some 1%Q) Cart.sample_store)).
  vm_compute. discriminate.
Defined.

Lemma updateCartItem_sets_quantity_witness :
  exists items k old,
    Cart.carts Cart.sample_store_2 !! "u1" = Some items
    /\ items !! k = Some old
    /\ Cart.carts (snd (Cart.updateCartItem (H := hex_library) "u1" Sample.idA
                          (Some 10%Q) Cart.sample_store_2)) !! "u1"
       = Some (<[k := Cart.mkItem (Cart.ci_productId old) 3 100]> items).
Proof.
  set (r := Cart.updateCartItem (H := hex_library) "u1" Sample.idA
              (Some 10%Q) Cart.sample_store_2).
  destruct (updateCartItem_sets_quantity (H := hex_library) "u1" Sample.idA
              (Some 10%Q) Cart.sample_store_2 (fst r) (snd r))
    as (items & k & old & pid & p & Hcart & Hold & _ & Hpid & Hp & _ & Hnew & _).
  - apply surjective_pairing.
  - reflexivity.
  - exists items, k, old. split; [exact Hcart|]. split; [exact Hold|].
    rewrite Hnew. vm_compute in Hpid. injection Hpid as <-.
    vm_compute in Hp. injection Hp as <-. reflexivity.
Defined.

Lemma getCart_serves_stored_cart_witness :
  exists cart cached st',
    Cart.getCart (Some "u1") 0 Cart.sample_store_2
    = (Cart.mkAnswer 200 None (Some cart) (Some cached), st')
    /\ cart.*1 = Cart.stored_lines "u1" Cart.sample_store_2.
Proof.
  destruct (getCart_serves_stored_cart (H := hex_library)
              (H0 := Cart.plain_library) "u1" 0 Cart.sample_store_2)
    as (cart & cached & st' & Hrun & Hlines & _ & _).
  - eapply Cart.reachable_step; [apply Cart.reachable_start|].
    apply (Cart.step_addToCart (H := hex_library) (H0 := Cart.plain_library)).
  - discriminate.
  - exists cart, cached, st'. split; [exact Hrun|exact Hlines].
Defined.

(* ===================================================================== *)
(** ** The reviews hook against the router *)
(* ===================================================================== *)

Section hook_requests.
Context `{Library}.

Lemma hook_sort_rejected productId pageSize sort pageToGet :
  "sort" ∈ Listing.list_errors productId
             (Listing.mkListQuery (Some pageToGet) (Some pageSize)
                (Some (Hook.sort_param sort))).
Proof.
  unfold Listing.list_errors. cbn [Listing.q_sort].
  rewrite !elem_of_app. right. right. right.
  destruct sort; apply list_elem_of_here.
Qed.

(** X26. No request of the reviews hook passes the router's validation:
    each of the hook's four sort keys is outside the router's list of
    [top], [new] and [old]. Whatever the product, the page and the page
    size, [fetchPage] leaves the reviews, the page and the total as they
    were and the server untouched, and ends with the error of a 400
    answer; [hasMore] therefore stays as it was, and [loadMore] after a
    first load never fetches. *)
Theorem hook_requests_rejected productId pageSize sort pageToGet mode st srv :
  let after := Hook.fetchPage productId pageSize sort pageToGet mode st srv in
  Hook.reviews (fst after) = Hook.reviews st
  /\ Hook.page (fst after) = Hook.page st
  /\ Hook.total (fst after) = Hook.total st
  /\ Hook.hasMore (fst after) = Hook.hasMore st
  /\ snd after = srv
  /\ (forall id, productId = Some id -> id <> EmptyString ->
        Hook.error (fst after) = Some "Request failed with status code 400").
Proof.
  intros after. unfold after, Hook.fetchPage.
  destruct productId as [id|]; [|by repeat split].
  destruct (String.eqb_spec id "") as [->|Hne].
  { repeat split; try done. by intros id0 [= <-] Hn. }
  unfold Listing.list_reviews.
  pose proof (hook_sort_rejected id pageSize sort pageToGet) as Hsort.
  destruct (Listing.list_errors id _) as [|e errors] eqn:Herr;
    [by apply elem_of_nil in Hsort|].
  rewrite bool_decide_eq_false_2 by done. cbn [negb fst snd].
  repeat split; try done.
Qed.
End hook_requests.
